(** * xcanalyzer: the Xcode project model and its queries

    A shallow embedding of [xcanalyzer/xcodeproject/models.py] (the classes
    [XcFile], [XcGroup], [XcProject], [XcTarget]) and of the two reporter
    queries of [xcanalyzer/xcodeproject/generators.py] that compute a result
    before printing it ([print_shared_files], [print_missing_objc_files]).

    Conventions.
    - A Python [set] of objects whose [__eq__]/[__hash__] look at one key only
      holds at most one object per key: it is a finite map from the key to
      the rest of the object.  [a | b] and [a |= b] keep the objects of [a]
      (stdpp's left-biased union), [a - b] removes by key.
    - [XcGroup] objects refer to their child groups by reference; the group
      graph lives in a store, so that it may be any graph, as in Python.
    - A [while] loop that may run forever takes fuel; [OutOfFuel] stands for a
      run that has not finished within the fuel given.
    - Reading declarations that were never attached to a file ([None]) raises
      [TypeError], as iterating over [None] does.
    - Python leaves the order in which a [set] is iterated open; the model
      iterates a set in the order of its finite map.  Where a statement is
      about the order, it quantifies over the orders. *)

From Stdlib Require Import ZArith Ascii.
From stdpp Require Import gmap strings list fin_maps sorting.

Open Scope string_scope.
Open Scope list_scope.

#[local] Set Warnings "-clear-no-such-hyp".

(** ** Python string operations used by the model *)

Module Str.

(** [s.endswith(suffix)] *)
Definition endswith (s suffix : string) : bool :=
  (String.length suffix <=? String.length s)%nat
  && String.eqb
       (String.substring (String.length s - String.length suffix)
                  (String.length suffix) s)
       suffix.

(** [s.split('/')]: never empty. *)
Fixpoint split_slash (s : string) : list string :=
  match s with
  | EmptyString => [EmptyString]
  | String c s' =>
      if Ascii.eqb c "/"%char then EmptyString :: split_slash s'
      else match split_slash s' with
           | [] => [String c EmptyString]
           | w :: ws => String c w :: ws
           end
  end.

(** [l[-1]] on the list [split] returns. *)
Definition last_part (l : list string) : string := List.last l EmptyString.

(** [s[:-2]] *)
Definition drop_last2 (s : string) : string :=
  String.substring 0 (String.length s - 2) s.

(** [s.startswith(prefix)] *)
Definition startswith (s prefix : string) : bool := String.prefix prefix s.

(** [s[-1]]; [None] stands for the [IndexError] on an empty string. *)
Definition last_char (s : string) : option ascii :=
  match String.length s with
  | O => None
  | S n => String.get n s
  end.

(** [s[:-1]] *)
Definition drop_last (s : string) : string :=
  String.substring 0 (String.length s - 1) s.

End Str.

(** ** Results of computations that may raise or run forever *)

Inductive outcome (A : Type) : Type :=
| Ret (a : A)
| TypeError
| OutOfFuel.
Arguments Ret {A} a.
Arguments TypeError {A}.
Arguments OutOfFuel {A}.

#[global] Instance outcome_ret : MRet outcome := fun A a => Ret a.
#[global] Instance outcome_bind : MBind outcome := fun A B k m =>
  match m with
  | Ret a => k a
  | TypeError => TypeError
  | OutOfFuel => OutOfFuel
  end.
#[global] Instance outcome_fmap : FMap outcome := fun A B f m =>
  match m with
  | Ret a => Ret (f a)
  | TypeError => TypeError
  | OutOfFuel => OutOfFuel
  end.

(** [for x in l: s = body(s, x)] where the body may raise. *)
Fixpoint for_each {A S : Type} (body : S -> A -> outcome S) (s : S)
  (l : list A) : outcome S :=
  match l with
  | [] => Ret s
  | x :: l' => s' ← body s x; for_each body s' l'
  end.

(** ** Python lists used as stacks *)

(** [l.pop()]: the last element and what is left; [None] on an empty list
    (the loops below test [while l] first). *)
Definition pop {A : Type} (l : list A) : option (A * list A) :=
  match last l with
  | None => None
  | Some x => Some (x, removelast l)
  end.

Fixpoint drain {A S : Type} (fuel : nat) (body : S -> A -> S) (s : S)
  (l : list A) : S :=
  match pop l with
  | None => s
  | Some (x, l') =>
      match fuel with
      | O => s
      | S fuel' => drain fuel' body (body s x) l'
      end
  end.

(** [while l: x = l.pop(); s = body(s, x)] where the body adds nothing to
    [l]: [length l] iterations. *)
Definition while_pop {A S : Type} (body : S -> A -> S) (s : S) (l : list A) : S :=
  drain (length l) body s l.

(** [sorted(l, key=key)] for a string key: stable, ascending. *)
Fixpoint insert_by {A : Type} (key : A -> string) (x : A) (l : list A) : list A :=
  match l with
  | [] => [x]
  | y :: l' =>
      if String.ltb (key x) (key y) then x :: y :: l'
      else y :: insert_by key x l'
  end.

Definition sorted_by {A : Type} (key : A -> string) (l : list A) : list A :=
  foldl (fun acc x => insert_by key x acc) [] l.

(** ** Declarations ([xcanalyzer/language/models.py]) *)

(** Modelled from the spec: [SwiftTypeType] of [language/models.py], which is
    not among the sources.  Its kinds are the five that the spec's data model
    lists for Language A (class, struct, enum, protocol, extension) and that
    [generators.py] words one by one, asserting that they are all of
    [SwiftTypeType.ALL]. *)
Module SwiftTypeType.
Inductive t : Set := CLASS | STRUCT | ENUM | PROTOCOL | EXTENSION.

#[global] Instance eq_dec : EqDecision t.
Proof. solve_decision. Defined.

Definition to_nat (k : t) : nat :=
  match k with
  | CLASS => 0 | STRUCT => 1 | ENUM => 2 | PROTOCOL => 3 | EXTENSION => 4
  end.
Definition of_nat (n : nat) : option t :=
  match n with
  | 0 => Some CLASS | 1 => Some STRUCT | 2 => Some ENUM
  | 3 => Some PROTOCOL | 4 => Some EXTENSION | _ => None
  end.

#[global] Instance countable : Countable t.
Proof. apply (inj_countable to_nat of_nat). by intros []. Defined.

Definition ALL : gset t := {[ CLASS; STRUCT; ENUM; PROTOCOL; EXTENSION ]}.
End SwiftTypeType.

(** Modelled from the spec: [ObjcTypeType] of [language/models.py] (class,
    category, enum, constant, protocol). *)
Module ObjcTypeType.
Inductive t : Set := CLASS | CATEGORY | ENUM | CONSTANT | PROTOCOL.

#[global] Instance eq_dec : EqDecision t.
Proof. solve_decision. Defined.

Definition to_nat (k : t) : nat :=
  match k with
  | CLASS => 0 | CATEGORY => 1 | ENUM => 2 | CONSTANT => 3 | PROTOCOL => 4
  end.
Definition of_nat (n : nat) : option t :=
  match n with
  | 0 => Some CLASS | 1 => Some CATEGORY | 2 => Some ENUM
  | 3 => Some CONSTANT | 4 => Some PROTOCOL | _ => None
  end.

#[global] Instance countable : Countable t.
Proof. apply (inj_countable to_nat of_nat). by intros []. Defined.

Definition ALL : gset t := {[ CLASS; CATEGORY; ENUM; CONSTANT; PROTOCOL ]}.
End ObjcTypeType.

(** Modelled from the spec: the four extension scopes of
    [SwiftExtensionScope] in [language/models.py]. *)
Module SwiftExtensionScope.
Inductive t : Set := FILE | PROJECT_OBJC | PROJECT_SWIFT | OUTER.

#[global] Instance eq_dec : EqDecision t.
Proof. solve_decision. Defined.
End SwiftExtensionScope.

(** Modelled from the spec: a declaration as the model reads it, through
    [type_identifier] and [name]. *)
Module SwiftType.
Record t : Set := mk { type_identifier : SwiftTypeType.t; name : string }.

#[global] Instance eq_dec : EqDecision t.
Proof. solve_decision. Defined.
End SwiftType.

(** Modelled from the spec: an Objective-C declaration, read the same way. *)
Module ObjcType.
Record t : Set := mk { type_identifier : ObjcTypeType.t; name : string }.
End ObjcType.

(** [x.swift_types] and [x.objc_types] start as [None]; using [None] as a
    list raises. *)
Definition attached {A : Type} (decls : option (list A)) : outcome (list A) :=
  match decls with
  | Some l => Ret l
  | None => TypeError
  end.

(** ** XcFile *)

Module XcFile.

Record t : Type := mk {
  filepath : string;
  swift_types : option (list SwiftType.t);
  objc_types : option (list ObjcType.t);
}.

(** [__eq__] *)
Definition eq (self other : t) : bool :=
  String.eqb (filepath self) (filepath other).

Section Hash.
  (** Python's [hash] on [str]. *)
Variable str_hash : string -> Z.

  (** [__hash__] *)
Definition hash (self : t) : Z := str_hash (filepath self).
End Hash.

(** [filename] *)
Definition filename (self : t) : string :=
  Str.last_part (Str.split_slash (filepath self)).

(** [swift_types_filtered(type_not_in)]; the assertion
    [type_not_in.issubset(SwiftTypeType.ALL)] holds of every set of
    kinds. *)
Definition swift_types_filtered (self : t) (type_not_in : gset SwiftTypeType.t)
  : outcome (list SwiftType.t) :=
  ts ← attached (swift_types self);
  mret (filter (fun d => SwiftType.type_identifier d ∉ type_not_in) ts).

(** [swift_extensions] *)
Definition swift_extensions (self : t) : outcome (list SwiftType.t) :=
  ts ← attached (swift_types self);
  mret (filter (fun d => SwiftType.type_identifier d = SwiftTypeType.EXTENSION) ts).

End XcFile.

(** ** Sets of files *)

(** What an [XcFile] object holds besides its key. *)
Definition decls : Type :=
  option (list SwiftType.t) * option (list ObjcType.t).

(** A [set] of [XcFile]: one object per [filepath]. *)
Abbreviation FileSet := (gmap string decls).

Module FileSet.

Definition to_file (kv : string * decls) : XcFile.t :=
  XcFile.mk kv.1 kv.2.1 kv.2.2.

(** [for f in s]: the objects of the set, in the set's order. *)
Definition elements (s : FileSet) : list XcFile.t :=
  to_file <$> map_to_list s.

(** [set([f for f in s if f.filepath.endswith(suffix)])] *)
Definition with_suffix (suffix : string) (s : FileSet) : FileSet :=
  filter (fun kv => Str.endswith kv.1 suffix = true) s.

(** [s.add(f)]: an object with an equal key is kept. *)
Definition add (f : XcFile.t) (s : FileSet) : FileSet :=
  match s !! XcFile.filepath f with
  | Some _ => s
  | None => <[XcFile.filepath f := (XcFile.swift_types f, XcFile.objc_types f)]> s
  end.

(** The paths of the files of a set. *)
Definition paths (s : FileSet) : gset string := dom s.

End FileSet.

(** ** XcGroup *)

(** A reference to an [XcGroup] object. *)
Definition ref : Set := nat.

Module XcGroup.

Record t : Type := mk {
  group_path : string;
  filepath : string;
  is_project_relative : bool;
  groups : list ref;
  files : FileSet;
  is_variant : bool;
}.

(** [__eq__] *)
Definition eq (self other : t) : bool :=
  String.eqb (group_path self) (group_path other).

(** [has_folder] *)
Definition has_folder (self : t) : bool :=
  String.eqb (group_path self) (filepath self).

End XcGroup.

(** The [XcGroup] object behind each reference. *)
Definition store : Type := ref -> XcGroup.t.

(** ** XcTarget *)

(** A target as sets of targets see it: [__eq__] and [__hash__] read
    [(type, name)]. *)
Definition target_id : Set := string * string.

Module XcTarget.

Module Type_.
Definition TEST := "test".
Definition UI_TEST := "ui_test".
Definition FRAMEWORK := "framework".
Definition APP_EXTENSION := "app_extension".
Definition WATCH_EXTENSION := "watch_extension".
Definition APPLICATION := "application".
Definition WATCH_APPLICATION := "watch_application".
Definition OTHER := "other".
Definition AVAILABLES : list string :=
  [FRAMEWORK; APP_EXTENSION; WATCH_EXTENSION; WATCH_APPLICATION;
   APPLICATION; TEST; UI_TEST; OTHER].
End Type_.

Record t : Type := mk {
  name : string;
  type : string;
  product_name : string;
  dependencies : gset target_id;
  linked_frameworks : gset target_id;
  embed_frameworks : gset target_id;
  source_files : FileSet;
  resource_files : FileSet;
  header_files : FileSet;
  linked_files : FileSet;
}.

(** [__eq__] *)
Definition eq (self other : t) : bool :=
  if negb (String.eqb (type self) (type other)) then false
  else if negb (String.eqb (name self) (name other)) then false
  else true.

(** The pair that [__hash__] hashes. *)
Definition id (self : t) : target_id := (type self, name self).

(** [files] *)
Definition files (self : t) : FileSet :=
  source_files self ∪ resource_files self ∪ header_files self ∪ linked_files self.

(** [swift_files] *)
Definition swift_files (self : t) : FileSet :=
  FileSet.with_suffix ".swift" (source_files self).

(** [h_files] *)
Definition h_files (self : t) : FileSet :=
  FileSet.with_suffix ".h" (header_files self).

(** [m_files] *)
Definition m_files (self : t) : FileSet :=
  FileSet.with_suffix ".m" (source_files self).

(** [objc_files] *)
Definition objc_files (self : t) : FileSet :=
  h_files self ∪ m_files self.

Section Hash.
(** Python's [hash] on a pair of [str]. *)
Variable tuple_hash : string * string -> Z.

(** [__hash__] *)
Definition hash (self : t) : Z := tuple_hash (type self, name self).
End Hash.

End XcTarget.

(** ** XcProject *)

Module XcProject.

(** [targets] is given in the order in which the collection is iterated. *)
Record t : Type := mk {
  dirpath : string;
  name : string;
  targets : list XcTarget.t;
  groups : list ref;
  root_files : FileSet;
}.

(** [targets_sorted_by_name] *)
Definition targets_sorted_by_name (self : t) : list XcTarget.t :=
  sorted_by XcTarget.name (targets self).

(** [target_files] *)
Definition target_files (self : t) : FileSet :=
  foldl (fun results target => results ∪ XcTarget.files target) ∅ (targets self).

(** The loop of [group_files]: each iteration pops a group, adds its files
    and pushes its child groups. *)
Fixpoint group_files_loop (fuel : nat) (σ : store) (groups : list ref)
  (results : FileSet) : outcome FileSet :=
  match pop groups with
  | None => Ret results
  | Some (group, groups') =>
      match fuel with
      | O => OutOfFuel
      | S fuel' =>
          group_files_loop fuel' σ
            (groups' ++ XcGroup.groups (σ group))
            (results ∪ XcGroup.files (σ group))
      end
  end.

(** [group_files] *)
Definition group_files (fuel : nat) (σ : store) (self : t) : outcome FileSet :=
  group_files_loop fuel σ (groups self) ∅.

(** [files] *)
Definition files (fuel : nat) (σ : store) (self : t) : outcome FileSet :=
  gf ← group_files fuel σ self;
  mret (root_files self ∪ gf).

(** [target_less_files] *)
Definition target_less_files (fuel : nat) (σ : store) (self : t)
  : outcome FileSet :=
  fs ← files fuel σ self;
  mret (fs ∖ target_files self).

(** [target_less_h_files] *)
Definition target_less_h_files (fuel : nat) (σ : store) (self : t)
  : outcome FileSet :=
  tl ← target_less_files fuel σ self;
  mret (FileSet.with_suffix ".h" tl).

(** [objc_files] *)
Definition objc_files (fuel : nat) (σ : store) (self : t) : outcome FileSet :=
  let results :=
    foldl (fun results target => results ∪ XcTarget.objc_files target) ∅
          (targets_sorted_by_name self) in
  tlh ← target_less_h_files fuel σ self;
  mret (results ∪ tlh).

(** [objc_types] *)
Definition objc_types (fuel : nat) (σ : store) (self : t)
  : outcome (list ObjcType.t) :=
  fs ← objc_files fuel σ self;
  for_each (fun results objc_file =>
              ts ← attached (XcFile.objc_types objc_file);
              mret (results ++ ts))
           [] (FileSet.elements fs).

(** [swift_files] *)
Definition swift_files (self : t) : FileSet :=
  foldl (fun results target => results ∪ XcTarget.swift_files target) ∅
        (targets_sorted_by_name self).

(** [swift_types] *)
Definition swift_types (self : t) : outcome (list SwiftType.t) :=
  for_each (fun results swift_file =>
              ts ← attached (XcFile.swift_types swift_file);
              mret (results ++ ts))
           [] (FileSet.elements (swift_files self)).

(** What [swift_types_filtered] returns: a list when [flat], else a dict
    from kind to list. *)
Inductive filtered : Type :=
| Flat (results : list SwiftType.t)
| Grouped (grouped_results : gmap SwiftTypeType.t (list SwiftType.t)).

(** The kinds [swift_types_filtered] keeps: [type_not_in] has priority. *)
Definition kept_types (type_in type_not_in : gset SwiftTypeType.t)
  : gset SwiftTypeType.t :=
  if bool_decide (type_not_in ≠ ∅) then SwiftTypeType.ALL ∖ type_not_in
  else type_in.

(** The dict [swift_types_filtered] fills. *)
Definition swift_types_grouped (self : t)
  (type_in type_not_in : gset SwiftTypeType.t)
  : outcome (gmap SwiftTypeType.t (list SwiftType.t)) :=
  let types := kept_types type_in type_not_in in
  let grouped_results : gmap SwiftTypeType.t (list SwiftType.t) :=
    gset_to_gmap [] types in
  sts ← swift_types self;
  mret (foldl (fun grouped swift_type =>
                 if bool_decide (SwiftType.type_identifier swift_type ∉ types)
                 then grouped
                 else alter (fun l => l ++ [swift_type])
                            (SwiftType.type_identifier swift_type) grouped)
              grouped_results sts).

(** The list [swift_types_filtered] builds from the dict when [flat]. *)
Definition swift_types_flat (self : t)
  (type_in type_not_in : gset SwiftTypeType.t) : outcome (list SwiftType.t) :=
  grouped_results ← swift_types_grouped self type_in type_not_in;
  mret (foldl (fun results swift_types => results ++ swift_types) []
              (snd <$> map_to_list grouped_results)).

(** [swift_types_filtered(type_in, type_not_in, flat)]; both assertions hold
    of every set of kinds. *)
Definition swift_types_filtered (self : t)
  (type_in type_not_in : gset SwiftTypeType.t) (flat : bool) : outcome filtered :=
  if flat then Flat <$> swift_types_flat self type_in type_not_in
  else Grouped <$> swift_types_grouped self type_in type_not_in.

(** The dict [swift_extensions_grouped_by_scope] returns, one list per
    scope. *)
Record by_scope : Type := mk_by_scope {
  file_scoped_extensions : list SwiftType.t;
  objc_scoped_extensions : list SwiftType.t;
  swift_scoped_extensions : list SwiftType.t;
  outer_extensions : list SwiftType.t;
}.

(** Indexing that dict. *)
Definition scoped (g : by_scope) (s : SwiftExtensionScope.t) : list SwiftType.t :=
  match s with
  | SwiftExtensionScope.FILE => file_scoped_extensions g
  | SwiftExtensionScope.PROJECT_OBJC => objc_scoped_extensions g
  | SwiftExtensionScope.PROJECT_SWIFT => swift_scoped_extensions g
  | SwiftExtensionScope.OUTER => outer_extensions g
  end.

(** Body of the first loop of [swift_extensions_grouped_by_scope]: one
    extension of [swift_file] goes to [file_scoped_extensions] or to
    [remaining_extensions]. *)
Definition file_scope_step (swift_file : XcFile.t)
  (acc : list SwiftType.t * list SwiftType.t) (swift_extension : SwiftType.t)
  : outcome (list SwiftType.t * list SwiftType.t) :=
  non_extension_swift_types ←
    XcFile.swift_types_filtered swift_file {[ SwiftTypeType.EXTENSION ]};
  if bool_decide (SwiftType.name swift_extension
                  ∈ SwiftType.name <$> (non_extension_swift_types : list SwiftType.t))
  then mret (acc.1 ++ [swift_extension], acc.2)
  else mret (acc.1, acc.2 ++ [swift_extension]).

(** The first loop, one file. *)
Definition split_file_scoped (acc : list SwiftType.t * list SwiftType.t)
  (swift_file : XcFile.t) : outcome (list SwiftType.t * list SwiftType.t) :=
  exts ← XcFile.swift_extensions swift_file;
  for_each (file_scope_step swift_file) acc exts.

(** Body of the second loop: one remaining extension. *)
Definition project_scope_step (objc_type_names swift_type_names : list string)
  (acc : list SwiftType.t * list SwiftType.t * list SwiftType.t)
  (extension : SwiftType.t)
  : list SwiftType.t * list SwiftType.t * list SwiftType.t :=
  let '(objc_scoped, swift_scoped, outer) := acc in
  if bool_decide (SwiftType.name extension ∈ objc_type_names)
  then (objc_scoped ++ [extension], swift_scoped, outer)
  else if bool_decide (SwiftType.name extension ∈ swift_type_names)
  then (objc_scoped, swift_scoped ++ [extension], outer)
  else (objc_scoped, swift_scoped, outer ++ [extension]).

(** [swift_extensions_grouped_by_scope] *)
Definition swift_extensions_grouped_by_scope (fuel : nat) (σ : store) (self : t)
  : outcome by_scope :=
  '(file_scoped, remaining) ←
    for_each split_file_scoped ([], []) (FileSet.elements (swift_files self));
  ots ← objc_types fuel σ self;
  let objc_type_names := ObjcType.name <$> ots in
  sts ← swift_types_flat self SwiftTypeType.ALL {[ SwiftTypeType.EXTENSION ]};
  let swift_type_names := SwiftType.name <$> sts in
  let '(objc_scoped, swift_scoped, outer) :=
    while_pop (project_scope_step objc_type_names swift_type_names)
              ([], [], []) (rev remaining) in
  mret (mk_by_scope file_scoped objc_scoped swift_scoped outer).

(** [targets_of_type(target_type)]: the set comprehension keeps one target
    per (type, name), the first met; the set is then sorted by name. *)
Definition targets_of_type (self : t) (target_type : string) : list XcTarget.t :=
  let results : gmap target_id XcTarget.t :=
    foldl (fun results target =>
             if String.eqb (XcTarget.type target) target_type
             then match results !! XcTarget.id target with
                  | Some _ => results
                  | None => <[XcTarget.id target := target]> results
                  end
             else results)
          ∅ (targets self) in
  sorted_by XcTarget.name (snd <$> map_to_list results).

(** [target_with_name(name)] *)
Definition target_with_name (self : t) (name : string) : option XcTarget.t :=
  let candidates :=
    filter (fun target => XcTarget.name target = name) (targets self) in
  match candidates with
  | [] => None
  | candidate :: _ => Some candidate
  end.

(** The loop of [nonregular_files]: a variant group is dropped with what is
    below it; of another group the files whose path does not start with the
    group path are reported, with the group. *)
Fixpoint nonregular_files_loop (fuel : nat) (σ : store) (groups : list ref)
  (results : list (XcFile.t * ref)) : outcome (list (XcFile.t * ref)) :=
  match pop groups with
  | None => Ret results
  | Some (group, groups') =>
      match fuel with
      | O => OutOfFuel
      | S fuel' =>
          if XcGroup.is_variant (σ group)
          then nonregular_files_loop fuel' σ groups' results
          else
            nonregular_files_loop fuel' σ
              (groups' ++ XcGroup.groups (σ group))
              (results
               ++ ((fun group_file => (group_file, group))
                     <$> filter (fun group_file =>
                                   Str.startswith (XcFile.filepath group_file)
                                     (XcGroup.group_path (σ group)) = false)
                                (FileSet.elements (XcGroup.files (σ group)))))
      end
  end.

(** [nonregular_files] *)
Definition nonregular_files (fuel : nat) (σ : store) (self : t)
  : outcome (list (XcFile.t * ref)) :=
  nonregular_files_loop fuel σ (groups self) [].

(** [relative_path_for_file(xc_file)] *)
Definition relative_path_for_file (self : t) (xc_file : XcFile.t) : string :=
  dirpath self +:+ XcFile.filepath xc_file.

(** [file_with_name(name)] *)
Definition file_with_name (fuel : nat) (σ : store) (self : t) (name : string)
  : outcome (option XcFile.t) :=
  fs ← files fuel σ self;
  mret (List.find (fun xc_file => String.eqb (XcFile.filename xc_file) name)
                  (FileSet.elements fs)).

(** The test that [groups_filtered] applies to a group under [filter_mode];
    [None] is a mode that is no string ([None], [False]). *)
Definition group_passes (filter_mode : option string) (current_group : XcGroup.t)
  : bool :=
  if bool_decide (filter_mode = Some "empty") then
    bool_decide (XcGroup.groups current_group = [])
    && bool_decide (XcGroup.files current_group = ∅)
  else if bool_decide (filter_mode = Some "project_relative") then
    XcGroup.is_project_relative current_group
  else if bool_decide (filter_mode = Some "without_folder") then
    negb (XcGroup.is_variant current_group)
    && negb (XcGroup.has_folder current_group)
  else if bool_decide (filter_mode = Some "variant") then
    XcGroup.is_variant current_group
  else true.

(** The loop of [groups_filtered]. *)
Fixpoint groups_filtered_loop (fuel : nat) (σ : store)
  (filter_mode : option string) (remaining_groups results : list ref)
  : outcome (list ref) :=
  match pop remaining_groups with
  | None => Ret results
  | Some (current_group, remaining_groups') =>
      match fuel with
      | O => OutOfFuel
      | S fuel' =>
          groups_filtered_loop fuel' σ filter_mode
            (remaining_groups' ++ XcGroup.groups (σ current_group))
            (if group_passes filter_mode (σ current_group)
             then results ++ [current_group] else results)
      end
  end.

(** [groups_filtered(filter_mode)]: the groups, as references. *)
Definition groups_filtered (fuel : nat) (σ : store) (self : t)
  (filter_mode : option string) : outcome (list ref) :=
  groups_filtered_loop fuel σ filter_mode (groups self) [].

(** [objc_types_filtered(type_in)]; the assertion holds of every set of
    kinds. *)
Definition objc_types_filtered (fuel : nat) (σ : store) (self : t)
  (type_in : gset ObjcTypeType.t)
  : outcome (gmap ObjcTypeType.t (list ObjcType.t)) :=
  let results : gmap ObjcTypeType.t (list ObjcType.t) :=
    gset_to_gmap [] type_in in
  ots ← objc_types fuel σ self;
  mret (foldl (fun results objc_type =>
                 if bool_decide (ObjcType.type_identifier objc_type ∉ type_in)
                 then results
                 else alter (fun l => l ++ [objc_type])
                            (ObjcType.type_identifier objc_type) results)
              results ots).

End XcProject.

(** ** XcProjReporter: what the two queries compute before printing *)

Module XcProjReporter.

(** [file_targets[target_file]] gets [target]. *)
Definition note_target (target : XcTarget.t)
  (file_targets : gmap string (gset target_id)) (target_file : XcFile.t)
  : gmap string (gset target_id) :=
  match file_targets !! XcFile.filepath target_file with
  | Some targets =>
      <[XcFile.filepath target_file := targets ∪ {[ XcTarget.id target ]}]>
        file_targets
  | None =>
      <[XcFile.filepath target_file := {[ XcTarget.id target ]}]> file_targets
  end.

(** The dict [file_targets] of [print_shared_files]: for each file (a key by
    its path) the set of targets that own it. *)
Definition file_targets (xcode_project : XcProject.t)
  : gmap string (gset target_id) :=
  foldl (fun file_targets target =>
           foldl (note_target target) file_targets
                 (FileSet.elements (XcTarget.files target)))
        ∅ (XcProject.targets xcode_project).

(** [filepath_targets]: the files with two targets or more. *)
Definition filepath_targets (xcode_project : XcProject.t)
  : gmap string (gset target_id) :=
  filter (fun kv : string * gset target_id => (2 <= size kv.2)%nat)
         (file_targets xcode_project).

(** [print_shared_files]: the lines printed, each a path and its targets,
    sorted by path. *)
Definition print_shared_files (xcode_project : XcProject.t)
  : list (string * gset target_id) :=
  sorted_by fst (map_to_list (filepath_targets xcode_project)).

(** The four sets the loop of [print_missing_objc_files] maintains. *)
Record names_seen : Type := mk_names {
  duplicate_h_file_names : gset string;
  duplicate_m_file_names : gset string;
  h_file_names : gset string;
  m_file_names : gset string;
}.

(** One iteration of that loop. *)
Definition see_objc_file (st : names_seen) (objc_file : XcFile.t) : names_seen :=
  let filename := Str.last_part (Str.split_slash (XcFile.filepath objc_file)) in
  let base_filename := Str.drop_last2 filename in
  let st :=
    if Str.endswith filename ".h" then
      mk_names
        (if bool_decide (base_filename ∈ h_file_names st)
         then duplicate_h_file_names st ∪ {[ base_filename ]}
         else duplicate_h_file_names st)
        (duplicate_m_file_names st)
        (h_file_names st ∪ {[ base_filename ]})
        (m_file_names st)
    else st in
  if Str.endswith filename ".m" then
    mk_names
      (duplicate_h_file_names st)
      (if bool_decide (base_filename ∈ m_file_names st)
       then duplicate_m_file_names st ∪ {[ base_filename ]}
       else duplicate_m_file_names st)
      (h_file_names st)
      (m_file_names st ∪ {[ base_filename ]})
  else st.

(** What [print_missing_objc_files] hands to its summary: four sorted lists
    of names. *)
Record missing_report : Type := mk_report {
  duplicate_h_file_names_list : list string;
  duplicate_m_file_names_list : list string;
  missing_h_file_names : list string;
  missing_m_file_names : list string;
}.

(** [print_missing_objc_files] on the files in the order visited. *)
Definition missing_objc_files (visited : list XcFile.t) : missing_report :=
  let st := foldl see_objc_file (mk_names ∅ ∅ ∅ ∅) visited in
  mk_report
    (sorted_by (fun x => x) (elements (duplicate_h_file_names st)))
    (sorted_by (fun x => x) (elements (duplicate_m_file_names st)))
    (sorted_by (fun x => x) (elements (m_file_names st ∖ h_file_names st)))
    (sorted_by (fun x => x) (elements (h_file_names st ∖ m_file_names st))).

(** [print_missing_objc_files] *)
Definition print_missing_objc_files (fuel : nat) (σ : store)
  (xcode_project : XcProject.t) : outcome missing_report :=
  fs ← XcProject.objc_files fuel σ xcode_project;
  mret (missing_objc_files (FileSet.elements fs)).

(** What [print_files_summary] prints: seven counts. *)
Record files_summary : Type := mk_files_summary {
  source_files_count : nat;
  swift_source_files_count : nat;
  objc_source_files_count : nat;
  other_source_files_count : nat;
  resource_files_count : nat;
  header_files_count : nat;
  total_files_count : nat;
}.

(** The source, resource and header files of all targets. *)
Definition bucket_unions (xcode_project : XcProject.t)
  : FileSet * FileSet * FileSet :=
  foldl (fun acc target =>
           (acc.1.1 ∪ XcTarget.source_files target,
            acc.1.2 ∪ XcTarget.resource_files target,
            acc.2 ∪ XcTarget.header_files target))
        (∅, ∅, ∅) (XcProject.targets xcode_project).

(** One source file goes to the Swift, the Objective-C or the other source
    files. *)
Definition sort_source_file (acc : FileSet * FileSet * FileSet)
  (source_file : XcFile.t) : FileSet * FileSet * FileSet :=
  if Str.endswith (XcFile.filepath source_file) ".swift"
  then (FileSet.add source_file acc.1.1, acc.1.2, acc.2)
  else if Str.endswith (XcFile.filepath source_file) ".m"
  then (acc.1.1, FileSet.add source_file acc.1.2, acc.2)
  else (acc.1.1, acc.1.2, FileSet.add source_file acc.2).

(** [print_files_summary] *)
Definition print_files_summary (xcode_project : XcProject.t) : files_summary :=
  let '(source_files, resource_files, header_files) :=
    bucket_unions xcode_project in
  let '(swift_source_files, objc_source_files, other_source_files) :=
    foldl sort_source_file (∅, ∅, ∅) (FileSet.elements source_files) in
  let source_files_count := size source_files in
  let resource_files_count := size resource_files in
  let header_files_count := size header_files in
  mk_files_summary
    source_files_count
    (size swift_source_files) (size objc_source_files) (size other_source_files)
    resource_files_count header_files_count
    (source_files_count + resource_files_count + header_files_count).

(** What [print_all_groups_summary] prints: five counts, Python integers. *)
Record groups_summary : Type := mk_groups_summary {
  root_groups_count : Z;
  variant_root_groups_count : Z;
  variant_groups_count : Z;
  other_groups_count : Z;
  total_groups_count : Z;
}.

(** [len([g for g in groups if g.is_variant])] *)
Definition count_variant (σ : store) (groups : list ref) : Z :=
  Z.of_nat (length (filter (fun g => XcGroup.is_variant (σ g) = true) groups)).

(** [print_all_groups_summary] *)
Definition print_all_groups_summary (fuel : nat) (σ : store)
  (xcode_project : XcProject.t) : outcome groups_summary :=
  groups ← XcProject.groups_filtered fuel σ xcode_project None;
  let total_groups_count := Z.of_nat (length groups) in
  let root_groups_count := Z.of_nat (length (XcProject.groups xcode_project)) in
  let variant_root_groups_count :=
    count_variant σ (XcProject.groups xcode_project) in
  let variant_groups_count :=
    (count_variant σ groups - variant_root_groups_count)%Z in
  let other_groups_count :=
    (total_groups_count - root_groups_count - variant_groups_count)%Z in
  mret (mk_groups_summary root_groups_count variant_root_groups_count
          variant_groups_count other_groups_count total_groups_count).

(** [relative_dirpath.startswith(ignored_dirpath)] for one of the ignored
    paths. *)
Definition ignored_by_path (ignored_dirpaths : list string) (filepath : string)
  : bool :=
  existsb (fun ignored_dirpath => Str.startswith filepath ignored_dirpath)
          ignored_dirpaths.

(** [ignored_dirs & set(filepath.split('/')[:-1])] is not empty. *)
Definition ignored_by_dir (ignored_dirs : gset string) (filepath : string) : bool :=
  bool_decide (ignored_dirs ∩ list_to_set (removelast (Str.split_slash filepath)) ≠ ∅).

(** Mode [target] of [print_orphan_files] keeps a file. *)
Definition orphan_of_target (ignored_dirpaths : list string)
  (ignored_dirs : gset string) (target_file : XcFile.t) : bool :=
  if Str.endswith (XcFile.filepath target_file) "Info.plist" then false
  else if Str.endswith (XcFile.filepath target_file) ".h" then false
  else if ignored_by_path ignored_dirpaths (XcFile.filepath target_file) then false
  else if ignored_by_dir ignored_dirs (XcFile.filepath target_file) then false
  else true.

(** Modes [referenced] and [unreferenced] keep a file. *)
Definition plist_or_header (target_file : XcFile.t) : bool :=
  negb (negb (Str.endswith (XcFile.filepath target_file) "Info.plist")
        && negb (Str.endswith (XcFile.filepath target_file) ".h")).

(** [print_orphan_files(ignored_dirpaths, ignored_dirs, mode)]: the paths
    printed, sorted; [None] stands for the [ValueError] raised on a mode
    that is not supported.  [folder_filepaths] is what the walk of the
    project folder found. *)
Definition print_orphan_files (fuel : nat) (σ : store)
  (xcode_project : XcProject.t) (folder_filepaths : gset string)
  (ignored_dirpaths : list string) (ignored_dirs : gset string) (mode : string)
  : outcome (option (list string)) :=
  if String.eqb mode "all" then
    let target_filepaths :=
      FileSet.paths (XcProject.target_files xcode_project) in
    mret (Some (sorted_by (fun x => x)
                  (elements (folder_filepaths ∖ target_filepaths))))
  else if String.eqb mode "project" then
    fs ← XcProject.files fuel σ xcode_project;
    mret (Some (sorted_by (fun x => x)
                  (elements (folder_filepaths ∖ FileSet.paths fs))))
  else if String.eqb mode "target" then
    fs ← XcProject.files fuel σ xcode_project;
    let target_less_files := fs ∖ XcProject.target_files xcode_project in
    mret (Some (sorted_by (fun x => x)
                  (XcFile.filepath
                     <$> List.filter (orphan_of_target ignored_dirpaths ignored_dirs)
                                     (FileSet.elements target_less_files))))
  else if String.eqb mode "referenced" then
    mret (Some (sorted_by (fun x => x)
                  (XcFile.filepath
                     <$> List.filter plist_or_header
                           (FileSet.elements
                              (XcProject.target_files xcode_project)))))
  else if String.eqb mode "unreferenced" then
    tl ← XcProject.target_less_files fuel σ xcode_project;
    mret (Some (sorted_by (fun x => x)
                  (XcFile.filepath
                     <$> List.filter plist_or_header (FileSet.elements tl))))
  else mret None.

End XcProjReporter.

(** ** The script [find-dead-types.py] *)

Module FindDeadTypes.

(** [os.path.sep] *)
Definition sep : ascii := "/"%char.

Fixpoint strip_loop (fuel : nat) (path : string) : string :=
  match fuel with
  | O => path
  | S fuel' =>
      if negb (String.eqb path "")
         && bool_decide (Str.last_char path = Some sep)
      then strip_loop fuel' (Str.drop_last path)
      else path
  end.

(** [while path and path[-1] == os.path.sep: path = path[:-1]]: each
    iteration shortens [path], so [length path] iterations are enough. *)
Definition strip_trailing_sep (path : string) : string :=
  strip_loop (String.length path) path.

End FindDeadTypes.

(** ** Vocabulary of the statements *)

(** [reaches σ g h]: group [h] is [g] or below it through child-group
    edges. *)
Inductive reaches (σ : store) : ref -> ref -> Prop :=
| reaches_here (g : ref) : reaches σ g g
| reaches_child (g c h : ref) :
    c ∈ XcGroup.groups (σ g) -> reaches σ c h -> reaches σ g h.

(** A group of the tree: reachable from one of the [roots]. *)
Definition reachable (σ : store) (roots : list ref) (h : ref) : Prop :=
  exists g, g ∈ roots /\ reaches σ g h.

(** The groups reachable from [roots] form a finite graph without cycle:
    each has a depth [rank], larger than the depth of its children. *)
Definition ranked (σ : store) (rank : ref -> nat) (roots : list ref) : Prop :=
  forall g, reachable σ roots g ->
  forall c, c ∈ XcGroup.groups (σ g) -> rank c < rank g.

(** A group that is below itself. *)
Definition on_cycle (σ : store) (g : ref) : Prop :=
  exists c, c ∈ XcGroup.groups (σ g) /\ reaches σ c g.

(** [owns ft path i]: in the dict [ft], target [i] is among the targets of
    the file at [path]. *)
Definition owns (ft : gmap string (gset target_id)) (path : string)
  (i : target_id) : Prop :=
  exists ids, ft !! path = Some ids /\ i ∈ ids.

(** The declarations of kind [k] in a list. *)
Definition of_kind (k : SwiftTypeType.t) (sts : list SwiftType.t)
  : list SwiftType.t :=
  filter (fun d => SwiftType.type_identifier d = k) sts.

(** The loop of [print_missing_objc_files] reads a file through its
    [filename] only. *)
Definition see_filename (st : XcProjReporter.names_seen) (filename : string)
  : XcProjReporter.names_seen :=
  XcProjReporter.see_objc_file st (XcFile.mk filename None None).

(** The extensions among declarations. *)
Definition extensions_of (ts : list SwiftType.t) : list SwiftType.t :=
  filter (fun d => SwiftType.type_identifier d = SwiftTypeType.EXTENSION) ts.

(** The names of the declarations that are not extensions. *)
Definition non_extension_names (ts : list SwiftType.t) : list string :=
  SwiftType.name <$> filter (fun d => SwiftType.type_identifier d ≠ SwiftTypeType.EXTENSION) ts.

(** The declarations attached to a file, none when nothing was attached. *)
Definition declared_in (f : XcFile.t) : list SwiftType.t :=
  default [] (XcFile.swift_types f).

(** Each extension declaration of [files], with its owning file, in order. *)
Definition extension_occurrences_of (files : list XcFile.t)
  : list (XcFile.t * SwiftType.t) :=
  files ≫= fun f => (fun e => (f, e)) <$> extensions_of (declared_in f).

(** The extension declarations of the project's Swift files. *)
Definition extension_occurrences (p : XcProject.t) : list (XcFile.t * SwiftType.t) :=
  extension_occurrences_of (FileSet.elements (XcProject.swift_files p)).

(** Rule 1 of the classifier: the owning file declares a type, not an
    extension, with the extended name. *)
Definition file_rule (occ : XcFile.t * SwiftType.t) : Prop :=
  SwiftType.name occ.2 ∈ non_extension_names (declared_in occ.1).

#[global] Instance file_rule_dec (occ : XcFile.t * SwiftType.t) :
  Decision (file_rule occ).
Proof. unfold file_rule. apply _. Defined.

(** The classifier as the spec words it: for extension E of name N in file
    F, the first rule that applies, in the order file, other-language
    project, same-language project, outer. *)
Definition scope_by_rules (objc_type_names swift_type_names : list string)
  (occ : XcFile.t * SwiftType.t) : SwiftExtensionScope.t :=
  if bool_decide (file_rule occ) then SwiftExtensionScope.FILE
  else if bool_decide (SwiftType.name occ.2 ∈ objc_type_names)
  then SwiftExtensionScope.PROJECT_OBJC
  else if bool_decide (SwiftType.name occ.2 ∈ swift_type_names)
  then SwiftExtensionScope.PROJECT_SWIFT
  else SwiftExtensionScope.OUTER.

(** The extensions that the rules give scope [s], in order. *)
Definition with_scope (objc_type_names swift_type_names : list string)
  (s : SwiftExtensionScope.t) (occs : list (XcFile.t * SwiftType.t))
  : list SwiftType.t :=
  snd <$> filter (fun occ => scope_by_rules objc_type_names swift_type_names occ = s) occs.

(** Declarations have been attached to the files that the classifier
    reads: the project's Swift files and, whenever they are computed, its
    Objective-C files. *)
Definition declarations_attached (σ : store) (p : XcProject.t) : Prop :=
  Forall (fun f => is_Some (XcFile.swift_types f))
         (FileSet.elements (XcProject.swift_files p))
  /\ forall fuel ofs,
       XcProject.objc_files fuel σ p = Ret ofs ->
       Forall (fun f => is_Some (XcFile.objc_types f)) (FileSet.elements ofs).

(** Target [t] of project [p] owns the Swift file [f], and a target of [p]
    that owns a Swift file of the same path holds this very file. *)
Definition owns_swift_file (p : XcProject.t) (t : XcTarget.t) (f : XcFile.t)
  : Prop :=
  t ∈ XcProject.targets p
  /\ f ∈ FileSet.elements (XcTarget.swift_files t)
  /\ forall t' f',
       t' ∈ XcProject.targets p ->
       f' ∈ FileSet.elements (XcTarget.swift_files t') ->
       XcFile.filepath f' = XcFile.filepath f -> f' = f.

(** No Objective-C declaration of the project is named [n]. *)
Definition no_objc_type_named (σ : store) (p : XcProject.t) (n : string)
  : Prop :=
  forall fuel ots,
    XcProject.objc_types fuel σ p = Ret ots -> n ∉ ObjcType.name <$> ots.

(** ** Vocabulary of the further properties *)

(** The three traversals of the group graph ([group_files],
    [groups_filtered], [nonregular_files]) share one loop: pop a group,
    visit it and, when [descend] says so, push its child groups. *)
Fixpoint walk_loop {S : Type} (fuel : nat) (σ : store) (descend : ref -> bool)
  (visit : S -> ref -> S) (groups : list ref) (s : S) : outcome S :=
  match pop groups with
  | None => Ret s
  | Some (group, groups') =>
      match fuel with
      | O => OutOfFuel
      | S fuel' =>
          walk_loop fuel' σ descend visit
            (if descend group then groups' ++ XcGroup.groups (σ group) else groups')
            (visit s group)
      end
  end.

(** The groups in the order in which the loop pops them. *)
Definition walk_order (fuel : nat) (σ : store) (descend : ref -> bool)
  (groups : list ref) : outcome (list ref) :=
  walk_loop fuel σ descend (fun order group => order ++ [group]) groups [].

(** [reaches_regular σ g h]: [h] is [g] or below it, and neither [h] nor a
    group on the way is a variant group. *)
Inductive reaches_regular (σ : store) : ref -> ref -> Prop :=
| regular_here (g : ref) :
    XcGroup.is_variant (σ g) = false -> reaches_regular σ g g
| regular_child (g c h : ref) :
    XcGroup.is_variant (σ g) = false ->
    c ∈ XcGroup.groups (σ g) -> reaches_regular σ c h -> reaches_regular σ g h.

(** What [nonregular_files] reports of one group. *)
Definition nonregular_of (σ : store) (group : ref) : list (XcFile.t * ref) :=
  (fun group_file => (group_file, group))
    <$> filter (fun group_file =>
                  Str.startswith (XcFile.filepath group_file)
                    (XcGroup.group_path (σ group)) = false)
               (FileSet.elements (XcGroup.files (σ group))).
(** [reaches_through σ descend g h]: [h] is [g] or below it through child
    edges that leave groups which [descend] accepts. *)
Inductive reaches_through (σ : store) (descend : ref -> bool) : ref -> ref -> Prop :=
| through_here (g : ref) : reaches_through σ descend g g
| through_child (g c h : ref) :
    descend g = true ->
    c ∈ XcGroup.groups (σ g) -> reaches_through σ descend c h ->
    reaches_through σ descend g h.
(** How many of the files visited have a name that ends in [suffix] and
    that, less its last two characters, is [base]. *)
Definition count_named (suffix base : string) (visited : list XcFile.t) : nat :=
  length (filter (fun f => Str.endswith (XcFile.filename f) suffix = true
                           /\ Str.drop_last2 (XcFile.filename f) = base)
                 visited).

(** [seps n]: the string of [n] path separators. *)
Fixpoint seps (n : nat) : string :=
  match n with
  | O => ""
  | S n' => String FindDeadTypes.sep (seps n')
  end.

(** ** Example projects *)

Module Examples.

Definition class_ (n : string) : SwiftType.t := SwiftType.mk SwiftTypeType.CLASS n.
Definition extension_ (n : string) : SwiftType.t :=
  SwiftType.mk SwiftTypeType.EXTENSION n.
Definition objc_class (n : string) : ObjcType.t := ObjcType.mk ObjcTypeType.CLASS n.

(** A file whose declarations were not read. *)
Definition unread : decls := (None, None).

(** A group without files or children. *)
Definition empty_group : XcGroup.t := XcGroup.mk "" "" false [] ∅ false.

(** No group holds anything. *)
Definition empty_store : store := fun _ => empty_group.

(** A target that has source files only. *)
Definition target_of (name type : string) (source_files : FileSet) : XcTarget.t :=
  XcTarget.mk name type name ∅ ∅ ∅ source_files ∅ ∅ ∅.

(** Group 0 is its own child. *)
Definition looping_store : store :=
  fun _ => XcGroup.mk "G" "G" false [0] {[ "G/a.swift" := unread ]} false.

Definition looping_project : XcProject.t := XcProject.mk "/" "Loop" [] [0] ∅.

(** Group 0 holds groups 1 and 2; every group holds one file. *)
Definition tree_store : store := fun g =>
  match g with
  | 0 => XcGroup.mk "App" "App" false [1; 2] {[ "App/main.swift" := unread ]} false
  | 1 => XcGroup.mk "App/UI" "App/UI" false [] {[ "App/UI/View.swift" := unread ]} false
  | 2 => XcGroup.mk "App/Net" "App/Net" false [] {[ "App/Net/Api.h" := unread ]} false
  | _ => empty_group
  end.

Definition tree_rank (g : ref) : nat := match g with 0 => 1 | _ => 0 end.

(** One target owning two of the three files of the tree. *)
Definition tree_project : XcProject.t :=
  XcProject.mk "/" "Tree"
    [target_of "App" XcTarget.Type_.APPLICATION
       {[ "App/main.swift" := unread; "App/UI/View.swift" := unread ]}]
    [0] {[ "README.md" := unread ]}.

(** The files of [tree_project]. *)
Definition tree_files : FileSet :=
  {[ "README.md" := unread; "App/main.swift" := unread;
     "App/UI/View.swift" := unread; "App/Net/Api.h" := unread ]}.

(** A target owns a file that no group and no root entry holds. *)
Definition stray_project : XcProject.t :=
  XcProject.mk "/" "Stray"
    [target_of "App" XcTarget.Type_.APPLICATION {[ "Gen/a.swift" := unread ]}]
    [] ∅.

(** One target with headers A.h and B.h, a second B.h in another folder,
    and sources A.m and B.m. *)
Definition paired_project : XcProject.t :=
  XcProject.mk "/" "Paired"
    [XcTarget.mk "Lib" XcTarget.Type_.FRAMEWORK "Lib" ∅ ∅ ∅
       {[ "src/A.m" := unread; "src/B.m" := unread ]}
       ∅
       {[ "inc/A.h" := unread; "inc/B.h" := unread; "old/B.h" := unread ]}
       ∅]
    [] ∅.

(** The Objective-C files of [paired_project]. *)
Definition paired_objc_files : FileSet :=
  {[ "src/A.m" := unread; "src/B.m" := unread;
     "inc/A.h" := unread; "inc/B.h" := unread; "old/B.h" := unread ]}.

(** Swift file Foo declares class Foo and four extensions; Swift file Bar
    declares struct Bar and an extension of Foo; header Legacy declares the
    Objective-C classes Legacy and Foo. *)
Definition mixed_project : XcProject.t :=
  XcProject.mk "/" "Mixed"
    [XcTarget.mk "App" XcTarget.Type_.APPLICATION "App" ∅ ∅ ∅
       {[ "App/Foo.swift" :=
            (Some [class_ "Foo"; extension_ "Foo"; extension_ "Legacy";
                   extension_ "Bar"; extension_ "String"], None);
          "App/Bar.swift" :=
            (Some [SwiftType.mk SwiftTypeType.STRUCT "Bar"; extension_ "Foo"], None) ]}
       ∅
       {[ "App/Legacy.h" := (None, Some [objc_class "Legacy"; objc_class "Foo"]) ]}
       ∅]
    [] ∅.

(** The Swift and Objective-C types of [mixed_project]. *)
Definition mixed_swift_types : list SwiftType.t :=
  [class_ "Foo"; extension_ "Foo"; extension_ "Legacy"; extension_ "Bar";
   extension_ "String"; SwiftType.mk SwiftTypeType.STRUCT "Bar"; extension_ "Foo"].

Definition mixed_objc_types : list ObjcType.t :=
  [objc_class "Legacy"; objc_class "Foo"].


(** The same with a header in place of the implementation file. *)
Definition orphan_header_project : XcProject.t :=
  XcProject.mk "/" "OrphanHeader"
    [target_of "App" XcTarget.Type_.APPLICATION
       {[ "App/Ext.swift" := (Some [extension_ "Foo"], None) ]}]
    [] {[ "Legacy/Foo.h" := (None, Some [objc_class "Foo"]) ]}.

(** Target App owns a file extending Foo and, when [with_foo], a file
    declaring the type Foo of kind [k]. *)
Definition scenario (foo bar : string) (k : SwiftTypeType.t) (with_foo : bool)
  : XcProject.t :=
  XcProject.mk "/" "Scenario"
    [target_of "App" XcTarget.Type_.APPLICATION
       (if with_foo
        then {[ foo := (Some [SwiftType.mk k "Foo"], None);
                bar := (Some [extension_ "Foo"], None) ]}
        else {[ bar := (Some [extension_ "Foo"], None) ]})]
    [] ∅.

(** Group 0 holds the variant group 1 and group 2; group 3 lies below the
    variant group.  Groups 0, 2 and 3 hold a file from outside their path. *)
Definition variant_store : store := fun g =>
  match g with
  | 0 => XcGroup.mk "App" "App" false [1; 2]
           {[ "App/main.swift" := unread; "Shared/util.swift" := unread ]} false
  | 1 => XcGroup.mk "App/Main.storyboard" "App" false [3]
           {[ "App/Base.lproj/Main.storyboard" := unread ]} true
  | 2 => XcGroup.mk "App/Res" "App/Res" false [] {[ "Assets/icon.png" := unread ]} false
  | 3 => XcGroup.mk "App/Deep" "App/Deep" false [] {[ "Elsewhere/x.txt" := unread ]} false
  | _ => empty_group
  end.

Definition variant_rank (g : ref) : nat :=
  match g with 0 => 2 | 1 => 1 | _ => 0 end.

Definition variant_project : XcProject.t := XcProject.mk "/" "Variant" [] [0] ∅.

(** Target App owns a Swift file extending Foo and a header declaring Foo;
    with [looping_store] the only group of the project is its own child. *)
Definition looping_app_project : XcProject.t :=
  XcProject.mk "/" "LoopApp"
    [XcTarget.mk "App" XcTarget.Type_.APPLICATION "App" ∅ ∅ ∅
       {[ "App/Ext.swift" := (Some [extension_ "Foo"], None) ]} ∅
       {[ "App/Foo.h" := (None, Some [objc_class "Foo"]) ]} ∅]
    [0] ∅.

(** Group 0 holds the Swift file of target App and group 1; group 1 holds
    a header that no target owns. *)
Definition legacy_store : store := fun g =>
  match g with
  | 0 => XcGroup.mk "App" "App" false [1]
           {[ "App/Ext.swift" := (Some [extension_ "Foo"; extension_ "Array"], None) ]}
           false
  | 1 => XcGroup.mk "App/Legacy" "App/Legacy" false []
           {[ "App/Legacy/Foo.h" := (None, Some [objc_class "Foo"]) ]} false
  | _ => empty_group
  end.

Definition legacy_rank (g : ref) : nat :=
  match g with 0 => 1 | _ => 0 end.

Definition legacy_project : XcProject.t :=
  XcProject.mk "/" "Legacy"
    [target_of "App" XcTarget.Type_.APPLICATION
       {[ "App/Ext.swift" := (Some [extension_ "Foo"; extension_ "Array"], None) ]}]
    [0] ∅.

End Examples.

(** ** Lists, stacks and sorting *)

Section Stack.
Context {A : Type}.

Lemma pop_snoc (l : list A) (x : A) : pop (l ++ [x]) = Some (x, l).
Proof. unfold pop. by rewrite last_snoc, removelast_last. Qed.

Lemma drain_foldl {S : Type} (body : S -> A -> S) (l : list A) :
  forall (s : S) (fuel : nat),
    length l <= fuel -> drain fuel body s l = foldl body s (rev l).
Proof.
  induction l as [|x l IH] using rev_ind; intros s fuel Hfuel.
  - by destruct fuel.
  - rewrite rev_unit, length_app in *. simpl in *.
    destruct fuel as [|fuel]; [lia|].
    simpl. rewrite pop_snoc. apply IH. lia.
Qed.

Lemma while_pop_foldl {S : Type} (body : S -> A -> S) (s : S) (l : list A) :
  while_pop body s l = foldl body s (rev l).
Proof. by apply drain_foldl. Qed.

Lemma insert_by_perm (key : A -> string) (x : A) (l : list A) :
  insert_by key x l ≡ₚ x :: l.
Proof.
  induction l as [|y l IH]; simpl; [done|].
  destruct (String.ltb _ _); [done|].
  rewrite IH. apply Permutation_swap.
Qed.

Lemma sorted_by_perm (key : A -> string) (l : list A) : sorted_by key l ≡ₚ l.
Proof.
  unfold sorted_by.
  enough (forall acc, foldl (fun acc x => insert_by key x acc) acc l ≡ₚ acc ++ l)
    as H by apply (H []).
  induction l as [|x l IH]; intros acc; simpl.
  - by rewrite app_nil_r.
  - rewrite IH, insert_by_perm. simpl. apply Permutation_middle.
Qed.

Lemma elem_of_sorted_by (key : A -> string) (l : list A) (x : A) :
  x ∈ sorted_by key l <-> x ∈ l.
Proof. by rewrite sorted_by_perm. Qed.

End Stack.

(** ** The outcome monad *)

Lemma bind_Ret {A B : Type} (m : outcome A) (k : A -> outcome B) (b : B) :
  m ≫= k = Ret b <-> exists a, m = Ret a /\ k a = Ret b.
Proof.
  destruct m; simpl; split; try done; try (by intros (? & ? & ?)).
  - eauto.
  - by intros (? & [= <-] & ?).
Qed.

(** ** Sets of files *)

Lemma elem_of_elements (s : FileSet) (f : XcFile.t) :
  f ∈ FileSet.elements s
  <-> s !! XcFile.filepath f = Some (XcFile.swift_types f, XcFile.objc_types f).
Proof.
  unfold FileSet.elements. rewrite list_elem_of_fmap. split.
  - intros ([p [sw oc]] & -> & Hin). by apply elem_of_map_to_list in Hin.
  - intros Hl. exists (XcFile.filepath f, (XcFile.swift_types f, XcFile.objc_types f)).
    split; [by destruct f|]. by apply elem_of_map_to_list.
Qed.

Lemma elements_paths (s : FileSet) (p : string) :
  p ∈ FileSet.paths s <-> exists f, f ∈ FileSet.elements s /\ XcFile.filepath f = p.
Proof.
  unfold FileSet.paths. rewrite elem_of_dom. split.
  - intros [[sw oc] Hl]. exists (XcFile.mk p sw oc). split; [|done].
    by apply elem_of_elements.
  - intros (f & Hf & <-). apply elem_of_elements in Hf. eauto.
Qed.

Lemma with_suffix_lookup (suffix : string) (s : FileSet) (p : string) (d : decls) :
  FileSet.with_suffix suffix s !! p = Some d
  <-> s !! p = Some d /\ Str.endswith p suffix = true.
Proof. unfold FileSet.with_suffix. by rewrite map_lookup_filter_Some. Qed.

Lemma with_suffix_paths (suffix : string) (s : FileSet) (p : string) :
  p ∈ FileSet.paths (FileSet.with_suffix suffix s)
  <-> p ∈ FileSet.paths s /\ Str.endswith p suffix = true.
Proof.
  unfold FileSet.paths. rewrite !elem_of_dom. unfold is_Some.
  setoid_rewrite with_suffix_lookup. naive_solver.
Qed.

Lemma foldl_union_paths {T : Type} (f : T -> FileSet) (l : list T) :
  forall (acc : FileSet) (p : string),
    p ∈ FileSet.paths (foldl (fun results x => results ∪ f x) acc l)
    <-> p ∈ FileSet.paths acc \/ exists x, x ∈ l /\ p ∈ FileSet.paths (f x).
Proof.
  unfold FileSet.paths.
  induction l as [|x l IH]; intros acc p; simpl.
  - split; [auto|]. intros [?|(x & Hx & _)]; [done|]. by apply elem_of_nil in Hx.
  - rewrite IH, dom_union, elem_of_union. setoid_rewrite elem_of_cons.
    naive_solver.
Qed.

(** ** The group graph *)

Lemma reachable_nil (σ : store) (h : ref) : ~ reachable σ [] h.
Proof. intros (g & Hg & _). by apply elem_of_nil in Hg. Qed.

Lemma reachable_app (σ : store) (l1 l2 : list ref) (h : ref) :
  reachable σ (l1 ++ l2) h <-> reachable σ l1 h \/ reachable σ l2 h.
Proof. unfold reachable. setoid_rewrite elem_of_app. naive_solver. Qed.

Lemma reachable_singleton (σ : store) (g h : ref) :
  reachable σ [g] h <-> h = g \/ reachable σ (XcGroup.groups (σ g)) h.
Proof.
  unfold reachable. split.
  - intros (g' & Hg' & Hr). apply list_elem_of_singleton in Hg' as ->.
    inversion Hr; subst; eauto.
  - intros [->|(c & Hc & Hr)]; exists g; (split; [by apply list_elem_of_singleton|]).
    + constructor.
    + by econstructor.
Qed.

Lemma ranked_app_l (σ : store) (rank : ref -> nat) (l1 l2 : list ref) :
  ranked σ rank (l1 ++ l2) -> ranked σ rank l1.
Proof. intros H g Hg. apply H. apply reachable_app. by left. Qed.

Lemma ranked_children (σ : store) (rank : ref -> nat) (l : list ref) (g : ref) :
  ranked σ rank (l ++ [g]) -> ranked σ rank (XcGroup.groups (σ g)).
Proof.
  intros H h Hh. apply H. apply reachable_app. right.
  apply reachable_singleton. by right.
Qed.

(** ** [group_files] *)

Lemma group_files_loop_nil (fuel : nat) (σ : store) (results : FileSet) :
  XcProject.group_files_loop fuel σ [] results = Ret results.
Proof. by destruct fuel. Qed.

Lemma group_files_loop_snoc (fuel : nat) (σ : store) (groups : list ref)
  (group : ref) (results : FileSet) :
  XcProject.group_files_loop (S fuel) σ (groups ++ [group]) results
  = XcProject.group_files_loop fuel σ (groups ++ XcGroup.groups (σ group))
      (results ∪ XcGroup.files (σ group)).
Proof. simpl. by rewrite pop_snoc. Qed.

Lemma group_files_loop_no_fuel (σ : store) (groups : list ref) (results r : FileSet) :
  XcProject.group_files_loop 0 σ groups results = Ret r ->
  groups = [] /\ r = results.
Proof.
  destruct groups as [|g groups _] using rev_ind; simpl.
  - by intros [= <-].
  - by rewrite pop_snoc.
Qed.

(** More fuel does not change a result. *)
Lemma group_files_loop_mono (σ : store) (fuel : nat) :
  forall (fuel' : nat) (groups : list ref) (results r : FileSet),
    XcProject.group_files_loop fuel σ groups results = Ret r ->
    fuel <= fuel' ->
    XcProject.group_files_loop fuel' σ groups results = Ret r.
Proof.
  induction fuel as [|fuel IH]; intros fuel' groups results r Hrun Hle.
  - apply group_files_loop_no_fuel in Hrun as [-> ->].
    apply group_files_loop_nil.
  - destruct groups as [|g groups _] using rev_ind.
    + rewrite group_files_loop_nil in *. done.
    + destruct fuel' as [|fuel']; [lia|].
      rewrite group_files_loop_snoc in *. apply IH; [done|lia].
Qed.

(** The loop is a stack machine: what lies under the groups being visited
    is visited afterwards. *)
Lemma group_files_loop_under (σ : store) (fuel : nat) :
  forall (fuel' : nat) (under groups : list ref) (results r r' : FileSet),
    XcProject.group_files_loop fuel σ groups results = Ret r ->
    XcProject.group_files_loop fuel' σ under r = Ret r' ->
    XcProject.group_files_loop (fuel + fuel') σ (under ++ groups) results = Ret r'.
Proof.
  induction fuel as [|fuel IH]; intros fuel' under groups results r r' Hrun Hrest.
  - apply group_files_loop_no_fuel in Hrun as [-> ->].
    by rewrite app_nil_r.
  - destruct groups as [|g groups _] using rev_ind.
    + rewrite group_files_loop_nil in Hrun. injection Hrun as <-.
      rewrite app_nil_r. eapply group_files_loop_mono; [done|lia].
    + rewrite group_files_loop_snoc in Hrun.
      rewrite app_assoc. simpl. rewrite pop_snoc, <- app_assoc.
      by eapply IH.
Qed.

(** On a ranked graph the loop ends, with the files of every group below
    the groups it started from. *)
Lemma group_files_loop_ranked (σ : store) (rank : ref -> nat) (d : nat) :
  forall (groups : list ref),
    (forall g, g ∈ groups -> rank g < d) ->
    ranked σ rank groups ->
    forall (results : FileSet),
    exists (fuel : nat) (r : FileSet),
      XcProject.group_files_loop fuel σ groups results = Ret r
      /\ results ⊆ r
      /\ forall p, p ∈ FileSet.paths r
           <-> p ∈ FileSet.paths results
               \/ exists h, reachable σ groups h
                            /\ p ∈ FileSet.paths (XcGroup.files (σ h)).
Proof.
  induction d as [|d IHd]; intros groups.
  - intros Hd _ results. destruct groups as [|g groups].
    + exists 0, results. split; [done|]. split; [done|].
      intros p. split; [auto|]. intros [?|(h & Hh & _)]; [done|].
      by apply reachable_nil in Hh.
    + assert (rank g < 0) by (apply Hd; left). lia.
  - induction groups as [|g groups IHg] using rev_ind; intros Hd Hrk results.
    + exists 0, results. split; [done|]. split; [done|].
      intros p. split; [auto|]. intros [?|(h & Hh & _)]; [done|].
      by apply reachable_nil in Hh.
    + destruct (IHd (XcGroup.groups (σ g))
                  ltac:(intros c Hc;
                        assert (rank c < rank g)
                          by (apply Hrk; [|done]; apply reachable_app; right;
                              apply reachable_singleton; by left);
                        assert (rank g < S d)
                          by (apply Hd, elem_of_app; right;
                              by apply list_elem_of_singleton);
                        lia)
                  (ranked_children _ _ _ _ Hrk)
                  (results ∪ XcGroup.files (σ g)))
        as (f1 & r1 & Hrun1 & Hsub1 & Hp1).
      destruct (IHg ltac:(intros c Hc; apply Hd, elem_of_app; by left)
                    (ranked_app_l _ _ _ _ Hrk) r1)
        as (f2 & r2 & Hrun2 & Hsub2 & Hp2).
      exists (S (f1 + f2)), r2. split; [|split].
      * rewrite group_files_loop_snoc. by eapply group_files_loop_under.
      * etrans; [|done]. etrans; [|done]. apply map_union_subseteq_l.
      * intros p. rewrite Hp2, Hp1. unfold FileSet.paths.
        rewrite dom_union, elem_of_union.
        setoid_rewrite reachable_app. setoid_rewrite reachable_singleton.
        naive_solver.
Qed.

(** C3, as stated, fails: on a project whose only group is its own child,
    no amount of fuel lets [group_files] return; each iteration pops the
    group and pushes it back. *)
Lemma group_files_runs_forever_on_cycle :
  on_cycle Examples.looping_store 0
  /\ forall fuel,
       XcProject.group_files fuel Examples.looping_store Examples.looping_project
       = OutOfFuel.
Proof.
  split.
  - exists 0. split; [by left|constructor].
  - intros fuel.
    enough (forall groups results,
              XcProject.group_files_loop fuel Examples.looping_store
                (groups ++ [0]) results = OutOfFuel) as H by apply (H []).
    induction fuel as [|fuel IH]; intros groups results.
    + simpl. by rewrite pop_snoc.
    + rewrite group_files_loop_snoc. apply IH.
Qed.

(** C3 (amended): when the groups reachable from the project's top-level
    groups form a finite graph without cycle (each group has a depth larger
    than that of its children), [group_files] returns, with any fuel from
    some amount on, and its result holds exactly the files of the reachable
    groups; [files] then returns these and the root files. *)
Theorem group_files_returns_on_ranked (σ : store) (p : XcProject.t)
  (rank : ref -> nat) (Hrk : ranked σ rank (XcProject.groups p)) :
  exists (fuel : nat) (gf fs : FileSet),
    (forall fuel', fuel <= fuel' -> XcProject.group_files fuel' σ p = Ret gf)
    /\ (forall path, path ∈ FileSet.paths gf
          <-> exists h, reachable σ (XcProject.groups p) h
                        /\ path ∈ FileSet.paths (XcGroup.files (σ h)))
    /\ (forall fuel', fuel <= fuel' -> XcProject.files fuel' σ p = Ret fs)
    /\ (forall path, path ∈ FileSet.paths fs
          <-> path ∈ FileSet.paths (XcProject.root_files p)
              \/ exists h, reachable σ (XcProject.groups p) h
                           /\ path ∈ FileSet.paths (XcGroup.files (σ h))).
Proof.
  destruct (group_files_loop_ranked σ rank (S (max_list (rank <$> XcProject.groups p)))
              (XcProject.groups p)) with (results := (∅ : FileSet))
    as (fuel & gf & Hrun & _ & Hpaths); [|done|].
  { intros g Hg. apply Nat.lt_succ_r, max_list_elem_of_le.
    apply list_elem_of_fmap. eauto. }
  assert (Hgf : forall path, path ∈ FileSet.paths gf
            <-> exists h, reachable σ (XcProject.groups p) h
                          /\ path ∈ FileSet.paths (XcGroup.files (σ h))).
  { intros path. rewrite Hpaths. unfold FileSet.paths. rewrite dom_empty.
    set_solver. }
  assert (Hall : forall fuel', fuel <= fuel' -> XcProject.group_files fuel' σ p = Ret gf).
  { intros fuel' Hle. by eapply group_files_loop_mono. }
  exists fuel, gf, (XcProject.root_files p ∪ gf). repeat split; try done.
  - by apply Hgf.
  - by apply Hgf.
  - intros fuel' Hle. unfold XcProject.files. by rewrite (Hall fuel' Hle).
  - unfold FileSet.paths in *. rewrite dom_union, elem_of_union, Hgf. tauto.
  - unfold FileSet.paths in *. rewrite dom_union, elem_of_union, Hgf. tauto.
Qed.

Lemma tree_store_ranked :
  ranked Examples.tree_store Examples.tree_rank (XcProject.groups Examples.tree_project).
Proof.
  intros g _ c Hc.
  destruct g as [|[|[|g]]]; simpl in Hc; try by apply elem_of_nil in Hc.
  apply elem_of_cons in Hc as [->|Hc]; [simpl; lia|].
  apply list_elem_of_singleton in Hc as ->. simpl. lia.
Qed.

Lemma group_files_returns_on_ranked_witness :
  exists (fuel : nat) (gf fs : FileSet),
    (forall fuel', fuel <= fuel' ->
       XcProject.group_files fuel' Examples.tree_store Examples.tree_project = Ret gf)
    /\ (forall path, path ∈ FileSet.paths gf
          <-> exists h, reachable Examples.tree_store
                          (XcProject.groups Examples.tree_project) h
                        /\ path ∈ FileSet.paths (XcGroup.files (Examples.tree_store h)))
    /\ (forall fuel', fuel <= fuel' ->
          XcProject.files fuel' Examples.tree_store Examples.tree_project = Ret fs)
    /\ (forall path, path ∈ FileSet.paths fs
          <-> path ∈ FileSet.paths (XcProject.root_files Examples.tree_project)
              \/ exists h, reachable Examples.tree_store
                             (XcProject.groups Examples.tree_project) h
                           /\ path ∈ FileSet.paths (XcGroup.files (Examples.tree_store h))).
Proof.
  exact (group_files_returns_on_ranked Examples.tree_store Examples.tree_project
           Examples.tree_rank tree_store_ranked).
Defined.

(** ** Files of targets and of the project *)

Lemma target_files_paths (t : XcTarget.t) (path : string) :
  path ∈ FileSet.paths (XcTarget.files t)
  <-> path ∈ FileSet.paths (XcTarget.source_files t)
      \/ path ∈ FileSet.paths (XcTarget.resource_files t)
      \/ path ∈ FileSet.paths (XcTarget.header_files t)
      \/ path ∈ FileSet.paths (XcTarget.linked_files t).
Proof.
  unfold XcTarget.files, FileSet.paths.
  rewrite !dom_union, !elem_of_union. tauto.
Qed.

(** C10: the paths of [XcTarget.files] are exactly the paths of the four
    buckets, and every object it holds is an object of one of the buckets:
    a file of any bucket is owned, a file of no bucket is not. *)
Theorem target_files_are_the_four_buckets (t : XcTarget.t) :
  (forall path,
     path ∈ FileSet.paths (XcTarget.files t)
     <-> path ∈ FileSet.paths (XcTarget.source_files t)
         \/ path ∈ FileSet.paths (XcTarget.resource_files t)
         \/ path ∈ FileSet.paths (XcTarget.header_files t)
         \/ path ∈ FileSet.paths (XcTarget.linked_files t))
  /\ (forall f,
        f ∈ FileSet.elements (XcTarget.files t) ->
        f ∈ FileSet.elements (XcTarget.source_files t)
        \/ f ∈ FileSet.elements (XcTarget.resource_files t)
        \/ f ∈ FileSet.elements (XcTarget.header_files t)
        \/ f ∈ FileSet.elements (XcTarget.linked_files t)).
Proof.
  split.
  - apply target_files_paths.
  - intros f. rewrite !elem_of_elements. unfold XcTarget.files.
    intros H.
    apply lookup_union_Some_raw in H as [[H|[_ H]]%lookup_union_Some_raw|[_ H]];
      [apply lookup_union_Some_raw in H as [H|[_ H]]| |]; auto.
Qed.

(** C7: two files are equal exactly when their paths are the same string,
    whatever declarations are attached to either, and equal files have
    equal hashes. *)
Theorem file_equality_is_path_equality (str_hash : string -> Z) (f g : XcFile.t) :
  (XcFile.eq f g = true <-> XcFile.filepath f = XcFile.filepath g)
  /\ (forall sw oc sw' oc',
        XcFile.eq (XcFile.mk (XcFile.filepath f) sw oc)
                  (XcFile.mk (XcFile.filepath g) sw' oc')
        = XcFile.eq f g)
  /\ (XcFile.eq f g = true -> XcFile.hash str_hash f = XcFile.hash str_hash g).
Proof.
  unfold XcFile.eq, XcFile.hash. split; [|split].
  - apply String.eqb_eq.
  - done.
  - intros H%String.eqb_eq. by rewrite H.
Qed.

(** Paths differing in case only are different files. *)
Lemma file_equality_is_case_sensitive :
  XcFile.eq (XcFile.mk "App/Foo.swift" None None)
            (XcFile.mk "App/foo.swift" None None) = false.
Proof. reflexivity. Qed.

(** C2, as stated, fails: a target may own a file that is not among
    [files]; then [target_files] and [target_less_files] together hold a
    path that [files] does not. *)
Lemma target_files_may_lie_outside_files :
  XcProject.files 0 Examples.empty_store Examples.stray_project = Ret ∅
  /\ XcProject.target_less_files 0 Examples.empty_store Examples.stray_project = Ret ∅
  /\ FileSet.paths (XcProject.target_files Examples.stray_project)
     ∪ FileSet.paths (∅ : FileSet)
     ≠ FileSet.paths (∅ : FileSet).
Proof.
  split; [by vm_compute|]. split; [by vm_compute|].
  intros H.
  assert (Hin : "Gen/a.swift" ∈ FileSet.paths (∅ : FileSet)).
  { rewrite <- H. apply elem_of_union_l. by vm_compute. }
  unfold FileSet.paths in Hin. by rewrite dom_empty in Hin.
Qed.

(** C2 (amended): [target_files] holds the files of all targets, and
    [target_less_files] is [files] without them; the two are disjoint, and
    together they hold the paths of [files] and of [target_files]; they
    partition [files] exactly when every file of a target is among
    [files]. *)
Theorem target_less_files_is_complement (fuel : nat) (σ : store) (p : XcProject.t)
  (fs : FileSet) (Hfs : XcProject.files fuel σ p = Ret fs) :
  (forall path,
     path ∈ FileSet.paths (XcProject.target_files p)
     <-> exists t, t ∈ XcProject.targets p /\ path ∈ FileSet.paths (XcTarget.files t))
  /\ exists tl : FileSet,
    XcProject.target_less_files fuel σ p = Ret tl
    /\ tl ⊆ fs
    /\ FileSet.paths tl ## FileSet.paths (XcProject.target_files p)
    /\ FileSet.paths (XcProject.target_files p) ∪ FileSet.paths tl
       = FileSet.paths fs ∪ FileSet.paths (XcProject.target_files p)
    /\ (FileSet.paths (XcProject.target_files p) ∪ FileSet.paths tl = FileSet.paths fs
        <-> FileSet.paths (XcProject.target_files p) ⊆ FileSet.paths fs).
Proof.
  split.
  { intros path. unfold XcProject.target_files. rewrite foldl_union_paths.
    unfold FileSet.paths at 1. rewrite dom_empty. set_solver. }
  exists (fs ∖ XcProject.target_files p).
  unfold XcProject.target_less_files. rewrite Hfs. simpl.
  split; [done|]. split; [apply map_subseteq_difference_l; done|].
  unfold FileSet.paths. rewrite dom_difference_L.
  set (tf := dom (XcProject.target_files p)). set (d := dom fs).
  split; [set_solver|].
  assert (Heq : tf ∪ d ∖ tf = d ∪ tf).
  { apply set_eq. intros x. rewrite !elem_of_union, elem_of_difference.
    destruct (decide (x ∈ tf)); tauto. }
  split; [done|]. rewrite Heq. set_solver.
Qed.

Lemma target_less_files_is_complement_witness :
  (forall path,
     path ∈ FileSet.paths (XcProject.target_files Examples.tree_project)
     <-> exists t, t ∈ XcProject.targets Examples.tree_project
                   /\ path ∈ FileSet.paths (XcTarget.files t))
  /\ exists tl : FileSet,
    XcProject.target_less_files 3 Examples.tree_store Examples.tree_project = Ret tl
    /\ tl ⊆ Examples.tree_files
    /\ FileSet.paths tl ## FileSet.paths (XcProject.target_files Examples.tree_project)
    /\ FileSet.paths (XcProject.target_files Examples.tree_project) ∪ FileSet.paths tl
       = FileSet.paths Examples.tree_files
         ∪ FileSet.paths (XcProject.target_files Examples.tree_project)
    /\ (FileSet.paths (XcProject.target_files Examples.tree_project) ∪ FileSet.paths tl
        = FileSet.paths Examples.tree_files
        <-> FileSet.paths (XcProject.target_files Examples.tree_project)
            ⊆ FileSet.paths Examples.tree_files).
Proof.
  apply (target_less_files_is_complement 3 Examples.tree_store Examples.tree_project).
  vm_compute. reflexivity.
Defined.

(** ** Shared files *)

Lemma target_eq_id (t1 t2 : XcTarget.t) :
  XcTarget.eq t1 t2 = true <-> XcTarget.id t1 = XcTarget.id t2.
Proof.
  unfold XcTarget.eq, XcTarget.id.
  destruct (String.eqb_spec (XcTarget.type t1) (XcTarget.type t2)),
           (String.eqb_spec (XcTarget.name t1) (XcTarget.name t2));
    simpl; split; (done || congruence).
Qed.

Lemma owns_note_target (t : XcTarget.t) (ft : gmap string (gset target_id))
  (f : XcFile.t) (path : string) (i : target_id) :
  owns (XcProjReporter.note_target t ft f) path i
  <-> owns ft path i \/ (i = XcTarget.id t /\ path = XcFile.filepath f).
Proof.
  unfold owns, XcProjReporter.note_target.
  destruct (ft !! XcFile.filepath f) as [ids0|] eqn:Hft;
    (destruct (decide (path = XcFile.filepath f)) as [->|Hne];
     [rewrite lookup_insert_eq | rewrite lookup_insert_ne by done]).
  - rewrite Hft. split.
    + intros (ids & [= <-] & Hi). apply elem_of_union in Hi as [Hi|Hi].
      * left; eauto.
      * right. by apply elem_of_singleton in Hi.
    + intros [(ids & [= <-] & Hi)|[-> _]]; eexists; (split; [done|]); set_solver.
  - naive_solver.
  - rewrite Hft. split.
    + intros (ids & [= <-] & Hi). right. by apply elem_of_singleton in Hi.
    + intros [(ids & [=] & _)|[-> _]]. eexists; (split; [done|]); set_solver.
  - naive_solver.
Qed.

Lemma owns_note_targets (t : XcTarget.t) (fl : list XcFile.t) :
  forall (ft : gmap string (gset target_id)) (path : string) (i : target_id),
    owns (foldl (XcProjReporter.note_target t) ft fl) path i
    <-> owns ft path i \/ (i = XcTarget.id t /\ path ∈ XcFile.filepath <$> fl).
Proof.
  induction fl as [|f fl IH]; intros ft path i; simpl.
  - rewrite elem_of_nil. tauto.
  - rewrite IH, owns_note_target, elem_of_cons. tauto.
Qed.

Lemma owns_file_targets (p : XcProject.t) (path : string) (i : target_id) :
  owns (XcProjReporter.file_targets p) path i
  <-> exists t, t ∈ XcProject.targets p /\ XcTarget.id t = i
                /\ path ∈ FileSet.paths (XcTarget.files t).
Proof.
  unfold XcProjReporter.file_targets.
  enough (forall l ft,
            owns (foldl (fun file_targets target =>
                           foldl (XcProjReporter.note_target target) file_targets
                                 (FileSet.elements (XcTarget.files target))) ft l)
                 path i
            <-> owns ft path i
                \/ exists t, t ∈ l /\ XcTarget.id t = i
                             /\ path ∈ FileSet.paths (XcTarget.files t)) as H.
  { rewrite H. unfold owns at 1. setoid_rewrite lookup_empty. naive_solver. }
  induction l as [|t l IH]; intros ft; simpl.
  - setoid_rewrite elem_of_nil. naive_solver.
  - rewrite IH, owns_note_targets. setoid_rewrite elem_of_cons.
    rewrite list_elem_of_fmap. setoid_rewrite elements_paths. naive_solver.
Qed.

Lemma two_elements (X : gset target_id) :
  2 <= size X <-> exists i j, i ∈ X /\ j ∈ X /\ i ≠ j.
Proof.
  split.
  - intros Hsz.
    destruct (size_pos_elem_of X) as [i Hi]; [lia|].
    destruct (size_pos_elem_of (X ∖ {[ i ]})) as [j Hj].
    { rewrite size_difference by set_solver. rewrite size_singleton. lia. }
    exists i, j. set_solver.
  - intros (i & j & Hi & Hj & Hne).
    trans (size ({[ i; j ]} : gset target_id)).
    + rewrite size_union by set_solver. by rewrite !size_singleton.
    + apply subseteq_size. set_solver.
Qed.

(** C8: [print_shared_files] prints a path exactly when two targets that
    differ under [XcTarget.__eq__], that is in (type, name), each hold a file
    with that path in one of their four buckets. *)
Theorem shared_files_have_two_owners (p : XcProject.t) (path : string) :
  path ∈ (fst <$> XcProjReporter.print_shared_files p)
  <-> exists t1 t2,
        t1 ∈ XcProject.targets p /\ t2 ∈ XcProject.targets p
        /\ XcTarget.eq t1 t2 = false
        /\ (path ∈ FileSet.paths (XcTarget.source_files t1)
            \/ path ∈ FileSet.paths (XcTarget.resource_files t1)
            \/ path ∈ FileSet.paths (XcTarget.header_files t1)
            \/ path ∈ FileSet.paths (XcTarget.linked_files t1))
        /\ (path ∈ FileSet.paths (XcTarget.source_files t2)
            \/ path ∈ FileSet.paths (XcTarget.resource_files t2)
            \/ path ∈ FileSet.paths (XcTarget.header_files t2)
            \/ path ∈ FileSet.paths (XcTarget.linked_files t2)).
Proof.
  unfold XcProjReporter.print_shared_files.
  rewrite sorted_by_perm, list_elem_of_fmap.
  setoid_rewrite <- target_files_paths.
  split.
  - intros ([path' ids] & -> & Hin). simpl.
    apply elem_of_map_to_list, map_lookup_filter_Some in Hin as [Hft Hsz].
    simpl in Hsz. apply two_elements in Hsz as (i & j & Hi & Hj & Hne).
    assert (Hoi : owns (XcProjReporter.file_targets p) path' i) by (exists ids; done).
    assert (Hoj : owns (XcProjReporter.file_targets p) path' j) by (exists ids; done).
    apply owns_file_targets in Hoi as (t1 & Ht1 & <- & Hp1).
    apply owns_file_targets in Hoj as (t2 & Ht2 & <- & Hp2).
    exists t1, t2. repeat split; try done.
    destruct (XcTarget.eq t1 t2) eqn:Heq; [|done].
    by apply target_eq_id in Heq.
  - intros (t1 & t2 & Ht1 & Ht2 & Hne & Hp1 & Hp2).
    assert (Hoi : owns (XcProjReporter.file_targets p) path (XcTarget.id t1)).
    { apply owns_file_targets. eauto. }
    assert (Hoj : owns (XcProjReporter.file_targets p) path (XcTarget.id t2)).
    { apply owns_file_targets. eauto. }
    destruct Hoi as (ids & Hft & Hi), Hoj as (ids' & Hft' & Hj).
    rewrite Hft in Hft'. injection Hft' as <-.
    exists (path, ids). split; [done|].
    apply elem_of_map_to_list, map_lookup_filter_Some. split; [done|]. simpl.
    apply two_elements. exists (XcTarget.id t1), (XcTarget.id t2).
    repeat split; try done.
    intros Heq%target_eq_id. congruence.
Qed.

(** ** Swift types by kind *)

Lemma foldl_app_concat {A : Type} (ls : list (list A)) :
  forall acc, foldl (fun results l => results ++ l) acc ls = acc ++ mjoin ls.
Proof.
  induction ls as [|l ls IH]; intros acc; simpl.
  - by rewrite app_nil_r.
  - by rewrite IH, app_assoc.
Qed.

Lemma grouping_lookup (types : gset SwiftTypeType.t) (sts : list SwiftType.t) :
  forall (acc : gmap SwiftTypeType.t (list SwiftType.t)) (k : SwiftTypeType.t),
    dom acc ⊆ types ->
    foldl (fun grouped swift_type =>
             if bool_decide (SwiftType.type_identifier swift_type ∉ types)
             then grouped
             else alter (fun l => l ++ [swift_type])
                        (SwiftType.type_identifier swift_type) grouped)
          acc sts !! k
    = (fun l => l ++ of_kind k sts) <$> acc !! k.
Proof.
  unfold of_kind.
  induction sts as [|d sts IH]; intros acc k Hdom.
  - simpl. destruct (acc !! k); simpl; [|done]. by rewrite app_nil_r.
  - rewrite filter_cons. cbn [foldl]. case_bool_decide as Hin.
    + rewrite IH by done. destruct (decide _) as [Hk|Hk]; [|done].
      subst k. rewrite (proj1 (not_elem_of_dom acc _)); [done|]. set_solver.
    + rewrite IH by (rewrite dom_alter; done).
      destruct (decide _) as [Hk|Hk].
      * subst k. rewrite lookup_alter_eq.
        destruct (acc !! _); simpl; [|done]. by rewrite <- app_assoc.
      * by rewrite lookup_alter_ne.
Qed.

Lemma swift_types_grouped_spec (p : XcProject.t)
  (type_in type_not_in : gset SwiftTypeType.t) (sts : list SwiftType.t) :
  XcProject.swift_types p = Ret sts ->
  exists grouped,
    XcProject.swift_types_grouped p type_in type_not_in = Ret grouped
    /\ dom grouped = XcProject.kept_types type_in type_not_in
    /\ forall k, grouped !! k
         = if bool_decide (k ∈ XcProject.kept_types type_in type_not_in)
           then Some (of_kind k sts) else None.
Proof.
  intros Hsts. unfold XcProject.swift_types_grouped. rewrite Hsts. simpl.
  eexists. split; [done|].
  set (types := XcProject.kept_types type_in type_not_in).
  assert (Hl : forall k,
    foldl (fun grouped swift_type =>
             if bool_decide (SwiftType.type_identifier swift_type ∉ types)
             then grouped
             else alter (fun l => l ++ [swift_type])
                        (SwiftType.type_identifier swift_type) grouped)
          (gset_to_gmap [] types) sts !! k
    = if bool_decide (k ∈ types) then Some (of_kind k sts) else None).
  { intros k. rewrite grouping_lookup by (by rewrite dom_gset_to_gmap).
    rewrite lookup_gset_to_gmap. case_bool_decide.
    - by rewrite option_guard_True.
    - by rewrite option_guard_False. }
  split; [|done].
  apply set_eq. intros k. rewrite elem_of_dom, Hl.
  case_bool_decide; split; (done || by intros []).
Qed.

Lemma swift_types_flat_spec (p : XcProject.t)
  (type_in type_not_in : gset SwiftTypeType.t) (sts : list SwiftType.t) :
  XcProject.swift_types p = Ret sts ->
  exists results,
    XcProject.swift_types_flat p type_in type_not_in = Ret results
    /\ forall d, d ∈ results
         <-> d ∈ sts
             /\ SwiftType.type_identifier d ∈ XcProject.kept_types type_in type_not_in.
Proof.
  intros Hsts.
  destruct (swift_types_grouped_spec p type_in type_not_in sts Hsts)
    as (grouped & Hg & _ & Hl).
  unfold XcProject.swift_types_flat. rewrite Hg. simpl.
  eexists. split; [done|]. intros d.
  rewrite foldl_app_concat. simpl. rewrite list_elem_of_join. split.
  - intros (l & Hd & Hin). apply list_elem_of_fmap in Hin as ([k l'] & -> & Hin).
    apply elem_of_map_to_list in Hin. rewrite Hl in Hin. simpl in *.
    case_bool_decide; [|done]. injection Hin as <-.
    unfold of_kind in Hd. apply list_elem_of_filter in Hd as [Hk Hd].
    by subst k.
  - intros [Hd Hk]. exists (of_kind (SwiftType.type_identifier d) sts). split.
    + by apply list_elem_of_filter.
    + apply list_elem_of_fmap.
      exists (SwiftType.type_identifier d, of_kind (SwiftType.type_identifier d) sts).
      split; [done|]. apply elem_of_map_to_list. rewrite Hl.
      by rewrite bool_decide_true.
Qed.

(** C9: in [XcProject.swift_types_filtered], a non-empty [type_not_in] makes
    the result cover the kinds of [SwiftTypeType.ALL] outside [type_not_in],
    whatever [type_in] is; an empty one makes it cover the kinds of
    [type_in].  The dict returned has these kinds as keys, each with the
    project's Swift types of that kind in order; the flat list holds the
    project's Swift types of these kinds. *)
Theorem type_not_in_has_priority (p : XcProject.t)
  (type_in type_not_in : gset SwiftTypeType.t) (sts : list SwiftType.t)
  (Hsts : XcProject.swift_types p = Ret sts) :
  exists grouped results,
    XcProject.swift_types_filtered p type_in type_not_in false = Ret (XcProject.Grouped grouped)
    /\ XcProject.swift_types_filtered p type_in type_not_in true = Ret (XcProject.Flat results)
    /\ (type_not_in ≠ ∅ ->
        dom grouped = SwiftTypeType.ALL ∖ type_not_in
        /\ forall type_in' flat,
             XcProject.swift_types_filtered p type_in' type_not_in flat
             = XcProject.swift_types_filtered p type_in type_not_in flat)
    /\ (type_not_in = ∅ -> dom grouped = type_in)
    /\ (forall k, k ∈ dom grouped -> grouped !! k = Some (of_kind k sts))
    /\ (forall d, d ∈ results
          <-> d ∈ sts /\ SwiftType.type_identifier d ∈ dom grouped).
Proof.
  destruct (swift_types_grouped_spec p type_in type_not_in sts Hsts)
    as (grouped & Hg & Hdom & Hl).
  destruct (swift_types_flat_spec p type_in type_not_in sts Hsts)
    as (results & Hf & Hres).
  exists grouped, results.
  assert (Hprio : type_not_in ≠ ∅ -> forall type_in' flat,
            XcProject.swift_types_filtered p type_in' type_not_in flat
            = XcProject.swift_types_filtered p type_in type_not_in flat).
  { intros Hne type_in' flat.
    unfold XcProject.swift_types_filtered, XcProject.swift_types_flat,
      XcProject.swift_types_grouped, XcProject.kept_types.
    by rewrite !bool_decide_true. }
  split; [|split; [|split; [|split; [|split]]]].
  - unfold XcProject.swift_types_filtered. by rewrite Hg.
  - unfold XcProject.swift_types_filtered. by rewrite Hf.
  - intros Hne. split; [|by apply Hprio].
    rewrite Hdom. unfold XcProject.kept_types. by rewrite bool_decide_true.
  - intros ->. rewrite Hdom. unfold XcProject.kept_types.
    by rewrite bool_decide_false by (intros H; by apply H).
  - intros k Hk. rewrite Hl. rewrite Hdom in Hk. by rewrite bool_decide_true.
  - intros d. by rewrite Hres, Hdom.
Qed.

(** ** Duplicate and missing Objective-C file names *)

Lemma split_slash_last (s : string) :
  exists pre w, Str.split_slash s = pre ++ [w] /\ Str.split_slash w = [w].
Proof.
  induction s as [|c s (pre & w & Hs & Hw)]; [by exists [], ""|].
  simpl. rewrite Hs. destruct (Ascii.eqb c "/") eqn:Hc.
  - by exists ("" :: pre), w.
  - destruct pre as [|x pre]; simpl.
    + exists [], (String c w). split; [done|]. simpl. by rewrite Hc, Hw.
    + by exists (String c x :: pre), w.
Qed.

Lemma filename_of_filename (s : string) :
  Str.last_part (Str.split_slash (Str.last_part (Str.split_slash s)))
  = Str.last_part (Str.split_slash s).
Proof.
  unfold Str.last_part.
  destruct (split_slash_last s) as (pre & w & -> & Hw).
  by rewrite last_last, Hw.
Qed.

Lemma see_objc_file_filename (st : XcProjReporter.names_seen) (f : XcFile.t) :
  XcProjReporter.see_objc_file st f = see_filename st (XcFile.filename f).
Proof.
  unfold see_filename, XcProjReporter.see_objc_file, XcFile.filename. simpl.
  by rewrite filename_of_filename.
Qed.

Lemma foldl_see_objc_file (l : list XcFile.t) :
  forall st, foldl XcProjReporter.see_objc_file st l
             = foldl see_filename st (XcFile.filename <$> l).
Proof.
  induction l as [|f l IH]; intros st; simpl; [done|].
  by rewrite see_objc_file_filename, IH.
Qed.

Lemma names_seen_eq (d1 d2 h1 h2 d1' d2' h1' h2' : gset string) :
  d1 = d1' -> d2 = d2' -> h1 = h1' -> h2 = h2' ->
  XcProjReporter.mk_names d1 d2 h1 h2 = XcProjReporter.mk_names d1' d2' h1' h2'.
Proof. by intros -> -> -> ->. Qed.

(** Visiting two files in either order leaves the same four sets. *)
Lemma see_filename_comm (st : XcProjReporter.names_seen) (a b : string) :
  see_filename (see_filename st a) b = see_filename (see_filename st b) a.
Proof.
  unfold see_filename, XcProjReporter.see_objc_file. simpl.
  set (fa := Str.last_part (Str.split_slash a)).
  set (fb := Str.last_part (Str.split_slash b)).
  destruct st as [dh dm h m].
  destruct (Str.endswith fa ".h"), (Str.endswith fa ".m"),
           (Str.endswith fb ".h"), (Str.endswith fb ".m");
    simpl; try done;
    apply names_seen_eq; try done;
    repeat case_bool_decide; set_solver.
Qed.

Lemma foldl_see_filename_perm (l1 l2 : list string) :
  l1 ≡ₚ l2 -> forall st, foldl see_filename st l1 = foldl see_filename st l2.
Proof.
  induction 1 as [|x l1 l2 _ IH|x y l|l1 l2 l3 _ IH1 _ IH2]; intros st; simpl.
  - done.
  - apply IH.
  - by rewrite see_filename_comm.
  - by rewrite IH1.
Qed.

(** The report depends on the files visited, not on the order of the
    visit. *)
Lemma missing_objc_files_perm (l1 l2 : list XcFile.t) :
  XcFile.filename <$> l1 ≡ₚ XcFile.filename <$> l2 ->
  XcProjReporter.missing_objc_files l1 = XcProjReporter.missing_objc_files l2.
Proof.
  intros Hp. unfold XcProjReporter.missing_objc_files.
  by rewrite !foldl_see_objc_file, (foldl_see_filename_perm _ _ Hp).
Qed.

(** C6: when the Objective-C files of a project are named A.h, A.m, B.h,
    B.m and, in a second file, B.h again, [print_missing_objc_files] reports
    the one duplicate header name B, no duplicate implementation name and no
    missing name, in whatever order the files are visited. *)
Theorem one_duplicate_header_no_missing (fuel : nat) (σ : store)
  (p : XcProject.t) (fs : FileSet)
  (Hfs : XcProject.objc_files fuel σ p = Ret fs)
  (Hnames : XcFile.filename <$> FileSet.elements fs
            ≡ₚ ["A.h"; "A.m"; "B.h"; "B.m"; "B.h"]) :
  XcProjReporter.print_missing_objc_files fuel σ p
  = Ret (XcProjReporter.mk_report ["B"] [] [] [])
  /\ forall visited,
       visited ≡ₚ FileSet.elements fs ->
       XcProjReporter.missing_objc_files visited
       = XcProjReporter.mk_report ["B"] [] [] [].
Proof.
  assert (Hrep : forall visited,
            XcFile.filename <$> visited ≡ₚ ["A.h"; "A.m"; "B.h"; "B.m"; "B.h"] ->
            XcProjReporter.missing_objc_files visited
            = XcProjReporter.mk_report ["B"] [] [] []).
  { intros visited Hv.
    rewrite (missing_objc_files_perm visited
               ((fun n => XcFile.mk n None None)
                  <$> ["A.h"; "A.m"; "B.h"; "B.m"; "B.h"])).
    - by vm_compute.
    - by rewrite Hv. }
  split.
  - unfold XcProjReporter.print_missing_objc_files. rewrite Hfs. simpl.
    by rewrite Hrep.
  - intros visited Hv. apply Hrep. by rewrite Hv.
Qed.

Lemma one_duplicate_header_no_missing_witness :
  XcProjReporter.print_missing_objc_files 0 Examples.empty_store
    Examples.paired_project
  = Ret (XcProjReporter.mk_report ["B"] [] [] [])
  /\ forall visited,
       visited ≡ₚ FileSet.elements Examples.paired_objc_files ->
       XcProjReporter.missing_objc_files visited
       = XcProjReporter.mk_report ["B"] [] [] [].
Proof.
  apply (one_duplicate_header_no_missing 0 Examples.empty_store
           Examples.paired_project Examples.paired_objc_files).
  - vm_compute. reflexivity.
  - apply (bool_decide_unpack _). vm_compute. exact I.
Defined.

(** ** The extension scope classifier *)

Section Filters.
Context {A B : Type}.

Lemma filter_fmap_pair (b : B) (Q : B * A -> Prop) `{!forall x, Decision (Q x)}
  (l : list A) :
  snd <$> filter Q ((fun a => (b, a)) <$> l) = filter (fun a => Q (b, a)) l.
Proof.
  induction l as [|a l IH]; [done|].
  rewrite fmap_cons, !filter_cons.
  destruct (decide (Q (b, a))); rewrite ?fmap_cons, IH; done.
Qed.

Lemma filter_fmap_snd (P : A -> Prop) `{!forall x, Decision (P x)}
  (l : list (B * A)) :
  filter P (snd <$> l) = snd <$> filter (fun x => P x.2) l.
Proof.
  induction l as [|x l IH]; [done|].
  rewrite fmap_cons, !filter_cons.
  destruct (decide (P x.2)); rewrite ?fmap_cons, IH; done.
Qed.

End Filters.

(** Collecting the declarations of files, as [swift_types] and [objc_types]
    do, returns when every file has declarations attached. *)
Lemma collect_attached {A : Type} (get : XcFile.t -> option (list A))
  (files : list XcFile.t) :
  forall (acc r : list A),
    for_each (fun results f => ts ← attached (get f); mret (results ++ ts))
             acc files = Ret r
    <-> Forall (fun f => is_Some (get f)) files
        /\ r = acc ++ (files ≫= fun f => default [] (get f)).
Proof.
  induction files as [|f files IH]; intros acc r; simpl.
  - rewrite app_nil_r. split; [by intros [= <-]|by intros [_ ->]].
  - rewrite Forall_cons. destruct (get f) as [ts|]; simpl.
    + rewrite IH, <- app_assoc. split; [intros [? ->]|intros [[_ ?] ->]]; eauto.
    + split; [done|]. by intros [[[] ?] _].
Qed.

Lemma extensions_of_bind (files : list XcFile.t) :
  extensions_of (files ≫= declared_in)
  = snd <$> extension_occurrences_of files.
Proof.
  unfold extension_occurrences_of, extensions_of.
  induction files as [|f files IH]; [done|].
  rewrite !bind_cons, filter_app, fmap_app, IH. f_equal.
  rewrite <- list_fmap_compose. by rewrite list_fmap_id.
Qed.

Lemma swift_types_filtered_non_extension (f : XcFile.t) (ts : list SwiftType.t) :
  XcFile.swift_types f = Some ts ->
  SwiftType.name <$>
    filter (fun d => SwiftType.type_identifier d ∉ ({[ SwiftTypeType.EXTENSION ]} : gset _)) ts
  = non_extension_names (declared_in f).
Proof.
  intros Hts. unfold non_extension_names, declared_in. rewrite Hts. simpl.
  f_equal. apply list_filter_iff. set_solver.
Qed.

Lemma file_scope_step_spec (f : XcFile.t) (ts : list SwiftType.t)
  (Hts : XcFile.swift_types f = Some ts)
  (acc : list SwiftType.t * list SwiftType.t) (e : SwiftType.t) :
  XcProject.file_scope_step f acc e
  = Ret (if decide (file_rule (f, e)) then (acc.1 ++ [e], acc.2)
         else (acc.1, acc.2 ++ [e])).
Proof.
  unfold XcProject.file_scope_step, XcFile.swift_types_filtered.
  rewrite Hts. simpl. rewrite (swift_types_filtered_non_extension f ts Hts).
  unfold file_rule. simpl. case_bool_decide.
  - by rewrite decide_True.
  - by rewrite decide_False.
Qed.

Lemma file_scope_loop (f : XcFile.t) (ts : list SwiftType.t)
  (Hts : XcFile.swift_types f = Some ts) (exts : list SwiftType.t) :
  forall acc,
    for_each (XcProject.file_scope_step f) acc exts
    = Ret (acc.1 ++ filter (fun e => file_rule (f, e)) exts,
           acc.2 ++ filter (fun e => ~ file_rule (f, e)) exts).
Proof.
  induction exts as [|e exts IH]; intros [fs rem].
  - simpl. by rewrite !app_nil_r.
  - cbn [for_each]. rewrite (file_scope_step_spec f ts Hts). simpl.
    rewrite !filter_cons.
    destruct (decide (file_rule (f, e))) as [He|He]; rewrite IH; simpl.
    + rewrite decide_False by tauto. by rewrite <- app_assoc.
    + rewrite decide_True by tauto. by rewrite <- app_assoc.
Qed.

Lemma split_file_scoped_spec (f : XcFile.t) (ts : list SwiftType.t)
  (Hts : XcFile.swift_types f = Some ts)
  (acc : list SwiftType.t * list SwiftType.t) :
  XcProject.split_file_scoped acc f
  = Ret (acc.1 ++ filter (fun e => file_rule (f, e)) (extensions_of ts),
         acc.2 ++ filter (fun e => ~ file_rule (f, e)) (extensions_of ts)).
Proof.
  unfold XcProject.split_file_scoped, XcFile.swift_extensions.
  rewrite Hts. simpl. exact (file_scope_loop f ts Hts _ acc).
Qed.

Lemma first_loop (files : list XcFile.t) :
  Forall (fun f => is_Some (XcFile.swift_types f)) files ->
  forall acc,
    for_each XcProject.split_file_scoped acc files
    = Ret (acc.1 ++ (snd <$> filter file_rule (extension_occurrences_of files)),
           acc.2 ++ (snd <$> filter (fun occ => ~ file_rule occ)
                                    (extension_occurrences_of files))).
Proof.
  unfold extension_occurrences_of.
  induction 1 as [|f files [ts Hts] _ IH]; intros [fs rem].
  - simpl. by rewrite !app_nil_r.
  - cbn [for_each]. rewrite (split_file_scoped_spec f ts Hts). simpl.
    rewrite IH. simpl. rewrite !filter_app, !fmap_app, !filter_fmap_pair.
    unfold declared_in. rewrite Hts. simpl.
    by rewrite <- !app_assoc.
Qed.

Lemma second_loop (objc_type_names swift_type_names : list string)
  (l : list SwiftType.t) :
  forall acc,
    foldl (XcProject.project_scope_step objc_type_names swift_type_names) acc l
    = (acc.1.1 ++ filter (fun e => SwiftType.name e ∈ objc_type_names) l,
       acc.1.2 ++ filter (fun e => (SwiftType.name e ∉ objc_type_names)
                                   /\ SwiftType.name e ∈ swift_type_names) l,
       acc.2 ++ filter (fun e => (SwiftType.name e ∉ objc_type_names)
                                 /\ SwiftType.name e ∉ swift_type_names) l).
Proof.
  induction l as [|e l IH]; intros [[o s] u]; simpl.
  - by rewrite !app_nil_r.
  - rewrite !filter_cons.
    repeat case_bool_decide; rewrite IH; simpl;
      repeat (destruct (decide _); try tauto); by rewrite <- ?app_assoc.
Qed.

Lemma kept_without_extension (k : SwiftTypeType.t) :
  k ∈ XcProject.kept_types SwiftTypeType.ALL {[ SwiftTypeType.EXTENSION ]}
  <-> k ≠ SwiftTypeType.EXTENSION.
Proof.
  unfold XcProject.kept_types. rewrite bool_decide_true by set_solver.
  unfold SwiftTypeType.ALL. destruct k; set_solver.
Qed.

Lemma scope_by_rules_names (on sn sn' : list string) (occ : XcFile.t * SwiftType.t) :
  (forall n, n ∈ sn <-> n ∈ sn') ->
  scope_by_rules on sn occ = scope_by_rules on sn' occ.
Proof.
  intros H. unfold scope_by_rules.
  by rewrite (bool_decide_ext _ _ (H (SwiftType.name occ.2))).
Qed.

(** The four lists of [swift_extensions_grouped_by_scope] are the
    extensions of the project's Swift files, each under the scope that the
    rules give it. *)
Lemma grouped_by_scope_spec (fuel : nat) (σ : store) (p : XcProject.t)
  (sts : list SwiftType.t) (ots : list ObjcType.t) :
  XcProject.swift_types p = Ret sts ->
  XcProject.objc_types fuel σ p = Ret ots ->
  exists g,
    XcProject.swift_extensions_grouped_by_scope fuel σ p = Ret g
    /\ forall s,
         XcProject.scoped g s
         = with_scope (ObjcType.name <$> ots) (non_extension_names sts) s
                      (extension_occurrences p).
Proof.
  intros Hsts Hots.
  destruct (swift_types_flat_spec p SwiftTypeType.ALL {[ SwiftTypeType.EXTENSION ]}
              sts Hsts) as (flat & Hflat & Hin).
  assert (Hnames : forall n, n ∈ SwiftType.name <$> flat <-> n ∈ non_extension_names sts).
  { intros n. unfold non_extension_names. rewrite !list_elem_of_fmap.
    setoid_rewrite list_elem_of_filter. setoid_rewrite Hin.
    setoid_rewrite kept_without_extension. naive_solver. }
  apply collect_attached in Hsts as [Hall _].
  unfold XcProject.swift_extensions_grouped_by_scope.
  rewrite (first_loop _ Hall). simpl. rewrite Hots. simpl. rewrite Hflat. simpl.
  rewrite while_pop_foldl, rev_involutive, second_loop. simpl.
  eexists. split; [done|].
  fold (extension_occurrences p).
  intros s. unfold with_scope.
  destruct s; simpl; rewrite ?filter_fmap_snd, ?list_filter_filter; f_equal;
    apply list_filter_iff; intros occ;
    rewrite <- (scope_by_rules_names _ _ _ occ Hnames); unfold scope_by_rules;
    repeat case_bool_decide; naive_solver.
Qed.

(** The rules give every extension one scope: the four lists together hold
    each extension once. *)
Lemma four_way_partition (on sn : list string)
  (occs : list (XcFile.t * SwiftType.t)) :
  snd <$> occs
  ≡ₚ with_scope on sn SwiftExtensionScope.FILE occs
     ++ with_scope on sn SwiftExtensionScope.PROJECT_OBJC occs
     ++ with_scope on sn SwiftExtensionScope.PROJECT_SWIFT occs
     ++ with_scope on sn SwiftExtensionScope.OUTER occs.
Proof.
  unfold with_scope. induction occs as [|occ occs IH]; [done|].
  rewrite fmap_cons, !filter_cons, IH.
  destruct (scope_by_rules on sn occ);
    repeat (destruct (decide _); try done); rewrite ?fmap_cons;
    solve_Permutation.
Qed.

(** In [mixed_project] the extension of Foo next to class Foo is file
    scoped although Objective-C declares a Foo as well; the extension of Foo
    in the other Swift file goes to the Objective-C Foo, not to the Swift
    one. *)
Lemma mixed_project_scopes :
  XcProject.swift_extensions_grouped_by_scope 0 Examples.empty_store
    Examples.mixed_project
  = Ret (XcProject.mk_by_scope
           [Examples.extension_ "Foo"]
           [Examples.extension_ "Legacy"; Examples.extension_ "Foo"]
           [Examples.extension_ "Bar"]
           [Examples.extension_ "String"]).
Proof. vm_compute. reflexivity. Qed.

Lemma type_not_in_has_priority_witness :
  exists grouped results,
    XcProject.swift_types_filtered Examples.mixed_project
      {[ SwiftTypeType.PROTOCOL ]}
      {[ SwiftTypeType.EXTENSION; SwiftTypeType.CLASS ]} false
    = Ret (XcProject.Grouped grouped)
    /\ XcProject.swift_types_filtered Examples.mixed_project
         {[ SwiftTypeType.PROTOCOL ]}
         {[ SwiftTypeType.EXTENSION; SwiftTypeType.CLASS ]} true
       = Ret (XcProject.Flat results)
    /\ (({[ SwiftTypeType.EXTENSION; SwiftTypeType.CLASS ]} : gset SwiftTypeType.t) ≠ ∅ ->
        dom grouped
        = SwiftTypeType.ALL ∖ {[ SwiftTypeType.EXTENSION; SwiftTypeType.CLASS ]}
        /\ forall type_in' flat,
             XcProject.swift_types_filtered Examples.mixed_project type_in'
               {[ SwiftTypeType.EXTENSION; SwiftTypeType.CLASS ]} flat
             = XcProject.swift_types_filtered Examples.mixed_project
                 {[ SwiftTypeType.PROTOCOL ]}
                 {[ SwiftTypeType.EXTENSION; SwiftTypeType.CLASS ]} flat)
    /\ (({[ SwiftTypeType.EXTENSION; SwiftTypeType.CLASS ]} : gset SwiftTypeType.t) = ∅ ->
        dom grouped = {[ SwiftTypeType.PROTOCOL ]})
    /\ (forall k, k ∈ dom grouped ->
          grouped !! k = Some (of_kind k Examples.mixed_swift_types))
    /\ (forall d, d ∈ results
          <-> d ∈ Examples.mixed_swift_types
              /\ SwiftType.type_identifier d ∈ dom grouped).
Proof.
  apply (type_not_in_has_priority Examples.mixed_project).
  vm_compute. reflexivity.
Defined.

(** ** The Objective-C inventory *)

(** What [objc_files] holds: the [.h] header files and [.m] source files of
    targets, and the [.h] files of the project that no target owns. *)
Lemma objc_files_paths (fuel : nat) (σ : store) (p : XcProject.t) (ofs : FileSet) :
  XcProject.objc_files fuel σ p = Ret ofs ->
  exists pf,
    XcProject.files fuel σ p = Ret pf
    /\ forall path,
         path ∈ FileSet.paths ofs
         <-> (exists t, t ∈ XcProject.targets p
                /\ ((path ∈ FileSet.paths (XcTarget.header_files t)
                     /\ Str.endswith path ".h" = true)
                    \/ (path ∈ FileSet.paths (XcTarget.source_files t)
                        /\ Str.endswith path ".m" = true)))
             \/ (path ∈ FileSet.paths pf
                 /\ (path ∉ FileSet.paths (XcProject.target_files p))
                 /\ Str.endswith path ".h" = true).
Proof.
  unfold XcProject.objc_files, XcProject.target_less_h_files,
    XcProject.target_less_files.
  destruct (XcProject.files fuel σ p) as [pf| |]; simpl; [|done..].
  intros [= <-]. exists pf. split; [done|]. intros path.
  unfold FileSet.paths at 1. rewrite dom_union, elem_of_union.
  fold (FileSet.paths (FileSet.with_suffix ".h" (pf ∖ XcProject.target_files p))).
  match goal with |- context [dom (foldl ?f ∅ ?l)] =>
    change (dom (foldl f ∅ l)) with (FileSet.paths (foldl f ∅ l)) end.
  rewrite foldl_union_paths, with_suffix_paths.
  unfold XcProject.targets_sorted_by_name. setoid_rewrite elem_of_sorted_by.
  unfold XcTarget.objc_files, XcTarget.h_files, XcTarget.m_files.
  unfold FileSet.paths at 1 2 3. rewrite dom_empty, dom_difference, elem_of_difference.
  setoid_rewrite dom_union. setoid_rewrite elem_of_union.
  assert (Hws : forall suffix s q,
            q ∈ dom (FileSet.with_suffix suffix s)
            <-> q ∈ FileSet.paths s /\ Str.endswith q suffix = true)
    by (intros; apply with_suffix_paths).
  setoid_rewrite Hws. unfold FileSet.paths. set_solver.
Qed.


(** On a ranked group graph, once declarations are attached to the
    project's Swift files and Objective-C files, both inventories are
    computed, with any fuel from some amount on. *)
Lemma inventories_return (σ : store) (p : XcProject.t) (rank : ref -> nat) :
  ranked σ rank (XcProject.groups p) ->
  Forall (fun f => is_Some (XcFile.swift_types f))
         (FileSet.elements (XcProject.swift_files p)) ->
  (forall fuel ofs,
     XcProject.objc_files fuel σ p = Ret ofs ->
     Forall (fun f => is_Some (XcFile.objc_types f)) (FileSet.elements ofs)) ->
  exists fuel sts ots,
    XcProject.swift_types p = Ret sts
    /\ forall fuel', fuel <= fuel' -> XcProject.objc_types fuel' σ p = Ret ots.
Proof.
  intros Hrk Hsw Hoc.
  destruct (group_files_loop_ranked σ rank (S (max_list (rank <$> XcProject.groups p)))
              (XcProject.groups p)) with (results := (∅ : FileSet))
    as (fuel & gf & Hrun & _ & _); [|done|].
  { intros g Hg. apply Nat.lt_succ_r, max_list_elem_of_le.
    apply list_elem_of_fmap. eauto. }
  assert (Hofs : forall fuel', fuel <= fuel' -> exists ofs,
            XcProject.objc_files fuel' σ p = Ret ofs
            /\ XcProject.objc_files fuel σ p = Ret ofs).
  { intros fuel' Hle.
    unfold XcProject.objc_files, XcProject.target_less_h_files,
      XcProject.target_less_files, XcProject.files, XcProject.group_files.
    rewrite Hrun, (group_files_loop_mono _ _ _ _ _ _ Hrun Hle). simpl. eauto. }
  destruct (Hofs fuel (Nat.le_refl _)) as (ofs & Hofs0 & _).
  exists fuel. eexists. eexists. split.
  - apply collect_attached. split; [done|reflexivity].
  - intros fuel' Hle. destruct (Hofs fuel' Hle) as (ofs' & Hofs' & Hofs'').
    rewrite Hofs0 in Hofs''. injection Hofs'' as <-.
    unfold XcProject.objc_types. rewrite Hofs'. simpl.
    apply collect_attached. split; [by eapply Hoc|reflexivity].
Qed.

(** ** The classifier returns *)

Lemma by_scope_ext (g g' : XcProject.by_scope) :
  (forall s, XcProject.scoped g s = XcProject.scoped g' s) -> g = g'.
Proof.
  intros H. destruct g, g'.
  pose proof (H SwiftExtensionScope.FILE).
  pose proof (H SwiftExtensionScope.PROJECT_OBJC).
  pose proof (H SwiftExtensionScope.PROJECT_SWIFT).
  pose proof (H SwiftExtensionScope.OUTER).
  simpl in *. congruence.
Qed.

(** On a group graph without cycle, once declarations are attached, the
    classifier returns, with any fuel from some amount on, the four lists
    that the rules give. *)
Lemma classification_returns (σ : store) (p : XcProject.t) (rank : ref -> nat) :
  ranked σ rank (XcProject.groups p) ->
  declarations_attached σ p ->
  exists fuel sts ots g,
    XcProject.swift_types p = Ret sts
    /\ (forall fuel', fuel <= fuel' ->
          XcProject.objc_types fuel' σ p = Ret ots
          /\ XcProject.swift_extensions_grouped_by_scope fuel' σ p = Ret g)
    /\ forall s,
         XcProject.scoped g s
         = with_scope (ObjcType.name <$> ots) (non_extension_names sts) s
                      (extension_occurrences p).
Proof.
  intros Hrk [Hsw Hoc].
  destruct (inventories_return σ p rank Hrk Hsw Hoc) as (fuel & sts & ots & Hsts & Hots).
  destruct (grouped_by_scope_spec fuel σ p sts ots Hsts (Hots fuel (Nat.le_refl _)))
    as (g & Hg & Hs).
  exists fuel, sts, ots, g. split; [done|]. split; [|done].
  intros fuel' Hle. split; [by apply Hots|].
  destruct (grouped_by_scope_spec fuel' σ p sts ots Hsts (Hots fuel' Hle))
    as (g' & Hg' & Hs').
  rewrite Hg'. f_equal. apply by_scope_ext. intros s. by rewrite Hs, Hs'.
Qed.

Lemma looping_store_no_return (fuel : nat) :
  forall groups results,
    XcProject.group_files_loop fuel Examples.looping_store (groups ++ [0]) results
    = OutOfFuel.
Proof.
  induction fuel as [|fuel IH]; intros groups results.
  - simpl. by rewrite pop_snoc.
  - rewrite group_files_loop_snoc. apply IH.
Qed.

Lemma objc_files_mono (σ : store) (p : XcProject.t) (fuel fuel' : nat)
  (ofs : FileSet) :
  XcProject.objc_files fuel σ p = Ret ofs ->
  fuel <= fuel' ->
  XcProject.objc_files fuel' σ p = Ret ofs.
Proof.
  unfold XcProject.objc_files, XcProject.target_less_h_files,
    XcProject.target_less_files, XcProject.files, XcProject.group_files.
  intros Hrun Hle.
  destruct (XcProject.group_files_loop fuel σ (XcProject.groups p) ∅)
    as [gf| |] eqn:Hgf; [|done..].
  by rewrite (group_files_loop_mono _ _ _ _ _ _ Hgf Hle).
Qed.

Lemma legacy_store_ranked :
  ranked Examples.legacy_store Examples.legacy_rank
         (XcProject.groups Examples.legacy_project).
Proof.
  intros g _ c Hc.
  destruct g as [|[|g]]; simpl in Hc; try by apply elem_of_nil in Hc.
  apply list_elem_of_singleton in Hc as ->. simpl. lia.
Qed.

Lemma legacy_declarations_attached :
  declarations_attached Examples.legacy_store Examples.legacy_project.
Proof.
  split.
  - vm_compute. repeat econstructor.
  - intros fuel ofs Hrun.
    destruct fuel as [|[|fuel]]; [vm_compute in Hrun; discriminate..|].
    assert (H2 : XcProject.objc_files 2 Examples.legacy_store
                   Examples.legacy_project
                 = Ret {[ "App/Legacy/Foo.h"
                          := (None, Some [Examples.objc_class "Foo"]) ]})
      by (vm_compute; reflexivity).
    apply (objc_files_mono _ _ 2 (S (S fuel))) in H2; [|lia].
    rewrite H2 in Hrun. injection Hrun as <-.
    vm_compute. repeat econstructor.
Qed.

(** C1, as stated, fails: a project whose only group is its own child has
    an extension among its Swift types, and no amount of fuel lets
    [swift_extensions_grouped_by_scope] return: the extension receives no
    scope. *)
Lemma classification_runs_forever_on_cycle :
  on_cycle Examples.looping_store 0
  /\ XcProject.swift_types Examples.looping_app_project
     = Ret [Examples.extension_ "Foo"]
  /\ forall fuel,
       XcProject.swift_extensions_grouped_by_scope fuel Examples.looping_store
         Examples.looping_app_project
       = OutOfFuel.
Proof.
  split; [exists 0; split; [by left|constructor]|].
  split; [vm_compute; reflexivity|].
  intros fuel. unfold XcProject.swift_extensions_grouped_by_scope.
  rewrite first_loop by (vm_compute; repeat econstructor).
  unfold XcProject.objc_types, XcProject.objc_files,
    XcProject.target_less_h_files, XcProject.target_less_files,
    XcProject.files, XcProject.group_files.
  change (XcProject.groups Examples.looping_app_project) with ([] ++ [0]).
  by rewrite looping_store_no_return.
Qed.

(** C1 (amended): for every project whose group graph has no cycle and
    whose Swift and Objective-C files have their declarations attached,
    [swift_extensions_grouped_by_scope] returns, with any fuel from some
    amount on, four lists in which every extension declaration of the
    project's Swift types appears once, under the scope that the ordered
    rules give it: file when its own file declares a type of that name
    (whatever Objective-C declares), else project Objective-C, else project
    Swift, else outer. *)
Theorem extension_scopes_total_and_ordered (σ : store) (p : XcProject.t)
  (rank : ref -> nat)
  (Hrk : ranked σ rank (XcProject.groups p))
  (Hat : declarations_attached σ p) :
  exists fuel sts ots g,
    XcProject.swift_types p = Ret sts
    /\ (forall fuel', fuel <= fuel' ->
          XcProject.objc_types fuel' σ p = Ret ots
          /\ XcProject.swift_extensions_grouped_by_scope fuel' σ p = Ret g)
    /\ (forall s,
          XcProject.scoped g s
          = with_scope (ObjcType.name <$> ots) (non_extension_names sts) s
                       (extension_occurrences p))
    /\ extensions_of sts
       ≡ₚ XcProject.scoped g SwiftExtensionScope.FILE
          ++ XcProject.scoped g SwiftExtensionScope.PROJECT_OBJC
          ++ XcProject.scoped g SwiftExtensionScope.PROJECT_SWIFT
          ++ XcProject.scoped g SwiftExtensionScope.OUTER.
Proof.
  destruct (classification_returns σ p rank Hrk Hat)
    as (fuel & sts & ots & g & Hsts & Hrun & Hs).
  exists fuel, sts, ots, g. repeat (split; [done|]).
  rewrite !Hs, <- four_way_partition.
  apply collect_attached in Hsts as [_ ->].
  unfold extension_occurrences. by rewrite <- extensions_of_bind.
Qed.

Lemma extension_scopes_total_and_ordered_witness :
  exists fuel sts ots g,
    XcProject.swift_types Examples.legacy_project = Ret sts
    /\ (forall fuel', fuel <= fuel' ->
          XcProject.objc_types fuel' Examples.legacy_store
            Examples.legacy_project = Ret ots
          /\ XcProject.swift_extensions_grouped_by_scope fuel'
               Examples.legacy_store Examples.legacy_project = Ret g)
    /\ (forall s,
          XcProject.scoped g s
          = with_scope (ObjcType.name <$> ots) (non_extension_names sts) s
                       (extension_occurrences Examples.legacy_project))
    /\ extensions_of sts
       ≡ₚ XcProject.scoped g SwiftExtensionScope.FILE
          ++ XcProject.scoped g SwiftExtensionScope.PROJECT_OBJC
          ++ XcProject.scoped g SwiftExtensionScope.PROJECT_SWIFT
          ++ XcProject.scoped g SwiftExtensionScope.OUTER.
Proof.
  apply (extension_scopes_total_and_ordered Examples.legacy_store
           Examples.legacy_project Examples.legacy_rank).
  - apply legacy_store_ranked.
  - apply legacy_declarations_attached.
Defined.

(** In [legacy_project] the header of group 1, which no target owns, is
    consulted: the extension of Foo is classified project Objective-C and
    the extension of Array outer. *)
Lemma legacy_project_scopes :
  XcProject.swift_extensions_grouped_by_scope 2 Examples.legacy_store
    Examples.legacy_project
  = Ret (XcProject.mk_by_scope [] [Examples.extension_ "Foo"] []
           [Examples.extension_ "Array"]).
Proof. vm_compute. reflexivity. Qed.




(** In [orphan_header_project] the header that no target owns is consulted:
    the extension of Foo is classified project Objective-C. *)
Lemma target_less_header_is_consulted :
  XcProject.swift_extensions_grouped_by_scope 0 Examples.empty_store
    Examples.orphan_header_project
  = Ret (XcProject.mk_by_scope [] [Examples.extension_ "Foo"] [] []).
Proof. vm_compute. reflexivity. Qed.

(** ** The scenario of two Swift files *)

Lemma foldl_union_lookup {T : Type} (f : T -> FileSet) (l : list T) :
  forall (acc : FileSet) (path : string) (d : decls),
    foldl (fun results x => results ∪ f x) acc l !! path = Some d ->
    acc !! path = Some d \/ exists x, x ∈ l /\ f x !! path = Some d.
Proof.
  induction l as [|x l IH]; intros acc path d; simpl; [by left|].
  intros [Hacc|(y & Hy & Hl)]%IH.
  - apply lookup_union_Some_raw in Hacc as [?|[_ ?]]; [by left|].
    right. exists x. split; [by left|done].
  - right. exists y. split; [by right|done].
Qed.

(** The file that the project reads at the path of a Swift file that a
    target owns is that file. *)
Lemma owned_swift_file_read (p : XcProject.t) (t : XcTarget.t) (f : XcFile.t) :
  owns_swift_file p t f -> f ∈ FileSet.elements (XcProject.swift_files p).
Proof.
  intros (Ht & Hf & Hsame).
  assert (Hin : XcFile.filepath f ∈ FileSet.paths (XcProject.swift_files p)).
  { unfold XcProject.swift_files. apply foldl_union_paths. right.
    exists t. split.
    - unfold XcProject.targets_sorted_by_name. by apply elem_of_sorted_by.
    - apply elements_paths. by exists f. }
  apply elements_paths in Hin as (f' & Hf' & Hpath).
  enough (f' = f) by congruence.
  apply elem_of_elements in Hf'. unfold XcProject.swift_files in Hf'.
  apply foldl_union_lookup in Hf' as [Hempty|(t' & Ht' & Hl)];
    [by rewrite lookup_empty in Hempty|].
  unfold XcProject.targets_sorted_by_name in Ht'.
  apply elem_of_sorted_by in Ht'.
  apply (Hsame t' f' Ht'); [|done]. by apply elem_of_elements.
Qed.

Lemma owns_swift_file_single (p : XcProject.t) (t : XcTarget.t) (f : XcFile.t) :
  XcProject.targets p = [t] ->
  f ∈ FileSet.elements (XcTarget.swift_files t) ->
  owns_swift_file p t f.
Proof.
  intros Hp Hf. unfold owns_swift_file. rewrite Hp.
  split; [by left|]. split; [done|].
  intros t' f' ->%list_elem_of_singleton Hf' Hpath.
  apply elem_of_elements in Hf, Hf'. rewrite Hpath, Hf in Hf'.
  destruct f, f'. simpl in *. congruence.
Qed.

Lemma elem_of_extension_occurrences (files : list XcFile.t) (f : XcFile.t)
  (e : SwiftType.t) :
  (f, e) ∈ extension_occurrences_of files
  <-> f ∈ files /\ e ∈ extensions_of (declared_in f).
Proof.
  unfold extension_occurrences_of. rewrite list_elem_of_bind.
  setoid_rewrite list_elem_of_fmap. split.
  - intros (f' & (e' & [= <- <-] & He) & Hf). done.
  - intros [Hf He]. exists f. split; [|done]. by exists e.
Qed.

Lemma elem_of_non_extension_names (files : list XcFile.t) (n : string) :
  n ∈ non_extension_names (files ≫= declared_in)
  <-> exists f, f ∈ files /\ n ∈ non_extension_names (declared_in f).
Proof.
  unfold non_extension_names. rewrite list_elem_of_fmap.
  setoid_rewrite list_elem_of_filter. setoid_rewrite list_elem_of_bind.
  setoid_rewrite list_elem_of_fmap. setoid_rewrite list_elem_of_filter.
  naive_solver.
Qed.

Lemma elem_of_with_scope (on sn : list string) (s : SwiftExtensionScope.t)
  (occs : list (XcFile.t * SwiftType.t)) (e : SwiftType.t) :
  e ∈ with_scope on sn s occs
  <-> exists f, (f, e) ∈ occs /\ scope_by_rules on sn (f, e) = s.
Proof.
  unfold with_scope. rewrite list_elem_of_fmap.
  setoid_rewrite list_elem_of_filter. split.
  - intros ([f e'] & -> & Hs & Hin). by exists f.
  - intros (f & Hin & Hs). by exists (f, e).
Qed.


Lemma ranked_nil (σ : store) (rank : ref -> nat) : ranked σ rank [].
Proof. intros g Hg. by apply reachable_nil in Hg. Qed.

Lemma scenario_declarations_attached (with_foo : bool) :
  declarations_attached Examples.empty_store
    (Examples.scenario "Foo.swift" "Bar.swift" SwiftTypeType.CLASS with_foo).
Proof.
  split.
  - destruct with_foo; vm_compute; repeat econstructor.
  - intros fuel ofs Hrun.
    destruct with_foo, fuel; vm_compute in Hrun; injection Hrun as <-;
      vm_compute; constructor.
Qed.

Lemma scenario_no_objc_type (with_foo : bool) (n : string) :
  no_objc_type_named Examples.empty_store
    (Examples.scenario "Foo.swift" "Bar.swift" SwiftTypeType.CLASS with_foo) n.
Proof.
  intros fuel ots Hrun.
  destruct with_foo, fuel; vm_compute in Hrun; injection Hrun as <-;
    apply not_elem_of_nil.
Qed.

(** C4: target App owns the Swift file Foo, declaring a type named Foo
    that is not an extension, and the Swift file Bar, declaring an
    extension of Foo and no type of that name; nothing in Objective-C is
    named Foo.  Then the classifier returns and the extension is among the
    project Swift extensions, and neither among the project Objective-C nor
    among the outer ones.  In a project where the target still owns Bar and
    no declaration other than an extension is named Foo anywhere, the
    classifier returns and the extension is among the outer extensions and
    in no other list. *)
Theorem scenario_project_swift_then_outer
  (σ σ' : store) (p p' : XcProject.t) (rank rank' : ref -> nat)
  (app app' : XcTarget.t) (foo_file bar_file : XcFile.t) (e : SwiftType.t)
  (Hrk : ranked σ rank (XcProject.groups p))
  (Hat : declarations_attached σ p)
  (Hfoo : owns_swift_file p app foo_file)
  (Hbar : owns_swift_file p app bar_file)
  (Hdecl : SwiftType.name e ∈ non_extension_names (declared_in foo_file))
  (He : e ∈ extensions_of (declared_in bar_file))
  (Hext : SwiftType.name e ∉ non_extension_names (declared_in bar_file))
  (Hobjc : no_objc_type_named σ p (SwiftType.name e))
  (Hrk' : ranked σ' rank' (XcProject.groups p'))
  (Hat' : declarations_attached σ' p')
  (Hbar' : owns_swift_file p' app' bar_file)
  (Hnone : forall f, f ∈ FileSet.elements (XcProject.swift_files p') ->
             SwiftType.name e ∉ non_extension_names (declared_in f))
  (Hobjc' : no_objc_type_named σ' p' (SwiftType.name e)) :
  exists fuel g g',
    (forall fuel', fuel <= fuel' ->
       XcProject.swift_extensions_grouped_by_scope fuel' σ p = Ret g
       /\ XcProject.swift_extensions_grouped_by_scope fuel' σ' p' = Ret g')
    /\ e ∈ XcProject.scoped g SwiftExtensionScope.PROJECT_SWIFT
    /\ (e ∉ XcProject.scoped g SwiftExtensionScope.PROJECT_OBJC)
    /\ (e ∉ XcProject.scoped g SwiftExtensionScope.OUTER)
    /\ e ∈ XcProject.scoped g' SwiftExtensionScope.OUTER
    /\ (e ∉ XcProject.scoped g' SwiftExtensionScope.FILE)
    /\ (e ∉ XcProject.scoped g' SwiftExtensionScope.PROJECT_OBJC)
    /\ (e ∉ XcProject.scoped g' SwiftExtensionScope.PROJECT_SWIFT).
Proof.
  destruct (classification_returns σ p rank Hrk Hat)
    as (fuel & sts & ots & g & Hsts & Hrun & Hs).
  destruct (classification_returns σ' p' rank' Hrk' Hat')
    as (fuel' & sts' & ots' & g' & Hsts' & Hrun' & Hs').
  apply collect_attached in Hsts as [_ ->], Hsts' as [_ ->]. simpl in Hs, Hs'.
  fold declared_in in Hs, Hs'.
  change (fun f : XcFile.t => declared_in f) with declared_in in Hs, Hs'.
  pose proof (Hobjc fuel ots (proj1 (Hrun fuel (Nat.le_refl _)))) as Hno.
  pose proof (Hobjc' fuel' ots' (proj1 (Hrun' fuel' (Nat.le_refl _)))) as Hno'.
  assert (Hsw : SwiftType.name e
            ∈ non_extension_names
                (FileSet.elements (XcProject.swift_files p) ≫= declared_in)).
  { apply elem_of_non_extension_names. exists foo_file.
    split; [by eapply owned_swift_file_read|done]. }
  assert (Hsw' : SwiftType.name e
            ∉ non_extension_names
                (FileSet.elements (XcProject.swift_files p') ≫= declared_in)).
  { intros (f & Hf & Hn)%elem_of_non_extension_names. by apply (Hnone f). }
  exists (fuel `max` fuel'), g, g'. split; [|rewrite !Hs, !Hs'; repeat split].
  - intros k Hk. split; [apply Hrun|apply Hrun']; lia.
  - apply elem_of_with_scope. exists bar_file. split.
    + apply elem_of_extension_occurrences.
      split; [by eapply owned_swift_file_read|done].
    + unfold scope_by_rules, file_rule. simpl.
      by rewrite (bool_decide_eq_false_2 _ Hext), (bool_decide_eq_false_2 _ Hno),
        (bool_decide_eq_true_2 _ Hsw).
  - intros (f & _ & Hscope)%elem_of_with_scope. revert Hscope.
    unfold scope_by_rules. simpl. rewrite (bool_decide_eq_false_2 _ Hno).
    by repeat case_bool_decide.
  - intros (f & _ & Hscope)%elem_of_with_scope. revert Hscope.
    unfold scope_by_rules. simpl.
    rewrite (bool_decide_eq_false_2 _ Hno), (bool_decide_eq_true_2 _ Hsw).
    by case_bool_decide.
  - apply elem_of_with_scope. exists bar_file. split.
    + apply elem_of_extension_occurrences.
      split; [by eapply owned_swift_file_read|done].
    + unfold scope_by_rules, file_rule. simpl.
      rewrite (bool_decide_eq_false_2 _ Hno'), (bool_decide_eq_false_2 _ Hsw').
      rewrite bool_decide_eq_false_2; [done|].
      apply Hnone. by eapply owned_swift_file_read.
  - intros (f & [Hf _]%elem_of_extension_occurrences & Hscope)%elem_of_with_scope.
    revert Hscope. unfold scope_by_rules, file_rule. simpl.
    rewrite (bool_decide_eq_false_2 _ (Hnone f Hf)).
    by repeat case_bool_decide.
  - intros (f & _ & Hscope)%elem_of_with_scope. revert Hscope.
    unfold scope_by_rules. simpl. rewrite (bool_decide_eq_false_2 _ Hno').
    by repeat case_bool_decide.
  - intros (f & _ & Hscope)%elem_of_with_scope. revert Hscope.
    unfold scope_by_rules. simpl.
    rewrite (bool_decide_eq_false_2 _ Hno'), (bool_decide_eq_false_2 _ Hsw').
    by case_bool_decide.
Qed.

Lemma scenario_project_swift_then_outer_witness :
  exists fuel g g',
    (forall fuel', fuel <= fuel' ->
       XcProject.swift_extensions_grouped_by_scope fuel' Examples.empty_store
         (Examples.scenario "Foo.swift" "Bar.swift" SwiftTypeType.CLASS true)
       = Ret g
       /\ XcProject.swift_extensions_grouped_by_scope fuel' Examples.empty_store
            (Examples.scenario "Foo.swift" "Bar.swift" SwiftTypeType.CLASS false)
          = Ret g')
    /\ Examples.extension_ "Foo"
       ∈ XcProject.scoped g SwiftExtensionScope.PROJECT_SWIFT
    /\ (Examples.extension_ "Foo"
        ∉ XcProject.scoped g SwiftExtensionScope.PROJECT_OBJC)
    /\ (Examples.extension_ "Foo" ∉ XcProject.scoped g SwiftExtensionScope.OUTER)
    /\ Examples.extension_ "Foo" ∈ XcProject.scoped g' SwiftExtensionScope.OUTER
    /\ (Examples.extension_ "Foo" ∉ XcProject.scoped g' SwiftExtensionScope.FILE)
    /\ (Examples.extension_ "Foo"
        ∉ XcProject.scoped g' SwiftExtensionScope.PROJECT_OBJC)
    /\ (Examples.extension_ "Foo"
        ∉ XcProject.scoped g' SwiftExtensionScope.PROJECT_SWIFT).
Proof.
  apply (scenario_project_swift_then_outer
           Examples.empty_store Examples.empty_store
           (Examples.scenario "Foo.swift" "Bar.swift" SwiftTypeType.CLASS true)
           (Examples.scenario "Foo.swift" "Bar.swift" SwiftTypeType.CLASS false)
           (fun _ => 0) (fun _ => 0)
           (Examples.target_of "App" XcTarget.Type_.APPLICATION
              {[ "Foo.swift" := (Some [Examples.class_ "Foo"], None);
                 "Bar.swift" := (Some [Examples.extension_ "Foo"], None) ]})
           (Examples.target_of "App" XcTarget.Type_.APPLICATION
              {[ "Bar.swift" := (Some [Examples.extension_ "Foo"], None) ]})
           (XcFile.mk "Foo.swift" (Some [Examples.class_ "Foo"]) None)
           (XcFile.mk "Bar.swift" (Some [Examples.extension_ "Foo"]) None)).
  - apply ranked_nil.
  - apply scenario_declarations_attached.
  - apply owns_swift_file_single; [reflexivity|].
    apply elem_of_elements. vm_compute. reflexivity.
  - apply owns_swift_file_single; [reflexivity|].
    apply elem_of_elements. vm_compute. reflexivity.
  - apply (bool_decide_unpack _). vm_compute. exact I.
  - apply (bool_decide_unpack _). vm_compute. exact I.
  - apply (bool_decide_unpack _). vm_compute. exact I.
  - apply scenario_no_objc_type.
  - apply ranked_nil.
  - apply scenario_declarations_attached.
  - apply owns_swift_file_single; [reflexivity|].
    apply elem_of_elements. vm_compute. reflexivity.
  - intros f Hf.
    assert (Hfiles : FileSet.elements
              (XcProject.swift_files
                 (Examples.scenario "Foo.swift" "Bar.swift" SwiftTypeType.CLASS false))
            = [XcFile.mk "Bar.swift" (Some [Examples.extension_ "Foo"]) None])
      by (vm_compute; reflexivity).
    rewrite Hfiles in Hf. apply list_elem_of_singleton in Hf as ->.
    apply (bool_decide_unpack _). vm_compute. exact I.
  - apply scenario_no_objc_type.
Defined.

(** With [Foo.swift] the extension is the only project Swift extension;
    without it, the only outer one. *)
Lemma scenario_project_scopes (fuel : nat) :
  XcProject.swift_extensions_grouped_by_scope fuel Examples.empty_store
    (Examples.scenario "Foo.swift" "Bar.swift" SwiftTypeType.CLASS true)
  = Ret (XcProject.mk_by_scope [] [] [Examples.extension_ "Foo"] [])
  /\ XcProject.swift_extensions_grouped_by_scope fuel Examples.empty_store
       (Examples.scenario "Foo.swift" "Bar.swift" SwiftTypeType.CLASS false)
     = Ret (XcProject.mk_by_scope [] [] [] [Examples.extension_ "Foo"]).
Proof. destruct fuel; split; vm_compute; reflexivity. Qed.

(** * Further properties of the code *)

(** ** The traversals of the group graph *)

Section Walk.
Context {S : Type} (σ : store) (descend : ref -> bool) (visit : S -> ref -> S).

Lemma walk_loop_nil (fuel : nat) (s : S) :
  walk_loop fuel σ descend visit [] s = Ret s.
Proof. by destruct fuel. Qed.

Lemma walk_loop_snoc (fuel : nat) (groups : list ref) (group : ref) (s : S) :
  walk_loop (Datatypes.S fuel) σ descend visit (groups ++ [group]) s
  = walk_loop fuel σ descend visit
      (if descend group then groups ++ XcGroup.groups (σ group) else groups)
      (visit s group).
Proof. simpl. by rewrite pop_snoc. Qed.

Lemma walk_loop_no_fuel (groups : list ref) (s r : S) :
  walk_loop 0 σ descend visit groups s = Ret r -> groups = [] /\ r = s.
Proof.
  destruct groups as [|g groups _] using rev_ind; simpl.
  - by intros [= <-].
  - by rewrite pop_snoc.
Qed.

Lemma walk_loop_never_raises (fuel : nat) :
  forall (groups : list ref) (s : S),
    walk_loop fuel σ descend visit groups s <> TypeError.
Proof.
  induction fuel as [|fuel IH]; intros groups s;
    destruct groups as [|g groups _] using rev_ind;
    rewrite ?walk_loop_nil, ?walk_loop_snoc; try done.
  simpl. by rewrite pop_snoc.
Qed.

Lemma walk_loop_mono (fuel : nat) :
  forall (fuel' : nat) (groups : list ref) (s r : S),
    walk_loop fuel σ descend visit groups s = Ret r ->
    fuel <= fuel' ->
    walk_loop fuel' σ descend visit groups s = Ret r.
Proof.
  induction fuel as [|fuel IH]; intros fuel' groups s r Hrun Hle.
  - apply walk_loop_no_fuel in Hrun as [-> ->]. apply walk_loop_nil.
  - destruct groups as [|g groups _] using rev_ind.
    + rewrite walk_loop_nil in *. done.
    + destruct fuel' as [|fuel']; [lia|].
      rewrite walk_loop_snoc in *. apply IH; [done|lia].
Qed.

Lemma walk_loop_under (fuel : nat) :
  forall (fuel' : nat) (under groups : list ref) (s r r' : S),
    walk_loop fuel σ descend visit groups s = Ret r ->
    walk_loop fuel' σ descend visit under r = Ret r' ->
    walk_loop (fuel + fuel') σ descend visit (under ++ groups) s = Ret r'.
Proof.
  induction fuel as [|fuel IH]; intros fuel' under groups s r r' Hrun Hrest.
  - apply walk_loop_no_fuel in Hrun as [-> ->]. by rewrite app_nil_r.
  - destruct groups as [|g groups _] using rev_ind.
    + rewrite walk_loop_nil in Hrun. injection Hrun as <-.
      rewrite app_nil_r. eapply walk_loop_mono; [done|lia].
    + rewrite walk_loop_snoc in Hrun.
      rewrite app_assoc. simpl. rewrite pop_snoc.
      destruct (descend g); rewrite <- ?app_assoc; by eapply IH.
Qed.

(** On a ranked graph every traversal ends. *)
Lemma walk_loop_ranked (rank : ref -> nat) (d : nat) :
  forall (groups : list ref),
    (forall g, g ∈ groups -> rank g < d) ->
    ranked σ rank groups ->
    forall (s : S), exists (fuel : nat) (r : S),
      walk_loop fuel σ descend visit groups s = Ret r.
Proof.
  induction d as [|d IHd]; intros groups.
  - intros Hd _ s. destruct groups as [|g groups].
    + exists 0, s. done.
    + assert (rank g < 0) by (apply Hd; left). lia.
  - induction groups as [|g groups IHg] using rev_ind; intros Hd Hrk s.
    + by exists 0, s.
    + destruct (IHd (XcGroup.groups (σ g))
                  ltac:(intros c Hc;
                        assert (rank c < rank g)
                          by (apply Hrk; [|done]; apply reachable_app; right;
                              apply reachable_singleton; by left);
                        assert (rank g < Datatypes.S d)
                          by (apply Hd, elem_of_app; right;
                              by apply list_elem_of_singleton);
                        lia)
                  (ranked_children _ _ _ _ Hrk)
                  (visit s g))
        as (f1 & r1 & Hrun1).
      destruct (descend g) eqn:Hdesc.
      * destruct (IHg ltac:(intros c Hc; apply Hd, elem_of_app; by left)
                      (ranked_app_l _ _ _ _ Hrk) r1)
          as (f2 & r2 & Hrun2).
        exists (Datatypes.S (f1 + f2)), r2.
        rewrite walk_loop_snoc, Hdesc. by eapply walk_loop_under.
      * destruct (IHg ltac:(intros c Hc; apply Hd, elem_of_app; by left)
                      (ranked_app_l _ _ _ _ Hrk) (visit s g))
          as (f2 & r2 & Hrun2).
        exists (Datatypes.S f2), r2. by rewrite walk_loop_snoc, Hdesc.
Qed.

End Walk.

(** A traversal is a fold over the groups in the order of the visit. *)
Lemma walk_loop_fold {S : Type} (σ : store) (descend : ref -> bool)
  (visit : S -> ref -> S) (s0 : S) (fuel : nat) :
  forall (groups order : list ref),
    walk_loop fuel σ descend visit groups (foldl visit s0 order)
    = foldl visit s0
        <$> walk_loop fuel σ descend (fun order group => order ++ [group])
              groups order.
Proof.
  induction fuel as [|fuel IH]; intros groups order;
    destruct groups as [|g groups _] using rev_ind.
  - done.
  - simpl. by rewrite !pop_snoc.
  - by rewrite !walk_loop_nil.
  - rewrite !walk_loop_snoc, <- IH. by rewrite foldl_snoc.
Qed.


Lemma walk_order_elements (σ : store) (descend : ref -> bool) (fuel : nat) :
  forall (groups order r : list ref),
    walk_loop fuel σ descend (fun order group => order ++ [group]) groups order
    = Ret r ->
    forall h, h ∈ r
      <-> h ∈ order \/ exists g, g ∈ groups /\ reaches_through σ descend g h.
Proof.
  induction fuel as [|fuel IH]; intros groups order r Hrun h.
  - apply walk_loop_no_fuel in Hrun as [-> ->].
    split; [auto|]. intros [?|(g & Hg & _)]; [done|]. by apply elem_of_nil in Hg.
  - destruct groups as [|g0 groups _] using rev_ind.
    + rewrite walk_loop_nil in Hrun. injection Hrun as <-.
      split; [auto|]. intros [?|(g & Hg & _)]; [done|]. by apply elem_of_nil in Hg.
    + rewrite walk_loop_snoc in Hrun. rewrite (IH _ _ _ Hrun).
      rewrite elem_of_app, list_elem_of_singleton.
      setoid_rewrite elem_of_app. split.
      * intros [[? | ->] | (g & Hg & Hr)]; [by left| |].
        -- right. exists g0. split; [right; by apply list_elem_of_singleton|constructor].
        -- destruct (descend g0) eqn:Hdesc.
           ++ apply elem_of_app in Hg as [Hg|Hg].
              ** right. exists g. split; [by left|done].
              ** right. exists g0.
                 split; [right; by apply list_elem_of_singleton|by econstructor].
           ++ right. exists g. split; [by left|done].
      * intros [?|(g & [Hg|Hg] & Hr)]; [by left; left| |].
        -- right. exists g. split; [|done].
           destruct (descend g0); [apply elem_of_app|]; auto.
        -- apply list_elem_of_singleton in Hg as ->.
           inversion Hr as [|? c ? Hdesc Hc Hr']; subst; [by left; right|].
           right. exists c. split; [|done]. rewrite Hdesc. apply elem_of_app. auto.
Qed.

Lemma outcome_fmap_compose {A B C : Type} (f : A -> B) (g : B -> C) (m : outcome A) :
  g <$> (f <$> m) = (fun a => g (f a)) <$> m.
Proof. by destruct m. Qed.

Lemma outcome_fmap_ext {A B : Type} (f g : A -> B) (m : outcome A) :
  (forall a, f a = g a) -> f <$> m = g <$> m.
Proof. intros H. destruct m; simpl; by rewrite ?H. Qed.

Lemma outcome_fmap_Ret {A B : Type} (f : A -> B) (m : outcome A) (b : B) :
  f <$> m = Ret b <-> exists a, m = Ret a /\ f a = b.
Proof.
  destruct m; simpl; split; try done; try (by intros (? & ? & ?)).
  - intros [= <-]. eauto.
  - by intros (? & [= <-] & <-).
Qed.

Lemma filter_all {A : Type} (P : A -> Prop) `{!forall x, Decision (P x)}
  (l : list A) :
  (forall x, P x) -> filter P l = l.
Proof.
  intros HP. induction l as [|x l IH]; [done|].
  by rewrite filter_cons_True, IH.
Qed.

Lemma group_files_loop_walk (σ : store) (fuel : nat) :
  forall groups results,
    XcProject.group_files_loop fuel σ groups results
    = walk_loop fuel σ (fun _ => true)
        (fun results group => results ∪ XcGroup.files (σ group)) groups results.
Proof.
  induction fuel as [|fuel IH]; intros groups results; simpl;
    destruct (pop groups) as [[g groups']|]; auto.
Qed.

Lemma groups_filtered_loop_walk (σ : store) (filter_mode : option string)
  (fuel : nat) :
  forall remaining results,
    XcProject.groups_filtered_loop fuel σ filter_mode remaining results
    = walk_loop fuel σ (fun _ => true)
        (fun results group =>
           if XcProject.group_passes filter_mode (σ group)
           then results ++ [group] else results)
        remaining results.
Proof.
  induction fuel as [|fuel IH]; intros remaining results; simpl;
    destruct (pop remaining) as [[g remaining']|]; auto.
Qed.

Lemma nonregular_files_loop_walk (σ : store) (fuel : nat) :
  forall groups results,
    XcProject.nonregular_files_loop fuel σ groups results
    = walk_loop fuel σ (fun group => negb (XcGroup.is_variant (σ group)))
        (fun results group =>
           if XcGroup.is_variant (σ group) then results
           else results ++ nonregular_of σ group)
        groups results.
Proof.
  induction fuel as [|fuel IH]; intros groups results; simpl;
    destruct (pop groups) as [[g groups']|]; auto.
  destruct (XcGroup.is_variant (σ g)); auto.
Qed.

Lemma foldl_snoc_if (passes : ref -> bool) (l : list ref) :
  forall acc,
    foldl (fun results group => if passes group then results ++ [group] else results)
          acc l
    = acc ++ filter (fun g => passes g = true) l.
Proof.
  induction l as [|g l IH]; intros acc; simpl.
  - by rewrite app_nil_r.
  - rewrite IH, filter_cons. destruct (passes g).
    + rewrite decide_True by done. by rewrite <- app_assoc.
    + by rewrite decide_False by done.
Qed.

Lemma reaches_through_all (σ : store) (g h : ref) :
  reaches_through σ (fun _ => true) g h <-> reaches σ g h.
Proof.
  split; induction 1; try constructor; by econstructor.
Qed.

Lemma reaches_regular_through (σ : store) (g h : ref) :
  reaches_regular σ g h
  <-> reaches_through σ (fun g => negb (XcGroup.is_variant (σ g))) g h
      /\ XcGroup.is_variant (σ h) = false.
Proof.
  split.
  - induction 1 as [g Hg|g c h Hg Hc _ [IH1 IH2]].
    + split; [constructor|done].
    + split; [|done]. econstructor; [by rewrite Hg|done..].
  - intros [Hr Hh]. induction Hr as [g|g c h Hg Hc _ IH].
    + by constructor.
    + apply negb_true_iff in Hg. econstructor; eauto.
Qed.

(** The groups that [groups_filtered] lists, in its order, for a mode that
    keeps every group. *)
Lemma groups_filtered_order (fuel : nat) (σ : store) (p : XcProject.t)
  (filter_mode : option string) :
  XcProject.groups_filtered fuel σ p filter_mode
  = filter (fun g => XcProject.group_passes filter_mode (σ g) = true)
      <$> walk_order fuel σ (fun _ => true) (XcProject.groups p).
Proof.
  unfold XcProject.groups_filtered, walk_order.
  rewrite groups_filtered_loop_walk.
  rewrite (walk_loop_fold σ (fun _ => true)
             (fun results group =>
                if XcProject.group_passes filter_mode (σ group)
                then results ++ [group] else results) [] fuel _ []).
  apply outcome_fmap_ext. intros order. by rewrite foldl_snoc_if.
Qed.

(** X1: whatever the mode, [groups_filtered] returns the groups that the
    unfiltered call returns, in the same order, less those that fail the
    test of the mode; it returns when the unfiltered call does. *)
Theorem groups_filtered_filters_all_groups (fuel : nat) (σ : store)
  (p : XcProject.t) (filter_mode : option string) :
  XcProject.groups_filtered fuel σ p filter_mode
  = filter (fun g => XcProject.group_passes filter_mode (σ g) = true)
      <$> XcProject.groups_filtered fuel σ p None.
Proof.
  rewrite (groups_filtered_order fuel σ p None), groups_filtered_order.
  rewrite outcome_fmap_compose. apply outcome_fmap_ext. intros order.
  by rewrite (filter_all (fun g => XcProject.group_passes None (σ g) = true)).
Qed.

(** X2: [group_files] is the union, in order, of the files of the groups
    that [groups_filtered] lists; each returns with the fuel that lets the
    other return. *)
Theorem group_files_of_groups_filtered (fuel : nat) (σ : store)
  (p : XcProject.t) :
  XcProject.group_files fuel σ p
  = foldl (fun results group => results ∪ XcGroup.files (σ group)) ∅
      <$> XcProject.groups_filtered fuel σ p None.
Proof.
  rewrite groups_filtered_order, outcome_fmap_compose.
  unfold XcProject.group_files, walk_order.
  rewrite group_files_loop_walk.
  pose proof (walk_loop_fold σ (fun _ => true)
                (fun results group => results ∪ XcGroup.files (σ group)) ∅ fuel
                (XcProject.groups p) []) as Hfold.
  simpl in Hfold. rewrite Hfold.
  apply outcome_fmap_ext. intros order.
  by rewrite (filter_all (fun g => XcProject.group_passes None (σ g) = true)).
Qed.

Lemma walk_order_returns (σ : store) (descend : ref -> bool) (rank : ref -> nat)
  (groups : list ref) :
  ranked σ rank groups ->
  exists fuel order,
    forall fuel', fuel <= fuel' -> walk_order fuel' σ descend groups = Ret order.
Proof.
  intros Hrk.
  destruct (walk_loop_ranked σ descend (fun order group => order ++ [group]) rank
              (S (max_list (rank <$> groups))) groups) with (s := @nil ref)
    as (fuel & order & Hrun); [|done|].
  { intros g Hg. apply Nat.lt_succ_r, max_list_elem_of_le.
    apply list_elem_of_fmap. eauto. }
  exists fuel, order. intros fuel' Hle. by eapply walk_loop_mono.
Qed.

(** X3: on a group graph without cycle [groups_filtered] returns, with any
    fuel from some amount on, and lists exactly the groups reachable from
    the top-level groups that pass the test of the mode. *)
Theorem groups_filtered_lists_reachable (σ : store) (p : XcProject.t)
  (rank : ref -> nat) (filter_mode : option string)
  (Hrk : ranked σ rank (XcProject.groups p)) :
  exists fuel gs,
    (forall fuel', fuel <= fuel' ->
       XcProject.groups_filtered fuel' σ p filter_mode = Ret gs)
    /\ forall h, h ∈ gs
         <-> reachable σ (XcProject.groups p) h
             /\ XcProject.group_passes filter_mode (σ h) = true.
Proof.
  destruct (walk_order_returns σ (fun _ => true) rank _ Hrk) as (fuel & order & Hrun).
  exists fuel, (filter (fun g => XcProject.group_passes filter_mode (σ g) = true) order).
  split.
  - intros fuel' Hle. by rewrite groups_filtered_order, (Hrun fuel' Hle).
  - intros h. rewrite list_elem_of_filter.
    rewrite (walk_order_elements _ _ _ _ _ _ (Hrun fuel (Nat.le_refl _))).
    unfold reachable. setoid_rewrite reaches_through_all.
    rewrite elem_of_nil. tauto.
Qed.

Lemma groups_filtered_lists_reachable_witness :
  exists fuel gs,
    (forall fuel', fuel <= fuel' ->
       XcProject.groups_filtered fuel' Examples.tree_store Examples.tree_project
         (Some "empty") = Ret gs)
    /\ forall h, h ∈ gs
         <-> reachable Examples.tree_store (XcProject.groups Examples.tree_project) h
             /\ XcProject.group_passes (Some "empty") (Examples.tree_store h) = true.
Proof.
  exact (groups_filtered_lists_reachable Examples.tree_store Examples.tree_project
           Examples.tree_rank (Some "empty") tree_store_ranked).
Defined.

Lemma foldl_nonregular (σ : store) (order : list ref) :
  forall acc,
    foldl (fun results group =>
             if XcGroup.is_variant (σ group) then results
             else results ++ nonregular_of σ group) acc order
    = acc ++ (order ≫= fun group =>
                if XcGroup.is_variant (σ group) then [] else nonregular_of σ group).
Proof.
  induction order as [|g order IH]; intros acc.
  - simpl. by rewrite app_nil_r.
  - rewrite bind_cons. cbn [foldl]. rewrite IH.
    destruct (XcGroup.is_variant (σ g)); [done|]. by rewrite <- app_assoc.
Qed.

(** X4: on a group graph without cycle [nonregular_files] returns, and it
    reports a file with a group exactly when the group is reachable from a
    top-level group through groups that are not variant groups, is not one
    itself, holds the file, and the path of the file does not start with
    the group path.  Nothing of a variant group or below it is reported
    through it. *)
Theorem nonregular_files_skips_variant_groups (σ : store) (p : XcProject.t)
  (rank : ref -> nat) (Hrk : ranked σ rank (XcProject.groups p)) :
  exists fuel r,
    (forall fuel', fuel <= fuel' -> XcProject.nonregular_files fuel' σ p = Ret r)
    /\ forall f g, (f, g) ∈ r
         <-> (exists root, root ∈ XcProject.groups p /\ reaches_regular σ root g)
             /\ f ∈ FileSet.elements (XcGroup.files (σ g))
             /\ Str.startswith (XcFile.filepath f) (XcGroup.group_path (σ g)) = false.
Proof.
  destruct (walk_order_returns σ (fun g => negb (XcGroup.is_variant (σ g))) rank _ Hrk)
    as (fuel & order & Hrun).
  assert (Hnr : forall fuel', fuel <= fuel' ->
            XcProject.nonregular_files fuel' σ p
            = Ret (order ≫= fun group =>
                     if XcGroup.is_variant (σ group) then []
                     else nonregular_of σ group)).
  { intros fuel' Hle. unfold XcProject.nonregular_files.
    rewrite nonregular_files_loop_walk.
    pose proof (walk_loop_fold σ (fun g => negb (XcGroup.is_variant (σ g)))
                  (fun results group =>
                     if XcGroup.is_variant (σ group) then results
                     else results ++ nonregular_of σ group) [] fuel'
                  (XcProject.groups p) []) as Hfold.
    simpl in Hfold. rewrite Hfold. fold (walk_order fuel' σ
      (fun g => negb (XcGroup.is_variant (σ g))) (XcProject.groups p)).
    rewrite (Hrun fuel' Hle). simpl. by rewrite foldl_nonregular. }
  eexists fuel, _. split; [exact Hnr|].
  intros f g. rewrite list_elem_of_bind.
  pose proof (walk_order_elements _ _ _ _ _ _ (Hrun fuel (Nat.le_refl _))) as Hord.
  setoid_rewrite Hord. setoid_rewrite elem_of_nil.
  setoid_rewrite reaches_regular_through. split.
  - intros (g' & Hin & [[]|(root & Hroot & Hreach)]).
    destruct (XcGroup.is_variant (σ g')) eqn:Hv; [by apply elem_of_nil in Hin|].
    unfold nonregular_of in Hin.
    apply list_elem_of_fmap in Hin as (f' & [= -> ->] & Hf).
    apply list_elem_of_filter in Hf as [Hs Hf]. eauto 10.
  - intros ((root & Hroot & Hreach & Hv) & Hf & Hs). exists g. rewrite Hv. split.
    + unfold nonregular_of. apply list_elem_of_fmap. exists f. split; [done|].
      by apply list_elem_of_filter.
    + right. eauto.
Qed.

Lemma variant_store_ranked :
  ranked Examples.variant_store Examples.variant_rank
    (XcProject.groups Examples.variant_project).
Proof.
  intros g _ c Hc.
  destruct g as [|[|[|[|g]]]]; simpl in Hc;
    repeat (apply elem_of_cons in Hc as [-> | Hc]; [simpl; lia|]);
    by apply elem_of_nil in Hc.
Qed.

Lemma nonregular_files_skips_variant_groups_witness :
  exists fuel r,
    (forall fuel', fuel <= fuel' ->
       XcProject.nonregular_files fuel' Examples.variant_store
         Examples.variant_project = Ret r)
    /\ forall f g, (f, g) ∈ r
         <-> (exists root, root ∈ XcProject.groups Examples.variant_project
                /\ reaches_regular Examples.variant_store root g)
             /\ f ∈ FileSet.elements (XcGroup.files (Examples.variant_store g))
             /\ Str.startswith (XcFile.filepath f)
                  (XcGroup.group_path (Examples.variant_store g)) = false.
Proof.
  exact (nonregular_files_skips_variant_groups Examples.variant_store
           Examples.variant_project Examples.variant_rank variant_store_ranked).
Defined.

(** A traversal that descends below every group does not return when a
    group it meets lies on a cycle. *)
Lemma walk_loop_meets_no_cycle {S : Type} (σ : store) (visit : S -> ref -> S)
  (fuel : nat) :
  forall (groups : list ref) (s r : S),
    walk_loop fuel σ (fun _ => true) visit groups s = Ret r ->
    forall g c, g ∈ groups -> reaches σ g c -> ~ on_cycle σ c.
Proof.
  induction fuel as [|fuel IH]; intros groups s r Hrun g c Hg Hreach Hcyc.
  - apply walk_loop_no_fuel in Hrun as [-> _]. by apply elem_of_nil in Hg.
  - destruct groups as [|g0 groups _] using rev_ind; [by apply elem_of_nil in Hg|].
    rewrite walk_loop_snoc in Hrun.
    apply elem_of_app in Hg as [Hg|Hg].
    + eapply (IH _ _ _ Hrun g c); [apply elem_of_app; by left|done..].
    + apply list_elem_of_singleton in Hg as ->.
      inversion Hreach as [|? c1 ? Hc1 Hr1]; subst.
      * destruct Hcyc as (c1 & Hc1 & Hr1).
        eapply (IH _ _ _ Hrun c1 c); [apply elem_of_app; by right|done|].
        by exists c1.
      * eapply (IH _ _ _ Hrun c1 c); [apply elem_of_app; by right|done..].
Qed.

Lemma outcome_cases {A : Type} (m : outcome A) :
  m <> TypeError -> (forall a, m <> Ret a) -> m = OutOfFuel.
Proof. destruct m; [intros _ H; by destruct (H a)|done..]. Qed.

(** X5: when a group reachable from the top-level groups lies on a cycle,
    neither [group_files] nor [groups_filtered] returns, whatever the
    fuel. *)
Theorem group_traversals_run_forever_on_cycle (σ : store) (p : XcProject.t)
  (c : ref) (Hreach : reachable σ (XcProject.groups p) c) (Hcyc : on_cycle σ c)
  (filter_mode : option string) (fuel : nat) :
  XcProject.group_files fuel σ p = OutOfFuel
  /\ XcProject.groups_filtered fuel σ p filter_mode = OutOfFuel.
Proof.
  destruct Hreach as (g & Hg & Hreach).
  unfold XcProject.group_files, XcProject.groups_filtered.
  rewrite group_files_loop_walk, groups_filtered_loop_walk.
  split; (apply outcome_cases; [apply walk_loop_never_raises|]);
    intros r Hrun; by eapply (walk_loop_meets_no_cycle _ _ _ _ _ _ Hrun g c).
Qed.

Lemma looping_store_cycle :
  reachable Examples.looping_store (XcProject.groups Examples.looping_project) 0
  /\ on_cycle Examples.looping_store 0.
Proof.
  split.
  - exists 0. split; [by left|constructor].
  - exists 0. split; [by left|constructor].
Qed.

Lemma group_traversals_run_forever_on_cycle_witness :
  XcProject.group_files 7 Examples.looping_store Examples.looping_project = OutOfFuel
  /\ XcProject.groups_filtered 7 Examples.looping_store Examples.looping_project
       (Some "variant") = OutOfFuel.
Proof.
  exact (group_traversals_run_forever_on_cycle Examples.looping_store
           Examples.looping_project 0 (proj1 looping_store_cycle)
           (proj2 looping_store_cycle) (Some "variant") 7).
Defined.

(** The groups visited are the groups the visit started from and others. *)
Lemma walk_order_roots (σ : store) (descend : ref -> bool) (fuel : nat) :
  forall groups order r,
    walk_loop fuel σ descend (fun order group => order ++ [group]) groups order
    = Ret r ->
    exists rest, r ≡ₚ order ++ groups ++ rest.
Proof.
  induction fuel as [|fuel IH]; intros groups order r Hrun.
  - apply walk_loop_no_fuel in Hrun as [-> ->]. exists []. by rewrite !app_nil_r.
  - destruct groups as [|g groups _] using rev_ind.
    + rewrite walk_loop_nil in Hrun. injection Hrun as <-.
      exists []. by rewrite !app_nil_r.
    + rewrite walk_loop_snoc in Hrun.
      destruct (IH _ _ _ Hrun) as (rest & Hrest).
      destruct (descend g).
      * exists (XcGroup.groups (σ g) ++ rest). rewrite Hrest. solve_Permutation.
      * exists rest. rewrite Hrest. solve_Permutation.
Qed.

Lemma count_variant_app (σ : store) (l1 l2 : list ref) :
  XcProjReporter.count_variant σ (l1 ++ l2)
  = (XcProjReporter.count_variant σ l1 + XcProjReporter.count_variant σ l2)%Z.
Proof.
  unfold XcProjReporter.count_variant. rewrite filter_app, length_app. lia.
Qed.

Lemma count_variant_perm (σ : store) (l1 l2 : list ref) :
  l1 ≡ₚ l2 -> XcProjReporter.count_variant σ l1 = XcProjReporter.count_variant σ l2.
Proof. intros H. unfold XcProjReporter.count_variant. by rewrite H. Qed.

Lemma count_variant_bounds (σ : store) (l : list ref) :
  (0 <= XcProjReporter.count_variant σ l <= Z.of_nat (length l))%Z.
Proof.
  unfold XcProjReporter.count_variant.
  pose proof (length_filter (fun g => XcGroup.is_variant (σ g) = true) l). lia.
Qed.

(** X6: in what [print_all_groups_summary] prints, the groups listed are
    the top-level groups and others; the count of variant groups is the
    number of variant groups among the others and the count of other groups
    the number of the rest of them, so that neither is negative and the
    three counts add up to the total. *)
Theorem groups_summary_counts (fuel : nat) (σ : store) (p : XcProject.t)
  (s : XcProjReporter.groups_summary)
  (Hs : XcProjReporter.print_all_groups_summary fuel σ p = Ret s) :
  exists gs rest,
    XcProject.groups_filtered fuel σ p None = Ret gs
    /\ gs ≡ₚ XcProject.groups p ++ rest
    /\ XcProjReporter.total_groups_count s = Z.of_nat (length gs)
    /\ XcProjReporter.root_groups_count s = Z.of_nat (length (XcProject.groups p))
    /\ XcProjReporter.variant_groups_count s = XcProjReporter.count_variant σ rest
    /\ XcProjReporter.other_groups_count s
       = (Z.of_nat (length rest) - XcProjReporter.count_variant σ rest)%Z
    /\ (0 <= XcProjReporter.variant_groups_count s)%Z
    /\ (0 <= XcProjReporter.other_groups_count s)%Z
    /\ (XcProjReporter.root_groups_count s + XcProjReporter.variant_groups_count s
        + XcProjReporter.other_groups_count s
        = XcProjReporter.total_groups_count s)%Z.
Proof.
  unfold XcProjReporter.print_all_groups_summary in Hs.
  apply bind_Ret in Hs as (gs & Hgs & Hs). injection Hs as <-. simpl.
  assert (exists rest, gs ≡ₚ XcProject.groups p ++ rest) as [rest Hrest].
  { rewrite groups_filtered_order in Hgs.
    apply outcome_fmap_Ret in Hgs as (order & Horder & <-).
    rewrite filter_all by done.
    destruct (walk_order_roots _ _ _ _ _ _ Horder) as (rest & Hrest). eauto. }
  exists gs, rest. split; [done|]. split; [done|].
  rewrite (count_variant_perm σ _ _ Hrest), count_variant_app.
  assert (Hlen : length gs = length (XcProject.groups p) + length rest)
    by (by rewrite Hrest, length_app).
  pose proof (count_variant_bounds σ rest).
  repeat split; lia.
Qed.

Lemma groups_summary_counts_witness :
  exists gs rest,
    XcProject.groups_filtered 4 Examples.variant_store Examples.variant_project None
    = Ret gs
    /\ gs ≡ₚ XcProject.groups Examples.variant_project ++ rest
    /\ XcProjReporter.total_groups_count (XcProjReporter.mk_groups_summary 1 0 1 2 4)
       = Z.of_nat (length gs)
    /\ XcProjReporter.root_groups_count (XcProjReporter.mk_groups_summary 1 0 1 2 4)
       = Z.of_nat (length (XcProject.groups Examples.variant_project))
    /\ XcProjReporter.variant_groups_count (XcProjReporter.mk_groups_summary 1 0 1 2 4)
       = XcProjReporter.count_variant Examples.variant_store rest
    /\ XcProjReporter.other_groups_count (XcProjReporter.mk_groups_summary 1 0 1 2 4)
       = (Z.of_nat (length rest)
          - XcProjReporter.count_variant Examples.variant_store rest)%Z
    /\ (0 <= XcProjReporter.variant_groups_count
               (XcProjReporter.mk_groups_summary 1 0 1 2 4))%Z
    /\ (0 <= XcProjReporter.other_groups_count
               (XcProjReporter.mk_groups_summary 1 0 1 2 4))%Z
    /\ (XcProjReporter.root_groups_count (XcProjReporter.mk_groups_summary 1 0 1 2 4)
        + XcProjReporter.variant_groups_count
            (XcProjReporter.mk_groups_summary 1 0 1 2 4)
        + XcProjReporter.other_groups_count
            (XcProjReporter.mk_groups_summary 1 0 1 2 4)
        = XcProjReporter.total_groups_count
            (XcProjReporter.mk_groups_summary 1 0 1 2 4))%Z.
Proof.
  apply (groups_summary_counts 4 Examples.variant_store Examples.variant_project).
  vm_compute. reflexivity.
Defined.

(** ** Sorted output *)

Lemma ltb_le (a b : string) : String.ltb a b = true -> String.le a b.
Proof.
  unfold String.ltb, String.le, String.leb.
  destruct (String.compare a b); simpl; done.
Qed.

Lemma ltb_false_le (a b : string) : String.ltb a b = false -> String.le b a.
Proof.
  unfold String.ltb, String.le, String.leb.
  rewrite (String.compare_antisym a b).
  destruct (String.compare b a); simpl; done.
Qed.

Lemma insert_by_sorted {A : Type} (key : A -> string) (x : A) (l : list A) :
  StronglySorted (fun a b => String.le (key a) (key b)) l ->
  StronglySorted (fun a b => String.le (key a) (key b)) (insert_by key x l).
Proof.
  induction 1 as [|y l Hl IH Hy]; simpl.
  - repeat constructor.
  - destruct (String.ltb (key x) (key y)) eqn:Hlt.
    + constructor; [by constructor|]. constructor; [by apply ltb_le|].
      apply ltb_le in Hlt. eapply Forall_impl; [done|].
      intros z Hz. simpl in *. by etrans.
    + constructor; [done|].
      apply Forall_forall. intros z Hz.
      rewrite insert_by_perm in Hz. apply elem_of_cons in Hz as [-> | Hz].
      * by apply ltb_false_le.
      * by eapply Forall_forall in Hy.
Qed.

(** [sorted] returns its argument in ascending order of the key. *)
Lemma sorted_by_sorted {A : Type} (key : A -> string) (l : list A) :
  StronglySorted (fun a b => String.le (key a) (key b)) (sorted_by key l).
Proof.
  unfold sorted_by.
  enough (forall acc,
            StronglySorted (fun a b => String.le (key a) (key b)) acc ->
            StronglySorted (fun a b => String.le (key a) (key b))
              (foldl (fun acc x => insert_by key x acc) acc l)) as H
    by (apply H; constructor).
  induction l as [|x l IH]; intros acc Hacc; simpl; [done|].
  by apply IH, insert_by_sorted.
Qed.

Lemma sorted_by_keys_sorted {A : Type} (key : A -> string) (l : list A) :
  StronglySorted String.le (key <$> sorted_by key l).
Proof.
  eapply StronglySorted_fmap; [|apply sorted_by_sorted]. done.
Qed.

(** X7: [print_shared_files] prints its lines in ascending order of the
    path, no path twice, and each line names at least two targets: exactly
    the (type, name) identities of the targets that own a file with that
    path. *)
Theorem shared_files_lines_sorted_with_owners (p : XcProject.t) :
  StronglySorted String.le (fst <$> XcProjReporter.print_shared_files p)
  /\ NoDup (fst <$> XcProjReporter.print_shared_files p)
  /\ forall path ids,
       (path, ids) ∈ XcProjReporter.print_shared_files p ->
       2 <= size ids
       /\ forall i, i ∈ ids
            <-> exists t, t ∈ XcProject.targets p /\ XcTarget.id t = i
                          /\ path ∈ FileSet.paths (XcTarget.files t).
Proof.
  unfold XcProjReporter.print_shared_files. split; [|split].
  - apply sorted_by_keys_sorted.
  - rewrite sorted_by_perm. apply NoDup_fst_map_to_list.
  - intros path ids Hin. rewrite sorted_by_perm in Hin.
    apply elem_of_map_to_list, map_lookup_filter_Some in Hin as [Hft Hsz].
    split; [done|]. intros i. rewrite <- owns_file_targets. unfold owns.
    rewrite Hft. naive_solver.
Qed.

(** ** Targets by type and by name *)

Lemma targets_of_type_results (ty : string) (l : list XcTarget.t) :
  forall (acc : gmap target_id XcTarget.t),
    (forall i t, acc !! i = Some t -> XcTarget.id t = i /\ XcTarget.type t = ty) ->
    let results :=
      foldl (fun results target =>
               if String.eqb (XcTarget.type target) ty
               then match results !! XcTarget.id target with
                    | Some _ => results
                    | None => <[XcTarget.id target := target]> results
                    end
               else results) acc l in
    (forall i t, results !! i = Some t ->
       XcTarget.id t = i /\ XcTarget.type t = ty
       /\ (acc !! i = Some t \/ t ∈ l))
    /\ (forall t, t ∈ l -> XcTarget.type t = ty -> is_Some (results !! XcTarget.id t))
    /\ acc ⊆ results.
Proof.
  induction l as [|x l IH]; intros acc Hacc; simpl.
  - split; [|split]; [|by intros t Ht%elem_of_nil|done].
    intros i t Hi. destruct (Hacc i t Hi). auto.
  - set (acc' := if String.eqb (XcTarget.type x) ty
                 then match acc !! XcTarget.id x with
                      | Some _ => acc
                      | None => <[XcTarget.id x := x]> acc
                      end
                 else acc).
    assert (Hacc' : forall i t, acc' !! i = Some t ->
              XcTarget.id t = i /\ XcTarget.type t = ty
              /\ (acc !! i = Some t \/ t = x)).
    { intros i t. unfold acc'.
      destruct (String.eqb_spec (XcTarget.type x) ty) as [Hty|Hty];
        [destruct (acc !! XcTarget.id x) eqn:Hx|];
        try (intros Hi; destruct (Hacc i t Hi); by auto).
      destruct (decide (i = XcTarget.id x)) as [-> | Hne].
      - rewrite lookup_insert_eq. intros [= <-]. auto.
      - rewrite lookup_insert_ne by done. intros Hi. destruct (Hacc i t Hi). auto. }
    assert (Hsub : acc ⊆ acc').
    { unfold acc'. destruct (String.eqb _ _); [|done].
      destruct (acc !! XcTarget.id x) eqn:Hx; [done|].
      by apply insert_subseteq. }
    assert (Hx : XcTarget.type x = ty -> is_Some (acc' !! XcTarget.id x)).
    { intros Hty. unfold acc'. rewrite (proj2 (String.eqb_eq _ _) Hty).
      destruct (acc !! XcTarget.id x) eqn:Hl; [by rewrite Hl|].
      by rewrite lookup_insert_eq. }
    destruct (IH acc' ltac:(intros i t Hi; destruct (Hacc' i t Hi) as (? & ? & _); auto))
      as (H1 & H2 & H3).
    split; [|split].
    + intros i t Hi. destruct (H1 i t Hi) as (? & ? & [Ha|Hl]).
      * destruct (Hacc' i t Ha) as (_ & _ & [? | ->]); [by auto|].
        split; [done|]. split; [done|]. right. by left.
      * split; [done|]. split; [done|]. right. by right.
    + intros t [-> | Ht]%elem_of_cons Hty; [|by apply H2].
      destruct (Hx Hty) as [t' Ht']. exists t'.
      by eapply lookup_weaken.
    + by etrans.
Qed.

(** X8: [targets_of_type] returns targets of the project that have the
    type asked for, one for each (type, name) that such a target has, in
    strictly ascending order of the name; the order in which the set is
    iterated leaves no trace. *)
Theorem targets_of_type_sorted_once (p : XcProject.t) (target_type : string) :
  (forall t, t ∈ XcProject.targets_of_type p target_type ->
     t ∈ XcProject.targets p /\ XcTarget.type t = target_type)
  /\ (forall t, t ∈ XcProject.targets p -> XcTarget.type t = target_type ->
        exists t', t' ∈ XcProject.targets_of_type p target_type
                   /\ XcTarget.eq t t' = true)
  /\ StronglySorted String.le
       (XcTarget.name <$> XcProject.targets_of_type p target_type)
  /\ NoDup (XcTarget.name <$> XcProject.targets_of_type p target_type).
Proof.
  unfold XcProject.targets_of_type.
  destruct (targets_of_type_results target_type (XcProject.targets p) ∅)
    as (H1 & H2 & _); [by intros i t; rewrite lookup_empty|].
  cbv zeta in H1, H2.
  set (results := foldl _ ∅ (XcProject.targets p)) in *.
  assert (Hval : forall t, t ∈ (snd <$> map_to_list results)
                 <-> results !! XcTarget.id t = Some t).
  { intros t. rewrite list_elem_of_fmap. split.
    - intros ([i t'] & -> & Hin). apply elem_of_map_to_list in Hin.
      simpl. by destruct (H1 i t' Hin) as (-> & _).
    - intros Ht. exists (XcTarget.id t, t). split; [done|].
      by apply elem_of_map_to_list. }
  split; [|split; [|split]].
  - intros t. rewrite elem_of_sorted_by, Hval. intros Ht.
    destruct (H1 _ _ Ht) as (_ & ? & [Hempty|?]); [|done].
    by rewrite lookup_empty in Hempty.
  - intros t Ht Hty. destruct (H2 t Ht Hty) as [t' Ht'].
    destruct (H1 _ _ Ht') as (Hid & _ & _).
    exists t'. split.
    + apply elem_of_sorted_by, Hval. by rewrite Hid.
    + by apply target_eq_id.
  - apply sorted_by_keys_sorted.
  - rewrite sorted_by_perm. rewrite <- list_fmap_compose.
    apply NoDup_fmap_2_strong; [|apply NoDup_map_to_list].
    intros [i1 t1] [i2 t2] Hin1 Hin2 Hname. simpl in Hname.
    apply elem_of_map_to_list in Hin1, Hin2.
    destruct (H1 _ _ Hin1) as (Hid1 & Hty1 & _).
    destruct (H1 _ _ Hin2) as (Hid2 & Hty2 & _).
    assert (i1 = i2) as <-.
    { rewrite <- Hid1, <- Hid2. unfold XcTarget.id. by rewrite Hty1, Hty2, Hname. }
    rewrite Hin1 in Hin2. by injection Hin2 as <-.
Qed.

(** X9: [target_with_name] returns [None] exactly when no target has the
    name; otherwise it returns the first target of that name in the order
    of the project's targets. *)
Theorem target_with_name_first (p : XcProject.t) (name : string) :
  (XcProject.target_with_name p name = None
   <-> forall t, t ∈ XcProject.targets p -> XcTarget.name t <> name)
  /\ forall t, XcProject.target_with_name p name = Some t ->
       XcTarget.name t = name
       /\ exists before after,
            XcProject.targets p = before ++ t :: after
            /\ forall t', t' ∈ before -> XcTarget.name t' <> name.
Proof.
  unfold XcProject.target_with_name.
  induction (XcProject.targets p) as [|x l [IH1 IH2]].
  - split; [split; [by intros _ t Ht%elem_of_nil|done]|done].
  - rewrite filter_cons. destruct (decide (XcTarget.name x = name)) as [Hx|Hx].
    + split.
      * split; [done|]. intros H. destruct (H x); [by left|done].
      * intros t [= <-]. split; [done|]. exists [], l. split; [done|].
        by intros t' Ht'%elem_of_nil.
    + split.
      * rewrite IH1. setoid_rewrite elem_of_cons. naive_solver.
      * intros t Ht. destruct (IH2 t Ht) as (Hn & before & after & -> & Hb).
        split; [done|]. exists (x :: before), after. split; [done|].
        intros t' [-> | Ht']%elem_of_cons; auto.
Qed.

(** ** Declarations by kind *)

Lemma grouping_by_kind {K D : Type} `{Countable K} (kind : D -> K)
  (types : gset K) (ds : list D) :
  forall (acc : gmap K (list D)) (k : K),
    dom acc ⊆ types ->
    foldl (fun results d =>
             if bool_decide (kind d ∉ types) then results
             else alter (fun l => l ++ [d]) (kind d) results)
          acc ds !! k
    = (fun l => l ++ filter (fun d => kind d = k) ds) <$> acc !! k.
Proof.
  induction ds as [|d ds IH]; intros acc k Hdom.
  - simpl. destruct (acc !! k); simpl; [|done]. by rewrite app_nil_r.
  - rewrite filter_cons. cbn [foldl]. case_bool_decide as Hin.
    + rewrite IH by done. destruct (decide _) as [Hk|Hk]; [|done].
      subst k. rewrite (proj1 (not_elem_of_dom acc _)); [done|]. set_solver.
    + rewrite IH by (rewrite dom_alter; done).
      destruct (decide _) as [Hk|Hk].
      * subst k. rewrite lookup_alter_eq.
        destruct (acc !! _); simpl; [|done]. by rewrite <- app_assoc.
      * by rewrite lookup_alter_ne.
Qed.

Lemma objc_kinds_partition (ots : list ObjcType.t) :
  length ots
  = sum_list ((fun k => length (filter (fun d => ObjcType.type_identifier d = k) ots))
                <$> [ObjcTypeType.CLASS; ObjcTypeType.CATEGORY; ObjcTypeType.ENUM;
                     ObjcTypeType.CONSTANT; ObjcTypeType.PROTOCOL]).
Proof.
  induction ots as [|[k n] ots IH]; [done|].
  rewrite !fmap_cons, !filter_cons in *. simpl in *.
  destruct k; simpl; lia.
Qed.

Lemma swift_kinds_partition (sts : list SwiftType.t) :
  length sts
  = sum_list ((fun k => length (of_kind k sts))
                <$> [SwiftTypeType.CLASS; SwiftTypeType.STRUCT; SwiftTypeType.ENUM;
                     SwiftTypeType.PROTOCOL; SwiftTypeType.EXTENSION]).
Proof.
  unfold of_kind. induction sts as [|[k n] sts IH]; [done|].
  rewrite !fmap_cons, !filter_cons in *. simpl in *.
  destruct k; simpl; lia.
Qed.

(** X10: when the Objective-C types are computed, [objc_types_filtered]
    returns a dict whose keys are the kinds of [type_in], each with the
    project's Objective-C types of that kind in their order; with every
    kind in [type_in], the five lists together are as long as the list of
    all the types. *)
Theorem objc_types_filtered_by_kind (fuel : nat) (σ : store) (p : XcProject.t)
  (type_in : gset ObjcTypeType.t) (ots : list ObjcType.t)
  (Hots : XcProject.objc_types fuel σ p = Ret ots) :
  exists results,
    XcProject.objc_types_filtered fuel σ p type_in = Ret results
    /\ dom results = type_in
    /\ (forall k, k ∈ type_in ->
          results !! k
          = Some (filter (fun d => ObjcType.type_identifier d = k) ots))
    /\ (type_in = ObjcTypeType.ALL ->
        length ots
        = sum_list ((fun k => length (default [] (results !! k)))
                      <$> [ObjcTypeType.CLASS; ObjcTypeType.CATEGORY;
                           ObjcTypeType.ENUM; ObjcTypeType.CONSTANT;
                           ObjcTypeType.PROTOCOL])).
Proof.
  unfold XcProject.objc_types_filtered. rewrite Hots. simpl.
  eexists. split; [done|].
  set (results := foldl _ (gset_to_gmap [] type_in) ots).
  assert (Hl : forall k, results !! k
            = if bool_decide (k ∈ type_in)
              then Some (filter (fun d => ObjcType.type_identifier d = k) ots)
              else None).
  { intros k. unfold results.
    rewrite (grouping_by_kind ObjcType.type_identifier)
      by (by rewrite dom_gset_to_gmap).
    rewrite lookup_gset_to_gmap. case_bool_decide.
    - by rewrite option_guard_True.
    - by rewrite option_guard_False. }
  split; [|split].
  - apply set_eq. intros k. rewrite elem_of_dom, Hl.
    case_bool_decide; split; (done || by intros []).
  - intros k Hk. by rewrite Hl, bool_decide_true.
  - intros ->. rewrite (objc_kinds_partition ots). simpl.
    rewrite !Hl. by rewrite !bool_decide_true by (unfold ObjcTypeType.ALL; set_solver).
Qed.

Lemma objc_types_filtered_by_kind_witness :
  exists results,
    XcProject.objc_types_filtered 0 Examples.empty_store Examples.mixed_project
      {[ ObjcTypeType.CLASS; ObjcTypeType.ENUM ]} = Ret results
    /\ dom results = {[ ObjcTypeType.CLASS; ObjcTypeType.ENUM ]}
    /\ (forall k, k ∈ ({[ ObjcTypeType.CLASS; ObjcTypeType.ENUM ]} : gset _) ->
          results !! k
          = Some (filter (fun d => ObjcType.type_identifier d = k)
                         Examples.mixed_objc_types))
    /\ (({[ ObjcTypeType.CLASS; ObjcTypeType.ENUM ]} : gset _) = ObjcTypeType.ALL ->
        length Examples.mixed_objc_types
        = sum_list ((fun k => length (default [] (results !! k)))
                      <$> [ObjcTypeType.CLASS; ObjcTypeType.CATEGORY;
                           ObjcTypeType.ENUM; ObjcTypeType.CONSTANT;
                           ObjcTypeType.PROTOCOL])).
Proof.
  apply (objc_types_filtered_by_kind 0 Examples.empty_store Examples.mixed_project).
  vm_compute. reflexivity.
Defined.

(** X11: with its default arguments [swift_types_filtered] returns a dict
    with the five kinds as keys, and the five lists together are as long as
    the list of all the Swift types: the counts that the summary prints by
    kind add up to the total it prints. *)
Theorem swift_types_by_kind_add_up (p : XcProject.t) (sts : list SwiftType.t)
  (Hsts : XcProject.swift_types p = Ret sts) :
  exists grouped,
    XcProject.swift_types_filtered p SwiftTypeType.ALL ∅ false
    = Ret (XcProject.Grouped grouped)
    /\ dom grouped = SwiftTypeType.ALL
    /\ length sts
       = sum_list ((fun k => length (default [] (grouped !! k)))
                     <$> [SwiftTypeType.CLASS; SwiftTypeType.STRUCT;
                          SwiftTypeType.ENUM; SwiftTypeType.PROTOCOL;
                          SwiftTypeType.EXTENSION]).
Proof.
  destruct (swift_types_grouped_spec p SwiftTypeType.ALL ∅ sts Hsts)
    as (grouped & Hg & Hdom & Hl).
  exists grouped. unfold XcProject.swift_types_filtered. rewrite Hg. simpl.
  split; [done|].
  assert (Hk : XcProject.kept_types SwiftTypeType.ALL ∅ = SwiftTypeType.ALL).
  { unfold XcProject.kept_types. by rewrite bool_decide_false by (intros H; by apply H). }
  rewrite Hk in *. split; [done|].
  rewrite (swift_kinds_partition sts). simpl.
  rewrite !Hl. by rewrite !bool_decide_true by (unfold SwiftTypeType.ALL; set_solver).
Qed.

Lemma swift_types_by_kind_add_up_witness :
  exists grouped,
    XcProject.swift_types_filtered Examples.mixed_project SwiftTypeType.ALL ∅ false
    = Ret (XcProject.Grouped grouped)
    /\ dom grouped = SwiftTypeType.ALL
    /\ length Examples.mixed_swift_types
       = sum_list ((fun k => length (default [] (grouped !! k)))
                     <$> [SwiftTypeType.CLASS; SwiftTypeType.STRUCT;
                          SwiftTypeType.ENUM; SwiftTypeType.PROTOCOL;
                          SwiftTypeType.EXTENSION]).
Proof.
  apply (swift_types_by_kind_add_up Examples.mixed_project).
  vm_compute. reflexivity.
Defined.

(** ** The summary of files *)

Lemma add_fresh (f : XcFile.t) (s : FileSet) :
  XcFile.filepath f ∉ dom s ->
  size (FileSet.add f s) = S (size s)
  /\ dom (FileSet.add f s) = {[ XcFile.filepath f ]} ∪ dom s.
Proof.
  intros Hf%not_elem_of_dom. unfold FileSet.add. rewrite Hf.
  split; [by apply map_size_insert_None|by rewrite dom_insert_L].
Qed.

Lemma sort_source_files_sizes (l : list XcFile.t) :
  NoDup (XcFile.filepath <$> l) ->
  forall acc : FileSet * FileSet * FileSet,
    (forall f, f ∈ l ->
       XcFile.filepath f ∉ dom acc.1.1 ∪ dom acc.1.2 ∪ dom acc.2) ->
    size (foldl XcProjReporter.sort_source_file acc l).1.1
    + size (foldl XcProjReporter.sort_source_file acc l).1.2
    + size (foldl XcProjReporter.sort_source_file acc l).2
    = size acc.1.1 + size acc.1.2 + size acc.2 + length l
    /\ forall path,
         path ∈ dom (foldl XcProjReporter.sort_source_file acc l).1.1
         <-> path ∈ dom acc.1.1
             \/ (path ∈ XcFile.filepath <$> l /\ Str.endswith path ".swift" = true).
Proof.
  induction l as [|f l IH]; intros Hnd [[sw oc] ot] Hfresh; simpl in *.
  - split; [lia|]. intros path. rewrite elem_of_nil. tauto.
  - apply NoDup_cons in Hnd as [Hf Hnd].
    assert (Hff : XcFile.filepath f ∉ dom sw ∪ dom oc ∪ dom ot) by (apply Hfresh; by left).
    assert (Hstep : forall acc',
              acc' = XcProjReporter.sort_source_file (sw, oc, ot) f ->
              size acc'.1.1 + size acc'.1.2 + size acc'.2
              = S (size sw + size oc + size ot)
              /\ dom acc'.1.1 ∪ dom acc'.1.2 ∪ dom acc'.2
                 = {[ XcFile.filepath f ]} ∪ (dom sw ∪ dom oc ∪ dom ot)
              /\ dom acc'.1.1
                 = if Str.endswith (XcFile.filepath f) ".swift"
                   then {[ XcFile.filepath f ]} ∪ dom sw else dom sw).
    { intros acc' ->. unfold XcProjReporter.sort_source_file. simpl.
      destruct (Str.endswith (XcFile.filepath f) ".swift");
        [|destruct (Str.endswith (XcFile.filepath f) ".m")]; simpl.
      - destruct (add_fresh f sw) as [-> ->]; [set_solver|].
        split; [lia|]. split; [set_solver|done].
      - destruct (add_fresh f oc) as [-> ->]; [set_solver|].
        split; [lia|]. split; [set_solver|done].
      - destruct (add_fresh f ot) as [-> ->]; [set_solver|].
        split; [lia|]. split; [set_solver|done]. }
    destruct (Hstep _ eq_refl) as (Hsz & Hdom & Hsw).
    destruct (IH Hnd (XcProjReporter.sort_source_file (sw, oc, ot) f)) as [IHsz IHdom].
    { intros g Hg. rewrite Hdom. apply not_elem_of_union. split.
      - apply not_elem_of_singleton. intros Heq. apply Hf.
        rewrite <- Heq. apply list_elem_of_fmap. eauto.
      - apply Hfresh. by right. }
    split; [lia|].
    intros path. rewrite IHdom, Hsw, elem_of_cons.
    destruct (Str.endswith (XcFile.filepath f) ".swift") eqn:He.
    + rewrite elem_of_union, elem_of_singleton. split; [|naive_solver].
      intros [[->|?]|[? ?]]; auto.
    + split; [naive_solver|]. intros [?|[[->|?] ?]]; [auto|congruence|auto].
Qed.

Lemma bucket_unions_sources (l : list XcTarget.t) :
  forall acc : FileSet * FileSet * FileSet,
    (foldl (fun acc target =>
              (acc.1.1 ∪ XcTarget.source_files target,
               acc.1.2 ∪ XcTarget.resource_files target,
               acc.2 ∪ XcTarget.header_files target)) acc l).1.1
    = foldl (fun results target => results ∪ XcTarget.source_files target) acc.1.1 l.
Proof.
  induction l as [|t l IH]; intros acc; simpl; [done|]. by rewrite IH.
Qed.

Lemma elements_filepaths (s : FileSet) :
  XcFile.filepath <$> FileSet.elements s = (map_to_list s).*1.
Proof.
  unfold FileSet.elements. rewrite <- list_fmap_compose.
  apply list_fmap_ext. by intros _ [p d] _.
Qed.

(** X12: in what [print_files_summary] prints, the Swift, Objective-C and
    other source files add up to the source files, the total is the sum of
    the source, resource and header counts, and the count of Swift files is
    the number of the project's Swift files ([XcProject.swift_files]). *)
Theorem files_summary_counts (p : XcProject.t) :
  XcProjReporter.swift_source_files_count (XcProjReporter.print_files_summary p)
  + XcProjReporter.objc_source_files_count (XcProjReporter.print_files_summary p)
  + XcProjReporter.other_source_files_count (XcProjReporter.print_files_summary p)
  = XcProjReporter.source_files_count (XcProjReporter.print_files_summary p)
  /\ XcProjReporter.total_files_count (XcProjReporter.print_files_summary p)
     = XcProjReporter.source_files_count (XcProjReporter.print_files_summary p)
       + XcProjReporter.resource_files_count (XcProjReporter.print_files_summary p)
       + XcProjReporter.header_files_count (XcProjReporter.print_files_summary p)
  /\ XcProjReporter.swift_source_files_count (XcProjReporter.print_files_summary p)
     = size (XcProject.swift_files p).
Proof.
  unfold XcProjReporter.print_files_summary.
  destruct (XcProjReporter.bucket_unions p) as [[src res] hdr] eqn:Hb.
  destruct (sort_source_files_sizes (FileSet.elements src)) with (acc := ((∅, ∅, ∅) : FileSet * FileSet * FileSet))
    as [Hsz Hdom].
  { rewrite elements_filepaths. apply NoDup_fst_map_to_list. }
  { intros f _. simpl. set_solver. }
  destruct (foldl XcProjReporter.sort_source_file (∅, ∅, ∅) (FileSet.elements src))
    as [[sw oc] ot] eqn:Hs.
  simpl in *. rewrite !map_size_empty in Hsz.
  assert (Hlen : length (FileSet.elements src) = size src).
  { unfold FileSet.elements. by rewrite length_fmap, length_map_to_list. }
  split; [lia|]. split; [done|].
  rewrite <- (size_dom sw), <- (size_dom (XcProject.swift_files p)). f_equal.
  apply set_eq. intros path. rewrite Hdom, dom_empty_L.
  assert (Hsrc : src = foldl (fun results target => results ∪ XcTarget.source_files target)
                         ∅ (XcProject.targets p)).
  { unfold XcProjReporter.bucket_unions in Hb.
    pose proof (bucket_unions_sources (XcProject.targets p) (∅, ∅, ∅)) as H.
    rewrite Hb in H. done. }
  change (path ∈ dom (XcProject.swift_files p))
    with (path ∈ FileSet.paths (XcProject.swift_files p)).
  unfold XcProject.swift_files. rewrite foldl_union_paths.
  unfold XcProject.targets_sorted_by_name. setoid_rewrite elem_of_sorted_by.
  unfold XcTarget.swift_files. setoid_rewrite with_suffix_paths.
  assert (Hin : path ∈ XcFile.filepath <$> FileSet.elements src
            <-> exists t, t ∈ XcProject.targets p
                          /\ path ∈ FileSet.paths (XcTarget.source_files t)).
  { rewrite elements_filepaths.
    assert (path ∈ (map_to_list src).*1 <-> path ∈ FileSet.paths src) as ->.
    { unfold FileSet.paths. rewrite elem_of_dom. rewrite list_elem_of_fmap. split.
      - intros ([q d] & -> & Hq). apply elem_of_map_to_list in Hq. eauto.
      - intros [d Hd]. exists (path, d). split; [done|]. by apply elem_of_map_to_list. }
    rewrite Hsrc, foldl_union_paths. unfold FileSet.paths at 1. rewrite dom_empty_L.
    set_solver. }
  rewrite Hin. unfold FileSet.paths. rewrite ?dom_empty_L. set_solver.
Qed.

(** ** Orphan files *)

Lemma sorted_strings_sorted (l : list string) :
  StronglySorted String.le (sorted_by (fun x => x) l).
Proof. apply (sorted_by_sorted (fun x : string => x)). Qed.

Lemma elem_of_kept_paths (keep : XcFile.t -> bool) (s : FileSet) (path : string) :
  (forall f g, XcFile.filepath f = XcFile.filepath g -> keep f = keep g) ->
  path ∈ sorted_by (fun x => x)
           (XcFile.filepath <$> List.filter keep (FileSet.elements s))
  <-> path ∈ FileSet.paths s /\ keep (XcFile.mk path None None) = true.
Proof.
  intros Hkeep. rewrite elem_of_sorted_by, list_elem_of_fmap, elements_paths.
  setoid_rewrite list_elem_of_In. setoid_rewrite filter_In.
  setoid_rewrite <- list_elem_of_In. split.
  - intros (f & -> & Hf & Hk). split; [eauto|]. by rewrite <- Hk; apply Hkeep.
  - intros [(f & Hf & <-) Hk]. exists f. split; [done|]. split; [done|].
    by rewrite <- Hk; apply Hkeep.
Qed.

(** X13: of the files that no target owns, mode [unreferenced] of
    [print_orphan_files] prints the paths ending in Info.plist or .h, and
    mode [target] the other paths that nothing makes it ignore; no path is
    printed in both, both lists are sorted, and when nothing is to be
    ignored the two modes together print every such file. *)
Theorem orphan_modes_split_target_less_files (fuel : nat) (σ : store)
  (p : XcProject.t) (folder_filepaths : gset string)
  (ignored_dirpaths : list string) (ignored_dirs : gset string) (tl : FileSet)
  (Htl : XcProject.target_less_files fuel σ p = Ret tl) :
  exists lt lu,
    XcProjReporter.print_orphan_files fuel σ p folder_filepaths
      ignored_dirpaths ignored_dirs "target" = Ret (Some lt)
    /\ XcProjReporter.print_orphan_files fuel σ p folder_filepaths
         ignored_dirpaths ignored_dirs "unreferenced" = Ret (Some lu)
    /\ (forall path,
          path ∈ lu
          <-> path ∈ FileSet.paths tl
              /\ (Str.endswith path "Info.plist" = true
                  \/ Str.endswith path ".h" = true))
    /\ (forall path,
          path ∈ lt
          <-> path ∈ FileSet.paths tl
              /\ Str.endswith path "Info.plist" = false
              /\ Str.endswith path ".h" = false
              /\ XcProjReporter.ignored_by_path ignored_dirpaths path = false
              /\ XcProjReporter.ignored_by_dir ignored_dirs path = false)
    /\ (forall path, path ∈ lt -> path ∉ lu)
    /\ (ignored_dirpaths = [] -> ignored_dirs = ∅ ->
        forall path, path ∈ FileSet.paths tl <-> path ∈ lt \/ path ∈ lu)
    /\ StronglySorted String.le lt
    /\ StronglySorted String.le lu.
Proof.
  assert (Hfs : exists fs, XcProject.files fuel σ p = Ret fs
                           /\ tl = fs ∖ XcProject.target_files p).
  { unfold XcProject.target_less_files in Htl.
    apply bind_Ret in Htl as (fs & Hfs & [= <-]). eauto. }
  destruct Hfs as (fs & Hfs & Htl').
  unfold XcProjReporter.print_orphan_files. simpl. rewrite Hfs, Htl. simpl.
  rewrite <- Htl'. eexists _, _. split; [done|]. split; [done|].
  assert (Hu : forall path,
            path ∈ sorted_by (fun x => x)
                     (XcFile.filepath
                        <$> List.filter XcProjReporter.plist_or_header
                              (FileSet.elements tl))
            <-> path ∈ FileSet.paths tl
                /\ (Str.endswith path "Info.plist" = true
                    \/ Str.endswith path ".h" = true)).
  { intros path. rewrite elem_of_kept_paths.
    - unfold XcProjReporter.plist_or_header. simpl.
      destruct (Str.endswith path "Info.plist"), (Str.endswith path ".h");
        simpl; naive_solver.
    - intros f g Hfg. unfold XcProjReporter.plist_or_header. by rewrite Hfg. }
  assert (Ht : forall path,
            path ∈ sorted_by (fun x => x)
                     (XcFile.filepath
                        <$> List.filter
                              (XcProjReporter.orphan_of_target ignored_dirpaths
                                 ignored_dirs)
                              (FileSet.elements tl))
            <-> path ∈ FileSet.paths tl
                /\ Str.endswith path "Info.plist" = false
                /\ Str.endswith path ".h" = false
                /\ XcProjReporter.ignored_by_path ignored_dirpaths path = false
                /\ XcProjReporter.ignored_by_dir ignored_dirs path = false).
  { intros path. rewrite elem_of_kept_paths.
    - unfold XcProjReporter.orphan_of_target. simpl.
      destruct (Str.endswith path "Info.plist"), (Str.endswith path ".h"),
        (XcProjReporter.ignored_by_path ignored_dirpaths path),
        (XcProjReporter.ignored_by_dir ignored_dirs path);
        simpl; naive_solver.
    - intros f g Hfg. unfold XcProjReporter.orphan_of_target. by rewrite Hfg. }
  split; [done|]. split; [done|]. split; [|split; [|split]].
  - intros path. rewrite Ht, Hu. intros (_ & H1 & H2 & _) (_ & [H|H]); congruence.
  - intros -> -> path. rewrite Ht, Hu.
    assert (XcProjReporter.ignored_by_dir ∅ path = false) as ->.
    { unfold XcProjReporter.ignored_by_dir. apply bool_decide_false. set_solver. }
    simpl.
    destruct (Str.endswith path "Info.plist"), (Str.endswith path ".h"); naive_solver.
  - apply sorted_strings_sorted.
  - apply sorted_strings_sorted.
Qed.

Lemma orphan_modes_split_target_less_files_witness :
  exists lt lu,
    XcProjReporter.print_orphan_files 3 Examples.tree_store Examples.tree_project
      ∅ [] ∅ "target" = Ret (Some lt)
    /\ XcProjReporter.print_orphan_files 3 Examples.tree_store Examples.tree_project
         ∅ [] ∅ "unreferenced" = Ret (Some lu)
    /\ (forall path,
          path ∈ lu
          <-> path ∈ FileSet.paths
                       ({[ "README.md" := Examples.unread;
                           "App/Net/Api.h" := Examples.unread ]} : FileSet)
              /\ (Str.endswith path "Info.plist" = true
                  \/ Str.endswith path ".h" = true))
    /\ (forall path,
          path ∈ lt
          <-> path ∈ FileSet.paths
                       ({[ "README.md" := Examples.unread;
                           "App/Net/Api.h" := Examples.unread ]} : FileSet)
              /\ Str.endswith path "Info.plist" = false
              /\ Str.endswith path ".h" = false
              /\ XcProjReporter.ignored_by_path [] path = false
              /\ XcProjReporter.ignored_by_dir ∅ path = false)
    /\ (forall path, path ∈ lt -> path ∉ lu)
    /\ (@nil string = [] -> (∅ : gset string) = ∅ ->
        forall path,
          path ∈ FileSet.paths
                   ({[ "README.md" := Examples.unread;
                       "App/Net/Api.h" := Examples.unread ]} : FileSet)
          <-> path ∈ lt \/ path ∈ lu)
    /\ StronglySorted String.le lt
    /\ StronglySorted String.le lu.
Proof.
  apply (orphan_modes_split_target_less_files 3 Examples.tree_store
           Examples.tree_project).
  vm_compute. reflexivity.
Defined.

(** ** Duplicate and missing names, in general *)

Lemma see_objc_file_fields (st : XcProjReporter.names_seen) (f : XcFile.t) :
  let b := Str.drop_last2 (XcFile.filename f) in
  XcProjReporter.h_file_names (XcProjReporter.see_objc_file st f)
  = (if Str.endswith (XcFile.filename f) ".h"
     then XcProjReporter.h_file_names st ∪ {[ b ]}
     else XcProjReporter.h_file_names st)
  /\ XcProjReporter.duplicate_h_file_names (XcProjReporter.see_objc_file st f)
     = (if Str.endswith (XcFile.filename f) ".h"
        then (if bool_decide (b ∈ XcProjReporter.h_file_names st)
              then XcProjReporter.duplicate_h_file_names st ∪ {[ b ]}
              else XcProjReporter.duplicate_h_file_names st)
        else XcProjReporter.duplicate_h_file_names st)
  /\ XcProjReporter.m_file_names (XcProjReporter.see_objc_file st f)
     = (if Str.endswith (XcFile.filename f) ".m"
        then XcProjReporter.m_file_names st ∪ {[ b ]}
        else XcProjReporter.m_file_names st)
  /\ XcProjReporter.duplicate_m_file_names (XcProjReporter.see_objc_file st f)
     = (if Str.endswith (XcFile.filename f) ".m"
        then (if bool_decide (b ∈ XcProjReporter.m_file_names st)
              then XcProjReporter.duplicate_m_file_names st ∪ {[ b ]}
              else XcProjReporter.duplicate_m_file_names st)
        else XcProjReporter.duplicate_m_file_names st).
Proof.
  unfold XcProjReporter.see_objc_file, XcFile.filename. simpl.
  destruct (Str.endswith _ ".h"), (Str.endswith _ ".m"); simpl; done.
Qed.

Lemma count_named_snoc (suffix base : string) (l : list XcFile.t) (f : XcFile.t) :
  count_named suffix base (l ++ [f])
  = count_named suffix base l
    + (if Str.endswith (XcFile.filename f) suffix
       then if decide (Str.drop_last2 (XcFile.filename f) = base) then 1 else 0
       else 0).
Proof.
  unfold count_named. rewrite filter_app, length_app, filter_cons, filter_nil.
  destruct (Str.endswith (XcFile.filename f) suffix) eqn:He.
  - destruct (decide (Str.drop_last2 (XcFile.filename f) = base)).
    + by rewrite decide_True.
    + by rewrite decide_False by tauto.
  - rewrite decide_False; [done|]. intros [? _]. congruence.
Qed.

Lemma names_seen_counts (visited : list XcFile.t) :
  let st := foldl XcProjReporter.see_objc_file (XcProjReporter.mk_names ∅ ∅ ∅ ∅) visited in
  forall b,
    (b ∈ XcProjReporter.h_file_names st <-> 1 <= count_named ".h" b visited)
    /\ (b ∈ XcProjReporter.duplicate_h_file_names st
        <-> 2 <= count_named ".h" b visited)
    /\ (b ∈ XcProjReporter.m_file_names st <-> 1 <= count_named ".m" b visited)
    /\ (b ∈ XcProjReporter.duplicate_m_file_names st
        <-> 2 <= count_named ".m" b visited).
Proof.
  induction visited as [|f l IH] using rev_ind; intros st b.
  - unfold st, count_named. simpl. repeat split; (set_solver || lia).
  - unfold st. rewrite foldl_snoc, !count_named_snoc.
    set (st0 := foldl XcProjReporter.see_objc_file (XcProjReporter.mk_names ∅ ∅ ∅ ∅) l) in *.
    destruct (see_objc_file_fields st0 f) as (-> & -> & -> & ->).
    destruct (IH b) as (Hh & Hdh & Hm & Hdm). simpl in Hh, Hdh, Hm, Hdm.
    destruct (IH (Str.drop_last2 (XcFile.filename f))) as (Hh0 & _ & Hm0 & _).
    simpl in Hh0, Hm0.
    repeat split;
      destruct (Str.endswith (XcFile.filename f) ".h"),
               (Str.endswith (XcFile.filename f) ".m");
      repeat case_bool_decide; repeat case_decide; subst;
      rewrite ?elem_of_union, ?elem_of_singleton; naive_solver lia.
Qed.

(** X14: whatever files [print_missing_objc_files] visits, it reports a
    name as a duplicate header (implementation) name exactly when two files
    or more have that name with the .h (.m) suffix, and as a missing header
    (implementation) name exactly when some .m (.h) file has it and no .h
    (.m) file has; each of the four lists is sorted and names nothing
    twice. *)
Theorem missing_objc_files_counts_names (visited : list XcFile.t) :
  (forall b,
     (b ∈ XcProjReporter.duplicate_h_file_names_list
            (XcProjReporter.missing_objc_files visited)
      <-> 2 <= count_named ".h" b visited)
     /\ (b ∈ XcProjReporter.duplicate_m_file_names_list
               (XcProjReporter.missing_objc_files visited)
         <-> 2 <= count_named ".m" b visited)
     /\ (b ∈ XcProjReporter.missing_h_file_names
               (XcProjReporter.missing_objc_files visited)
         <-> 1 <= count_named ".m" b visited /\ count_named ".h" b visited = 0)
     /\ (b ∈ XcProjReporter.missing_m_file_names
               (XcProjReporter.missing_objc_files visited)
         <-> 1 <= count_named ".h" b visited /\ count_named ".m" b visited = 0))
  /\ Forall (fun names => StronglySorted String.le names /\ NoDup names)
       [XcProjReporter.duplicate_h_file_names_list
          (XcProjReporter.missing_objc_files visited);
        XcProjReporter.duplicate_m_file_names_list
          (XcProjReporter.missing_objc_files visited);
        XcProjReporter.missing_h_file_names
          (XcProjReporter.missing_objc_files visited);
        XcProjReporter.missing_m_file_names
          (XcProjReporter.missing_objc_files visited)].
Proof.
  unfold XcProjReporter.missing_objc_files. simpl. split.
  - intros b. destruct (names_seen_counts visited b) as (Hh & Hdh & Hm & Hdm).
    simpl in *.
    rewrite !elem_of_sorted_by, !base.elem_of_elements, !elem_of_difference.
    rewrite Hh, Hdh, Hm, Hdm. repeat split; lia.
  - repeat constructor; try apply sorted_strings_sorted;
      rewrite sorted_by_perm; apply NoDup_elements.
Qed.

(** ** Strings *)

Lemma substring_all (s : string) : String.substring 0 (String.length s) s = s.
Proof. induction s as [|c s IH]; [done|]. simpl. by rewrite IH. Qed.

Lemma substring_split (s : string) :
  forall n, n <= String.length s ->
    s = String.substring 0 n s
        +:+ String.substring n (String.length s - n) s.
Proof.
  induction s as [|c s IH]; intros [|n] Hn; simpl in *; try lia.
  - done.
  - by rewrite substring_all.
  - trans (String c (String.substring 0 n s
                     +:+ String.substring n (String.length s - n) s));
      [|reflexivity].
    f_equal. apply IH. lia.
Qed.

Lemma endswith_suffix (s suffix : string) :
  Str.endswith s suffix = true -> exists pre, s = pre +:+ suffix.
Proof.
  unfold Str.endswith. intros [Hlen Heq]%andb_true_iff.
  apply Nat.leb_le in Hlen. apply String.eqb_eq in Heq.
  exists (String.substring 0 (String.length s - String.length suffix) s).
  pose proof (substring_split s (String.length s - String.length suffix)) as H.
  replace (String.length s - (String.length s - String.length suffix))
    with (String.length suffix) in H by lia.
  rewrite Heq in H. apply H. lia.
Qed.

Lemma list_of_append (a b : string) :
  String.list_ascii_of_string (a +:+ b)
  = String.list_ascii_of_string a ++ String.list_ascii_of_string b.
Proof. induction a as [|c a IH]; [done|]. simpl. by rewrite IH. Qed.

Lemma endswith_last (s suffix : string) (c : ascii) :
  Str.endswith s (suffix +:+ String c "") = true ->
  last (String.list_ascii_of_string s) = Some c.
Proof.
  intros [pre ->]%endswith_suffix.
  rewrite !list_of_append. simpl. by rewrite app_assoc, last_snoc.
Qed.

(** A path that ends in .swift ends neither in .h nor in .m. *)
Lemma swift_suffix_excludes_objc (path : string) :
  Str.endswith path ".swift" = true ->
  Str.endswith path ".h" = false /\ Str.endswith path ".m" = false.
Proof.
  intros Hs. apply (endswith_last path ".swif" "t") in Hs.
  split.
  - destruct (Str.endswith path ".h") eqn:Hh; [|done].
    apply (endswith_last path "." "h") in Hh. congruence.
  - destruct (Str.endswith path ".m") eqn:Hm; [|done].
    apply (endswith_last path "." "m") in Hm. congruence.
Qed.

(** ** The two inventories *)

Lemma swift_files_paths (p : XcProject.t) (path : string) :
  path ∈ FileSet.paths (XcProject.swift_files p)
  <-> exists t, t ∈ XcProject.targets p
                /\ path ∈ FileSet.paths (XcTarget.source_files t)
                /\ Str.endswith path ".swift" = true.
Proof.
  unfold XcProject.swift_files. rewrite foldl_union_paths.
  unfold XcProject.targets_sorted_by_name. setoid_rewrite elem_of_sorted_by.
  unfold XcTarget.swift_files. setoid_rewrite with_suffix_paths.
  unfold FileSet.paths at 1. rewrite dom_empty_L. set_solver.
Qed.

(** X15: the project's Swift files are the source files of targets whose
    path ends in .swift, and none of them is among the project's
    Objective-C files; nor is a Swift file of a target among its
    Objective-C files.  No file is read both as Swift and as
    Objective-C. *)
Theorem swift_and_objc_files_apart (fuel : nat) (σ : store) (p : XcProject.t)
  (ofs : FileSet) (Hofs : XcProject.objc_files fuel σ p = Ret ofs) :
  (forall path,
     path ∈ FileSet.paths (XcProject.swift_files p)
     <-> exists t, t ∈ XcProject.targets p
                   /\ path ∈ FileSet.paths (XcTarget.source_files t)
                   /\ Str.endswith path ".swift" = true)
  /\ FileSet.paths (XcProject.swift_files p) ## FileSet.paths ofs
  /\ forall t, FileSet.paths (XcTarget.swift_files t)
               ## FileSet.paths (XcTarget.objc_files t).
Proof.
  split; [apply swift_files_paths|]. split.
  - destruct (objc_files_paths fuel σ p ofs Hofs) as (pf & _ & Hpaths).
    apply elem_of_disjoint. intros path Hsw Hoc.
    apply swift_files_paths in Hsw as (t & _ & _ & Hsw).
    apply swift_suffix_excludes_objc in Hsw as [Hh Hm].
    apply Hpaths in Hoc as [(t' & _ & [[_ He]|[_ He]])|(_ & _ & He)]; congruence.
  - intros t. apply elem_of_disjoint. intros path.
    unfold XcTarget.swift_files, XcTarget.objc_files, XcTarget.h_files,
      XcTarget.m_files.
    rewrite with_suffix_paths. unfold FileSet.paths at 2.
    rewrite dom_union, elem_of_union.
    change (forall s : FileSet, dom s = FileSet.paths s) with True.
    intros [_ Hsw]. apply swift_suffix_excludes_objc in Hsw as [Hh Hm].
    intros [Hin|Hin]; apply (with_suffix_paths _ _ path) in Hin as [_ He]; congruence.
Qed.

Lemma swift_and_objc_files_apart_witness :
  (forall path,
     path ∈ FileSet.paths (XcProject.swift_files Examples.mixed_project)
     <-> exists t, t ∈ XcProject.targets Examples.mixed_project
                   /\ path ∈ FileSet.paths (XcTarget.source_files t)
                   /\ Str.endswith path ".swift" = true)
  /\ FileSet.paths (XcProject.swift_files Examples.mixed_project)
     ## FileSet.paths
          ({[ "App/Legacy.h" :=
                (None, Some [Examples.objc_class "Legacy"; Examples.objc_class "Foo"]) ]}
           : FileSet)
  /\ forall t, FileSet.paths (XcTarget.swift_files t)
               ## FileSet.paths (XcTarget.objc_files t).
Proof.
  apply (swift_and_objc_files_apart 0 Examples.empty_store Examples.mixed_project).
  vm_compute. reflexivity.
Defined.

(** ** Identity of targets *)

(** X16: two targets are equal exactly when they have the same type and the
    same name, whatever their product names, dependencies and files are, and
    equal targets have equal hashes; a target equals itself, and equality
    does not depend on the side. *)
Theorem target_equality_is_type_and_name (tuple_hash : string * string -> Z)
  (t1 t2 : XcTarget.t) :
  (XcTarget.eq t1 t2 = true
   <-> XcTarget.type t1 = XcTarget.type t2 /\ XcTarget.name t1 = XcTarget.name t2)
  /\ (forall pn d l e s r h f pn' d' l' e' s' r' h' f',
        XcTarget.eq
          (XcTarget.mk (XcTarget.name t1) (XcTarget.type t1) pn d l e s r h f)
          (XcTarget.mk (XcTarget.name t2) (XcTarget.type t2) pn' d' l' e' s' r' h' f')
        = XcTarget.eq t1 t2)
  /\ (XcTarget.eq t1 t2 = true ->
      XcTarget.hash tuple_hash t1 = XcTarget.hash tuple_hash t2)
  /\ XcTarget.eq t1 t1 = true
  /\ XcTarget.eq t1 t2 = XcTarget.eq t2 t1.
Proof.
  split; [|split; [|split; [|split]]].
  - rewrite target_eq_id. unfold XcTarget.id.
    split; [intros [= Ht Hn]; done | intros [Ht Hn]; congruence].
  - done.
  - intros Heq%target_eq_id. unfold XcTarget.hash, XcTarget.id in *.
    by injection Heq as -> ->.
  - by apply target_eq_id.
  - destruct (XcTarget.eq t1 t2) eqn:H12, (XcTarget.eq t2 t1) eqn:H21; try done.
    + apply target_eq_id in H12. symmetry in H12. apply target_eq_id in H12.
      congruence.
    + apply target_eq_id in H21. symmetry in H21. apply target_eq_id in H21.
      congruence.
Qed.

(** ** Files by name *)

(** X17: when the files of the project are computed, [file_with_name]
    returns [None] exactly when no file of the project has that file name,
    and otherwise a file of the project with that file name. *)
Theorem file_with_name_finds (fuel : nat) (σ : store) (p : XcProject.t)
  (name : string) (fs : FileSet) (Hfs : XcProject.files fuel σ p = Ret fs) :
  exists r,
    XcProject.file_with_name fuel σ p name = Ret r
    /\ (r = None
        <-> forall f, f ∈ FileSet.elements fs -> XcFile.filename f <> name)
    /\ forall f, r = Some f ->
         f ∈ FileSet.elements fs /\ XcFile.filename f = name.
Proof.
  unfold XcProject.file_with_name. rewrite Hfs. simpl.
  eexists. split; [done|]. split.
  - split.
    + intros Hnone f Hf Hname.
      apply list_elem_of_In in Hf.
      apply (find_none _ _ Hnone) in Hf. apply String.eqb_neq in Hf. done.
    + intros Hall.
      destruct (find _ _) as [f|] eqn:Hfind; [|done].
      apply find_some in Hfind as [Hin Heq].
      apply String.eqb_eq in Heq. apply list_elem_of_In in Hin.
      by destruct (Hall f Hin).
  - intros f Hfind. apply find_some in Hfind as [Hin Heq].
    apply String.eqb_eq in Heq. by apply list_elem_of_In in Hin.
Qed.

Lemma file_with_name_finds_witness :
  exists r,
    XcProject.file_with_name 3 Examples.tree_store Examples.tree_project "View.swift"
    = Ret r
    /\ (r = None
        <-> forall f, f ∈ FileSet.elements Examples.tree_files ->
                      XcFile.filename f <> "View.swift")
    /\ forall f, r = Some f ->
         f ∈ FileSet.elements Examples.tree_files
         /\ XcFile.filename f = "View.swift".
Proof.
  apply (file_with_name_finds 3 Examples.tree_store Examples.tree_project).
  vm_compute. reflexivity.
Defined.

(** ** Trailing separators of the project path *)

Lemma length_snoc (r : string) (c : ascii) :
  String.length (r +:+ String c "") = S (String.length r).
Proof. induction r as [|d r IH]; simpl; [done|]. by rewrite IH. Qed.

Lemma last_char_snoc (r : string) (c : ascii) :
  Str.last_char (r +:+ String c "") = Some c.
Proof.
  unfold Str.last_char. rewrite length_snoc.
  induction r as [|d r IH]; simpl; [done|]. apply IH.
Qed.

Lemma drop_last_snoc (r : string) (c : ascii) :
  Str.drop_last (r +:+ String c "") = r.
Proof.
  unfold Str.drop_last. rewrite length_snoc. simpl. rewrite Nat.sub_0_r.
  induction r as [|d r IH]; simpl; [done|]. by rewrite IH.
Qed.

Lemma snoc_not_empty (r : string) (c : ascii) :
  String.eqb (r +:+ String c "") "" = false.
Proof. by destruct r. Qed.

Lemma append_cons (d : ascii) (a b : string) :
  String d a +:+ b = String d (a +:+ b).
Proof. reflexivity. Qed.

Lemma append_assoc (a b c : string) : a +:+ (b +:+ c) = (a +:+ b) +:+ c.
Proof. induction a as [|d a IH]; [done|]. by rewrite !append_cons, IH. Qed.

Lemma append_empty_r (a : string) : a +:+ "" = a.
Proof. induction a as [|d a IH]; [done|]. by rewrite append_cons, IH. Qed.

Lemma seps_snoc (n : nat) :
  seps (S n)
  = seps n +:+ String FindDeadTypes.sep "".
Proof.
  induction n as [|n IH]; [done|].
  change (seps (S (S n))) with (String FindDeadTypes.sep (seps (S n))).
  rewrite IH at 1. reflexivity.
Qed.

Lemma string_snoc_cases (s : string) :
  s = "" \/ exists r c, s = r +:+ String c "".
Proof.
  induction s as [|d s IH]; [by left|]. right.
  destruct IH as [->|(r & c & ->)].
  - by exists "", d.
  - by exists (String d r), c.
Qed.

Lemma strip_loop_stops (fuel : nat) (r : string) :
  Str.last_char r <> Some FindDeadTypes.sep ->
  FindDeadTypes.strip_loop fuel r = r.
Proof.
  intros Hlast. destruct fuel as [|fuel]; [done|]. simpl.
  rewrite bool_decide_eq_false_2 by done. by rewrite andb_false_r.
Qed.

Lemma strip_loop_seps (n : nat) :
  forall (fuel : nat) (r : string),
    n <= fuel ->
    Str.last_char r <> Some FindDeadTypes.sep ->
    FindDeadTypes.strip_loop fuel (r +:+ seps n) = r.
Proof.
  induction n as [|n IH]; intros fuel r Hfuel Hlast.
  - simpl. rewrite append_empty_r. by apply strip_loop_stops.
  - destruct fuel as [|fuel]; [lia|].
    rewrite seps_snoc, append_assoc. simpl.
    rewrite snoc_not_empty, last_char_snoc, bool_decide_eq_true_2 by done.
    simpl. rewrite drop_last_snoc. apply IH; [lia|done].
Qed.

Lemma length_append (a b : string) :
  String.length (a +:+ b) = String.length a + String.length b.
Proof.
  induction a as [|d a IH]; [done|]. rewrite append_cons. simpl. by rewrite IH.
Qed.

Lemma length_seps (n : nat) : String.length (seps n) = n.
Proof. induction n as [|n IH]; simpl; [done|]. by rewrite IH. Qed.

Lemma trailing_seps (m : nat) :
  forall path, String.length path <= m ->
    exists r n, path = r +:+ seps n
                /\ Str.last_char r <> Some FindDeadTypes.sep.
Proof.
  induction m as [|m IH]; intros path Hlen.
  - destruct path; simpl in Hlen; [|lia]. by exists "", 0.
  - destruct (string_snoc_cases path) as [->|(r' & c & ->)]; [by exists "", 0|].
    destruct (decide (c = FindDeadTypes.sep)) as [->|Hc].
    + rewrite length_snoc in Hlen.
      destruct (IH r') as (r & n & -> & Hlast); [lia|].
      exists r, (S n). by rewrite seps_snoc, append_assoc.
    + exists (r' +:+ String c ""), 0. rewrite append_empty_r.
      split; [done|]. rewrite last_char_snoc. congruence.
Qed.

(** X18: stripping the trailing separators of the path argument removes
    exactly the slashes at its end: the path is the result followed by
    slashes only, the result does not end in a slash, and it is the only
    such prefix.  A path made of slashes only becomes the empty string. *)
Theorem strip_trailing_sep_removes_trailing_slashes (path : string) :
  (exists n,
     path = FindDeadTypes.strip_trailing_sep path +:+ seps n)
  /\ Str.last_char (FindDeadTypes.strip_trailing_sep path)
     <> Some FindDeadTypes.sep
  /\ (forall r n,
        path = r +:+ seps n ->
        Str.last_char r <> Some FindDeadTypes.sep ->
        FindDeadTypes.strip_trailing_sep path = r)
  /\ (forall n, FindDeadTypes.strip_trailing_sep (seps n) = "").
Proof.
  assert (Huniq : forall r n,
    Str.last_char r <> Some FindDeadTypes.sep ->
    FindDeadTypes.strip_trailing_sep (r +:+ seps n) = r).
  { intros r n Hlast. unfold FindDeadTypes.strip_trailing_sep.
    apply strip_loop_seps; [|done]. rewrite length_append, length_seps. lia. }
  assert (Hrest :
    (forall r n, path = r +:+ seps n ->
       Str.last_char r <> Some FindDeadTypes.sep ->
       FindDeadTypes.strip_trailing_sep path = r)
    /\ (forall n, FindDeadTypes.strip_trailing_sep (seps n) = "")).
  { split.
    - intros r n -> Hlast. by apply Huniq.
    - intros k. by apply (Huniq "" k). }
  destruct (trailing_seps (String.length path) path) as (r & n & Hpath & Hlast);
    [done|].
  pose proof (proj1 Hrest r n Hpath Hlast) as Hstrip.
  split; [exists n; by rewrite Hstrip|]. split; [by rewrite Hstrip|].
  exact Hrest.
Qed.
